(** * lmnav: rollout storage and behaviour-cloning trainer

    A shallow embedding of [lmnav/common/rollout_storage.py] and of the
    training-step, configuration and checkpoint code of [lmnav/bc_train.py],
    with the properties the specification states about them; and of the
    training loop, the weights and counters of the evaluation and the
    hand-over of the data files in [lmnav/bc_train.py], with properties read
    off the code.

    Python objects that are mutated in place are modelled by explicit state
    passing; a raised exception keeps the state reached when it was raised,
    as in Python. *)

From Stdlib Require Import ZArith List Lia Bool Ascii.
From stdpp Require Import base option list gmap strings.

Local Open Scope Z_scope.

(** ** Python runtime: exceptions, state, indices and slices *)

Module Py.

Inductive exn : Type :=
| IndexError
| RuntimeError
| ValueError
| ZeroDivisionError
| AssertionError
| KeyError
| FileNotFoundError.

Inductive result (A : Type) : Type :=
| Ok (a : A)
| Raise (e : exn).
Arguments Ok {A} a.
Arguments Raise {A} e.

(** A computation over a mutable object of type [S]. *)
Definition M (S A : Type) : Type := S -> result A * S.

Definition ret {S A} (a : A) : M S A := fun s => (Ok a, s).

Definition bind {S A B} (c : M S A) (k : A -> M S B) : M S B :=
  fun s =>
    match c s with
    | (Ok a, s') => k a s'
    | (Raise e, s') => (Raise e, s')
    end.

Definition raise {S A} (e : exn) : M S A := fun s => (Raise e, s).

Definition gets {S A} (f : S -> A) : M S A := fun s => (Ok (f s), s).

Definition modify {S} (f : S -> S) : M S unit := fun s => (Ok tt, f s).

(** A pure, possibly raising, expression evaluated inside a computation. *)
Definition lift {S A} (r : result A) : M S A := fun s => (r, s).

(** [if x is not None: body x] *)
Definition when_given {S A} (x : option A) (body : A -> M S unit) : M S unit :=
  match x with
  | Some a => body a
  | None => ret tt
  end.

(** An integer index into a dimension of [size] elements: non-negative
    indices count from the front, negative ones from the back, anything
    else is out of range. *)
Definition index (size : nat) (i : Z) : option nat :=
  if (0 <=? i) && (i <? Z.of_nat size) then Some (Z.to_nat i)
  else if (- Z.of_nat size <=? i) && (i <? 0) then Some (Z.to_nat (i + Z.of_nat size))
  else None.

(** One bound of [slice(start, stop)] resolved against a length. *)
Definition clamp (size : nat) (i : Z) : nat :=
  if i <? 0 then Z.to_nat (Z.max (i + Z.of_nat size) 0)
  else Z.to_nat (Z.min i (Z.of_nat size)).

(** [l[start:stop]] *)
Definition slice {A} (start stop : Z) (l : list A) : list A :=
  let a := clamp (length l) start in
  let b := clamp (length l) stop in
  take (b - a) (drop a l).

(** [range(start, stop, step)] for a positive step; a zero step raises. *)
Definition range_step (start stop step : nat) : result (list nat) :=
  match step with
  | O => Raise ValueError
  | S _ => Ok (map (fun i => start + i * step)%nat
                   (seq 0 (Nat.div (stop - start + (step - 1)) step)))
  end.

(** [a // b] and [a % b] on non-negative integers. *)
Definition floordiv (a b : nat) : result nat :=
  if decide (b = 0%nat) then Raise ZeroDivisionError else Ok (Nat.div a b).

Definition modulo (a b : nat) : result nat :=
  if decide (b = 0%nat) then Raise ZeroDivisionError else Ok (Nat.modulo a b).

(** [assert c] *)
Definition assert_ (c : bool) : result unit :=
  if c then Ok tt else Raise AssertionError.

(** [for a in l: body a] *)
Fixpoint for_each {S A} (l : list A) (body : A -> M S unit) : M S unit :=
  match l with
  | [] => ret tt
  | a :: l' => bind (body a) (fun _ => for_each l' body)
  end.

(** A method of the object held in one attribute of [S], run in place. *)
Definition zoom {S X A} (attr : S -> X) (set_attr : X -> S -> S) (c : M X A)
    : M S A :=
  fun s => match c (attr s) with (r, x) => (r, set_attr x s) end.

End Py.

Import Py.

#[global] Instance result_ret : MRet result := fun A a => Ok a.
#[global] Instance result_bind : MBind result := fun A B k r =>
  match r with
  | Ok a => k a
  | Raise e => Raise e
  end.

(** The computations form a monad; stdpp's [x ← c; k] and [c;; k] are used
    for sequencing. *)
#[global] Instance M_ret {S} : MRet (M S) := fun A a => ret a.
#[global] Instance M_bind {S} : MBind (M S) := fun A B k c => bind c k.

(** ** Tensors

    A tensor of shape [[n, m, ...]] is kept as [n] rows of [m] cells; what a
    cell holds (a scalar, or a block of [tokens_per_img * hidden_size]
    numbers) is opaque to the storage code, which only stores and copies
    cells.  The size of dimension 1 is recorded apart because it exists even
    when there are no rows. *)

Module Torch.

Inductive device : Type := Cpu | Cuda.

Record tensor (A : Type) : Type := mkTensor {
  t_device : device;
  t_steps : nat;
  t_rows : list (list A)
}.
Arguments mkTensor {A} _ _ _.
Arguments t_device {A} _.
Arguments t_steps {A} _.
Arguments t_rows {A} _.

(** Every row has the length the shape announces. *)
Definition wf {A} (t : tensor A) : Prop :=
  Forall (fun r => length r = t_steps t) (t_rows t).

(** [t] has [n] rows of [m] cells. *)
Definition has_shape {A} (t : tensor A) (n m : nat) : Prop :=
  length (t_rows t) = n /\ t_steps t = m /\ wf t.

(** [torch.zeros(n, m, ..., device=dev)] *)
Definition zeros {A} (zero : A) (n m : nat) (dev : device) : tensor A :=
  mkTensor dev m (replicate n (replicate m zero)).

(** The cell at row [b], column [j], if there is one. *)
Definition cell {A} (t : tensor A) (b j : nat) : option A :=
  t_rows t !! b ≫= fun r => r !! j.

(** [t[:, i] = v]: the index is resolved first (out of range raises
    IndexError), then [v], one cell per row, is copied in (a shape that does
    not fit raises RuntimeError; broadcasting of a size-1 value is not
    modelled). *)
Definition setitem_col {A} (t : tensor A) (i : Z) (v : list A) : result (tensor A) :=
  match index (t_steps t) i with
  | None => Raise IndexError
  | Some j =>
      if decide (length v = length (t_rows t))
      then Ok (mkTensor (t_device t) (t_steps t)
                 (zip_with (fun r x => <[j := x]> r) (t_rows t) v))
      else Raise RuntimeError
  end.

(** [t[:, i]] *)
Definition getitem_col {A} (t : tensor A) (i : Z) : result (list A) :=
  match index (t_steps t) i with
  | None => Raise IndexError
  | Some j =>
      match mapM (fun r => r !! j) (t_rows t) with
      | Some v => Ok v
      | None => Raise RuntimeError
      end
  end.

(** [t[b]] *)
Definition getitem_row {A} (t : tensor A) (b : nat) : result (list A) :=
  match t_rows t !! b with
  | Some r => Ok r
  | None => Raise IndexError
  end.

(** [t.cpu()]: a tensor with the same content on the host; [t] itself is
    left where it is. *)
Definition cpu {A} (t : tensor A) : tensor A :=
  mkTensor Cpu (t_steps t) (t_rows t).

(** [torch.where(row)[0].tolist()]: the positions holding True, ascending. *)
Fixpoint where_from (i : Z) (row : list bool) : list Z :=
  match row with
  | [] => []
  | d :: row' => if d then i :: where_from (i + 1) row' else where_from (i + 1) row'
  end.

Definition where_ (row : list bool) : list Z := where_from 0 row.

End Torch.

Import Torch.

(** ** [RolloutStorage] ([lmnav/common/rollout_storage.py]) *)

Module Rollout.

Section Storage.

(** [E] is what one cell of [rgbs] and [goals] holds (a bfloat16 block of
    [tokens_per_img * hidden_size] numbers), [F] a float reward; each comes
    with the value [torch.zeros] fills in.  An action is kept as the integer
    it is: the conversion to int8 on assignment is not modelled. *)
Context {E F : Type} (zeroE : E) (zeroF : F).

Record RolloutStorage : Type := mkStorage {
  num_envs : nat;
  max_steps : nat;
  rgbs : tensor E;
  goals : tensor E;
  actions : tensor Z;
  dones : tensor bool;
  successes : tensor bool;
  rewards : tensor F;
  current_step_idx : Z
}.

Definition set_rgbs (t : tensor E) (s : RolloutStorage) : RolloutStorage :=
  mkStorage (num_envs s) (max_steps s) t (goals s) (actions s) (dones s)
    (successes s) (rewards s) (current_step_idx s).
Definition set_goals (t : tensor E) (s : RolloutStorage) : RolloutStorage :=
  mkStorage (num_envs s) (max_steps s) (rgbs s) t (actions s) (dones s)
    (successes s) (rewards s) (current_step_idx s).
Definition set_actions (t : tensor Z) (s : RolloutStorage) : RolloutStorage :=
  mkStorage (num_envs s) (max_steps s) (rgbs s) (goals s) t (dones s)
    (successes s) (rewards s) (current_step_idx s).
Definition set_dones (t : tensor bool) (s : RolloutStorage) : RolloutStorage :=
  mkStorage (num_envs s) (max_steps s) (rgbs s) (goals s) (actions s) t
    (successes s) (rewards s) (current_step_idx s).
Definition set_successes (t : tensor bool) (s : RolloutStorage) : RolloutStorage :=
  mkStorage (num_envs s) (max_steps s) (rgbs s) (goals s) (actions s) (dones s)
    t (rewards s) (current_step_idx s).
Definition set_rewards (t : tensor F) (s : RolloutStorage) : RolloutStorage :=
  mkStorage (num_envs s) (max_steps s) (rgbs s) (goals s) (actions s) (dones s)
    (successes s) t (current_step_idx s).
Definition set_current_step_idx (i : Z) (s : RolloutStorage) : RolloutStorage :=
  mkStorage (num_envs s) (max_steps s) (rgbs s) (goals s) (actions s) (dones s)
    (successes s) (rewards s) i.

(** [RolloutStorage(num_envs, max_steps, tokens_per_img, hidden_size, device)] *)
Definition init (num_envs max_steps : nat) (dev : device) : RolloutStorage :=
  mkStorage num_envs max_steps
    (zeros zeroE num_envs (max_steps + 1) dev)
    (zeros zeroE num_envs (max_steps + 1) dev)
    (zeros 0 num_envs (max_steps + 1) dev)
    (zeros false num_envs (max_steps + 1) dev)
    (zeros false num_envs max_steps dev)
    (zeros zeroF num_envs (max_steps + 1) dev)
    (-1).

(** [self.<buffer>[:, i] = v], mutating the buffer in place. *)
Definition assign_col {A} (buffer : RolloutStorage -> tensor A)
    (set_buffer : tensor A -> RolloutStorage -> RolloutStorage)
    (i : Z) (v : list A) : M RolloutStorage unit :=
  t ← gets buffer;
  t' ← lift (setitem_col t i v);
  modify (set_buffer t').

(** [self.<buffer>[:, i]] *)
Definition read_col {A} (buffer : RolloutStorage -> tensor A) (i : Z)
    : M RolloutStorage (list A) :=
  t ← gets buffer;
  lift (getitem_col t i).

Definition insert (next_rgbs next_goals : list E)
    (dones_ : option (list bool)) (actions_ : option (list Z))
    (rewards_ : option (list F)) (successes_ : option (list bool))
    : M RolloutStorage unit :=
  i ← gets current_step_idx;
  assign_col rgbs set_rgbs (i + 1) next_rgbs;;
  i ← gets current_step_idx;
  assign_col goals set_goals (i + 1) next_goals;;
  when_given dones_ (fun v =>
    i ← gets current_step_idx; assign_col dones set_dones i v);;
  when_given successes_ (fun v =>
    i ← gets current_step_idx; assign_col successes set_successes i v);;
  when_given rewards_ (fun v =>
    i ← gets current_step_idx; assign_col rewards set_rewards i v);;
  when_given actions_ (fun v =>
    i ← gets current_step_idx; assign_col actions set_actions i v);;
  i ← gets current_step_idx;
  modify (set_current_step_idx (i + 1)).

Definition reset : M RolloutStorage unit :=
  v ← read_col rgbs (-1);
  assign_col rgbs set_rgbs 0 v;;
  v ← read_col goals (-1);
  assign_col goals set_goals 0 v;;
  modify (set_current_step_idx 0).

(** *** [generate_samples] *)

(** The boundaries of one environment: [ends] of the source after the two
    adjustments.  [ends[-1]] is read from a list that starts with [-1], so it
    always exists. *)
Definition env_ends (max_steps : nat) (done_row : list bool) : list Z :=
  let ends := where_ done_row in
  let ends := [-1] ++ ends in
  if decide (List.last ends 0 ≠ Z.of_nat max_steps - 1)
  then ends ++ [Z.of_nat max_steps - 1]
  else ends.

(** [[slice(ends[i] + 1, ends[i + 1] + 1) for i in range(len(ends) - 1)]],
    a slice being kept as its two bounds. *)
Definition slices_of (ends : list Z) : list (Z * Z) :=
  map (fun i => (nth i ends 0 + 1, nth (i + 1) ends 0 + 1))
      (seq 0 (length ends - 1)).

Definition env_slices (max_steps : nat) (done_row : list bool) : list (Z * Z) :=
  slices_of (env_ends max_steps done_row).

(** One sample: the six buffers of one environment cut by one slice. *)
Record sample : Type := mkSample {
  s_rgbs : list E;
  s_goals : list E;
  s_actions : list Z;
  s_rewards : list F;
  s_dones : list bool;
  s_successes : list bool
}.

(** [t[b, s]] *)
Definition getitem_row_slice {A} (t : tensor A) (b : nat) (s : Z * Z)
    : result (list A) :=
  match getitem_row t b with
  | Ok r => Ok (slice (fst s) (snd s) r)
  | Raise e => Raise e
  end.

Definition sample_of (self : RolloutStorage) (b : nat) (s : Z * Z) : result sample :=
  match getitem_row_slice (rgbs self) b s,
        getitem_row_slice (goals self) b s,
        getitem_row_slice (actions self) b s,
        getitem_row_slice (rewards self) b s,
        getitem_row_slice (dones self) b s,
        getitem_row_slice (successes self) b s with
  | Ok r, Ok g, Ok a, Ok w, Ok d, Ok u => Ok (mkSample r g a w d u)
  | Raise e, _, _, _, _, _ => Raise e
  | _, Raise e, _, _, _, _ => Raise e
  | _, _, Raise e, _, _, _ => Raise e
  | _, _, _, Raise e, _, _ => Raise e
  | _, _, _, _, Raise e, _ => Raise e
  | _, _, _, _, _, Raise e => Raise e
  end.

(** A list of possibly raising items, evaluated left to right. *)
Fixpoint collect {A} (l : list (result A)) : result (list A) :=
  match l with
  | [] => Ok []
  | Ok a :: l' =>
      match collect l' with
      | Ok r => Ok (a :: r)
      | Raise e => Raise e
      end
  | Raise e :: _ => Raise e
  end.

(** The samples of environment [b], one per slice. *)
Definition env_samples (self : RolloutStorage) (b : nat) : result (list sample) :=
  match getitem_row (dones self) b with
  | Raise e => Raise e
  | Ok done_row =>
      collect (map (sample_of self b) (env_slices (max_steps self) done_row))
  end.

(** The loop over [range(self.num_envs)], accumulating [samples]. *)
Definition all_samples (self : RolloutStorage) : result (list sample) :=
  match collect (map (env_samples self) (seq 0 (num_envs self))) with
  | Ok per_env => Ok (concat per_env)
  | Raise e => Raise e
  end.

(** [zip( *samples )]: the six parallel sequences, aligned by sample; an
    empty [samples] gives an iterator that yields nothing. *)
Definition zip_star (samples : list sample)
    : list (list E) * list (list E) * list (list Z) * list (list F)
      * list (list bool) * list (list bool) :=
  (map s_rgbs samples, map s_goals samples, map s_actions samples,
   map s_rewards samples, map s_dones samples, map s_successes samples).

Definition generate_samples (self : RolloutStorage) :=
  match all_samples self with
  | Ok samples => Ok (zip_star samples)
  | Raise e => Raise e
  end.

(** *** [to_cpu]

    The tuple handed to [map] holds buffers of different element types. *)
Inductive buffer : Type :=
| BufE (t : tensor E)
| BufZ (t : tensor Z)
| BufB (t : tensor bool)
| BufF (t : tensor F).

(** [lambda t: t.cpu()] *)
Definition buffer_cpu (x : buffer) : buffer :=
  match x with
  | BufE t => BufE (cpu t)
  | BufZ t => BufZ (cpu t)
  | BufB t => BufB (cpu t)
  | BufF t => BufF (cpu t)
  end.

(** [map(f, xs)] builds a lazy iterator: [f] runs only when the iterator is
    consumed. *)
Definition lazy_map {A B} (f : A -> B) (xs : list A) : unit -> list B :=
  fun _ => map f xs.

(** The source drops the iterator at once: it is never consumed, and had it
    been, [t.cpu()] returns a new tensor that is bound to nothing. *)
Definition to_cpu : M RolloutStorage unit :=
  self ← gets (fun s => s);
  let _ := lazy_map buffer_cpu
             [BufE (rgbs self); BufE (goals self); BufB (dones self);
              BufF (rewards self); BufZ (actions self)] in
  mret tt.

(** The shapes the constructor gives the buffers; no method changes them. *)
Definition wf_storage (s : RolloutStorage) : Prop :=
  has_shape (rgbs s) (num_envs s) (max_steps s + 1)
  /\ has_shape (goals s) (num_envs s) (max_steps s + 1)
  /\ has_shape (actions s) (num_envs s) (max_steps s + 1)
  /\ has_shape (dones s) (num_envs s) (max_steps s + 1)
  /\ has_shape (successes s) (num_envs s) (max_steps s)
  /\ has_shape (rewards s) (num_envs s) (max_steps s + 1).

End Storage.

End Rollout.

(** ** [BCTrainer] ([lmnav/bc_train.py]) *)

Module BC.

(** The entries of [config.train] the modelled code reads.  Sizes and counts
    are natural numbers; [max_grad_norm] is only tested for None and passed
    on. *)
Record train_config : Type := mkTrainConfig {
  batch_size : nat;
  minibatch_size : nat;
  num_grad_accums : nat;
  max_trajectory_length : nat;
  max_grad_norm : option Z;
  ckpt_freq : nat
}.

(** *** [validate_config] and [initialize_train] *)

Definition validate_config (cfg : train_config) : result unit :=
  let batch_size := batch_size cfg in
  let minibatch_size := minibatch_size cfg in
  num_minibatches ← floordiv batch_size minibatch_size;
  let num_grad_accums := num_grad_accums cfg in
  r ← modulo batch_size minibatch_size;
  assert_ (r =? 0)%nat;;
  r ← modulo num_minibatches num_grad_accums;
  assert_ (r =? 0)%nat.

(** [initialize_train] calls [self.validate_config()] before anything else;
    what follows (the distributed controller, the student, the optimizer,
    the dataset, the optional resume) belongs to collaborators outside these
    files and is the computation [rest] over the trainer [S]. *)
Definition initialize_train {S} (cfg : train_config) (rest : M S unit) : M S unit :=
  lift (validate_config cfg);; rest.

(** *** [train_bc_step]: padding and masks (lines 249-253) *)

(** [torch.ones(n)] and [torch.zeros(n)]: a negative size raises. *)
Definition full (x : Z) (n : Z) : result (list Z) :=
  if n <? 0 then Raise RuntimeError else Ok (replicate (Z.to_nat n) x).

(** [.bool()]: non-zero is True. *)
Definition to_bool (l : list Z) : list bool := map (fun x => negb (x =? 0)) l.

(** The frames of one episode, shape [[t, c, h, w]]: [t] frames of
    [frame_size = c * h * w] numbers each. *)
Record frames : Type := mkFrames {
  frame_size : nat;
  frame_list : list (list Z)
}.

(** [t.shape[0]] *)
Definition shape0 (t : frames) : Z := Z.of_nat (length (frame_list t)).

(** [F.pad(t, (0,) * 7 + (n,), 'constant', 0)] on a 4-d tensor: the first
    three pairs leave [w], [h], [c] alone, the last pair adds nothing before
    dimension 0 and [n] zero frames after it; a negative [n] removes frames
    from the end, and raises when it would remove more than there are. *)
Definition pad_frames (t : frames) (n : Z) : result frames :=
  if 0 <=? n
  then Ok (mkFrames (frame_size t)
             (frame_list t ++ replicate (Z.to_nat n) (replicate (frame_size t) 0)))
  else if shape0 t + n <? 0 then Raise RuntimeError
  else Ok (mkFrames (frame_size t) (take (Z.to_nat (shape0 t + n)) (frame_list t))).

(** [F.pad(t, (0, n), 'constant', 0)] on a 1-d tensor. *)
Definition pad_1d (t : list Z) (n : Z) : result (list Z) :=
  if 0 <=? n then Ok (t ++ replicate (Z.to_nat n) 0)
  else if Z.of_nat (length t) + n <? 0 then Raise RuntimeError
  else Ok (take (Z.to_nat (Z.of_nat (length t) + n)) t).

(** [torch.stack(l)]: the list must not be empty and its tensors must have
    one shape, given here by [shape]. *)
Definition stack {A Sh} `{EqDecision Sh} (shape : A -> Sh) (l : list A)
    : result (list A) :=
  match l with
  | [] => Raise RuntimeError
  | a :: l' =>
      if bool_decide (Forall (fun b => shape b = shape a) l') then Ok l
      else Raise RuntimeError
  end.

(** [[f(t) for t in l]], [f] possibly raising. *)
Fixpoint comprehension {A B} (f : A -> result B) (l : list A) : result (list B) :=
  match l with
  | [] => Ok []
  | a :: l' => b ← f a; bs ← comprehension f l'; Ok (b :: bs)
  end.

Definition frames_shape (t : frames) : nat * nat :=
  (length (frame_list t), frame_size t).

(** Lines 249-253 for one minibatch: the mask, the padded frames, the goals,
    the padded actions. *)
Definition pad_inputs (T : nat) (rgbs_t goals_t : list frames) (actions_t : list (list Z))
    : result (list (list bool) * list frames * list frames * list (list Z)) :=
  mask_rows ← comprehension (fun t =>
                 ones ← full 1 (shape0 t);
                 zeros ← full 0 (Z.of_nat T - shape0 t);
                 Ok (ones ++ zeros)) rgbs_t;
  mask_t ← stack length mask_rows;
  let mask_t := map to_bool mask_t in
  padded ← comprehension (fun t => pad_frames t (Z.of_nat T - shape0 t)) rgbs_t;
  rgbs_t ← stack frames_shape padded;
  goals_t ← stack frames_shape goals_t;
  padded ← comprehension (fun t => pad_1d t (Z.of_nat T - Z.of_nat (length t))) actions_t;
  actions_t ← stack length padded;
  Ok (mask_t, rgbs_t, goals_t, actions_t).

(** *** [train_bc_step]: minibatches and gradient accumulation (lines 238-274) *)

(** What the loop does to the policy and the optimizer, in order: a forward
    and backward pass over minibatch [mb], with the cross-worker gradient
    synchronisation on or suppressed ([no_sync]); gradient clipping; the
    optimizer step; the zeroing of gradients. *)
Inductive event : Type :=
| Backward (synchronized : bool) (mb : nat)
| ClipGrad
| OptimStep
| ZeroGrad.

Definition emit (e : event) : M (list event) unit :=
  modify (fun trace => trace ++ [e]).

(** [torch.randperm(n).view(rows, cols)]: the sizes must multiply to [n]. *)
Definition view_check (n rows cols : nat) : result unit :=
  if decide (rows * cols = n)%nat then Ok tt else Raise RuntimeError.

(** [batch_idxs[i]] for a non-negative [i]: the row must exist. *)
Definition row_check (rows i : nat) : result unit :=
  if decide (i < rows)%nat then Ok tt else Raise IndexError.

(** The loops of [train_bc_step] over a batch of [n_sub] sub-sequences (what
    [construct_subsequences] returned).  The construction of a minibatch
    ([pad_inputs] above) and the policy's forward pass are taken to return;
    each pass leaves one [Backward] event. *)
Definition train_bc_step (cfg : train_config) (n_sub : nat) : M (list event) unit :=
  let batch_size := batch_size cfg in
  let minibatch_size := minibatch_size cfg in
  num_minibatches ← lift (floordiv batch_size minibatch_size);
  let num_grad_accums := num_grad_accums cfg in
  lift (view_check n_sub num_minibatches minibatch_size);;
  chunks ← lift (range_step 0 num_minibatches num_grad_accums);
  for_each chunks (fun mb =>
    for_each (seq 0 num_grad_accums) (fun g =>
      lift (row_check num_minibatches (mb + g));;
      if decide (g < num_grad_accums - 1)%nat
      then emit (Backward false (mb + g))
      else emit (Backward true (mb + g)));;
    match max_grad_norm cfg with
    | Some _ => emit ClipGrad
    | None => mret tt
    end;;
    emit OptimStep;;
    emit ZeroGrad).

(** *** Checkpoints *)

(** [state_dict()] and [load_state_dict(sd)], the interface the optimizer,
    the learning-rate scheduler and the dataset sampler share.  They are
    collaborators outside these files; loading mutates the object and may
    raise. *)
Class Stateful (X SD : Type) : Type := {
  state_dict : X -> SD;
  load_state_dict : SD -> M X unit
}.

Section Checkpoint.

(** [W] is a weight tensor, of which only the shape matters to loading. *)
Context {W : Type} (shape : W -> list nat).
Context {Optim OptimSD Sched SchedSD Sampler SamplerSD : Type}.
Context `{!Stateful Optim OptimSD, !Stateful Sched SchedSD,
          !Stateful Sampler SamplerSD}.

Record parameter : Type := mkParameter {
  p_data : W;
  requires_grad : bool
}.

(** A [torch.nn.Module]: its parameters and its buffers, by name. *)
Record module : Type := mkModule {
  named_parameters : gmap string parameter;
  named_buffers : gmap string W
}.

(** [module.state_dict()]: parameters and buffers alike. *)
Definition module_state_dict (m : module) : gmap string W :=
  (p_data <$> named_parameters m) ∪ named_buffers m.

(** The value a tensor holds after [load_state_dict]: the loaded one when
    the key is there and the shapes agree, its own otherwise. *)
Definition loaded (sd : gmap string W) (k : string) (own : W) : W :=
  match sd !! k with
  | Some w => if decide (shape w = shape own) then w else own
  | None => own
  end.

(** The tensor under [k] and the one loaded for it, if any, have one shape. *)
Definition shape_fits (sd : gmap string W) (k : string) (own : W) : bool :=
  match sd !! k with
  | Some w => bool_decide (shape w = shape own)
  | None => true
  end.

(** [module.load_state_dict(sd, strict)]: every tensor whose key is in [sd]
    with a fitting shape is overwritten; then a shape that did not fit
    raises, and so does, when [strict], a key missing from [sd] or a key of
    [sd] the module does not have. *)
Definition module_load_state_dict (sd : gmap string W) (strict : bool)
    : M module unit :=
  fun m =>
    let own := module_state_dict m in
    let m' := mkModule
                (map_imap (fun k p => Some (mkParameter (loaded sd k (p_data p))
                                              (requires_grad p)))
                   (named_parameters m))
                (map_imap (fun k w => Some (loaded sd k w)) (named_buffers m)) in
    let shapes_fit :=
      bool_decide (map_Forall (fun k w => shape_fits sd k w = true) own) in
    let same_keys := bool_decide (dom sd =@{gset string} dom own) in
    if shapes_fit && (negb strict || same_keys) then (Ok tt, m')
    else (Raise RuntimeError, m').

(** What [torch.save] writes. *)
Record save_obj : Type := mkSaveObj {
  so_model : gmap string W;
  so_optimizer : OptimSD;
  so_lr_scheduler : SchedSD;
  so_sampler : SamplerSD;
  so_config : train_config;
  so_stats : gmap string nat
}.

(** The trainer, and beside it the checkpoint files of its [ckpts] folder:
    file [ckpt.n.pth] is kept under [n]. *)
Record trainer : Type := mkTrainer {
  config : train_config;
  agent : module;
  optim : Optim;
  lr_scheduler : Sched;
  sampler : Sampler;
  cumstats : gmap string nat;
  step : nat;
  epoch : nat;
  files : gmap nat save_obj
}.

Definition set_agent (x : module) (s : trainer) : trainer :=
  mkTrainer (config s) x (optim s) (lr_scheduler s) (sampler s) (cumstats s)
    (step s) (epoch s) (files s).
Definition set_optim (x : Optim) (s : trainer) : trainer :=
  mkTrainer (config s) (agent s) x (lr_scheduler s) (sampler s) (cumstats s)
    (step s) (epoch s) (files s).
Definition set_lr_scheduler (x : Sched) (s : trainer) : trainer :=
  mkTrainer (config s) (agent s) (optim s) x (sampler s) (cumstats s)
    (step s) (epoch s) (files s).
Definition set_sampler (x : Sampler) (s : trainer) : trainer :=
  mkTrainer (config s) (agent s) (optim s) (lr_scheduler s) x (cumstats s)
    (step s) (epoch s) (files s).
Definition set_cumstats (x : gmap string nat) (s : trainer) : trainer :=
  mkTrainer (config s) (agent s) (optim s) (lr_scheduler s) (sampler s) x
    (step s) (epoch s) (files s).
Definition set_step (x : nat) (s : trainer) : trainer :=
  mkTrainer (config s) (agent s) (optim s) (lr_scheduler s) (sampler s) (cumstats s)
    x (epoch s) (files s).
Definition set_epoch (x : nat) (s : trainer) : trainer :=
  mkTrainer (config s) (agent s) (optim s) (lr_scheduler s) (sampler s) (cumstats s)
    (step s) x (files s).
Definition set_files (x : gmap nat save_obj) (s : trainer) : trainer :=
  mkTrainer (config s) (agent s) (optim s) (lr_scheduler s) (sampler s) (cumstats s)
    (step s) (epoch s) x.

(** [d[k]] on a dict. *)
Definition getitem (d : gmap string nat) (k : string) : result nat :=
  match d !! k with
  | Some v => Ok v
  | None => Raise KeyError
  end.

(** [torch.load(ckpt_path)] *)
Definition torch_load (ckpt_path : nat) : M trainer save_obj :=
  fs ← gets files;
  match fs !! ckpt_path with
  | Some obj => mret obj
  | None => raise FileNotFoundError
  end.

Definition load_checkpoint (ckpt_path : nat) : M trainer unit :=
  ckpt_state_dict ← torch_load ckpt_path;
  zoom agent set_agent (module_load_state_dict (so_model ckpt_state_dict) false);;
  zoom optim set_optim (load_state_dict (so_optimizer ckpt_state_dict));;
  zoom lr_scheduler set_lr_scheduler (load_state_dict (so_lr_scheduler ckpt_state_dict));;
  zoom sampler set_sampler (load_state_dict (so_sampler ckpt_state_dict));;
  modify (set_cumstats (so_stats ckpt_state_dict));;
  stats ← gets cumstats;
  v ← lift (getitem stats "step");
  modify (set_step v);;
  stats ← gets cumstats;
  v ← lift (getitem stats "epoch");
  modify (set_epoch v).

(** The artifact registration with the writer that ends the source function
    is the writer's and is left out. *)
Definition save_checkpoint : M trainer unit :=
  self ← gets (fun s => s);
  let param_grad_dict := requires_grad <$> named_parameters (agent self) in
  let state_dict_ := module_state_dict (agent self) in
  let state_dict_ :=
    filter (fun kv => ~ (param_grad_dict !! kv.1 = Some false)) state_dict_ in
  let save_obj := mkSaveObj state_dict_
                    (state_dict (optim self))
                    (state_dict (lr_scheduler self))
                    (state_dict (sampler self))
                    (config self)
                    (cumstats self) in
  ckpt_num ← lift (floordiv (step self) (ckpt_freq (config self)));
  modify (fun s => set_files (<[ckpt_num := save_obj]> (files s)) s).

(** The part of [update_stats] that maintains [cumstats]; [frames] is the
    number of frames the step consumed over all workers. *)
Definition update_cumstats (frames : nat) : M trainer unit :=
  s ← gets (fun s => s);
  modify (set_cumstats (<["step" := step s]> (cumstats s)));;
  s ← gets (fun s => s);
  modify (set_cumstats (<["epoch" := epoch s]> (cumstats s)));;
  s ← gets (fun s => s);
  total ← lift (getitem (cumstats s) "metrics/total_frames");
  modify (set_cumstats (<["metrics/total_frames" := (total + frames)%nat]> (cumstats s))).

End Checkpoint.

End BC.

(** ** Collection loops over the storage *)

Module RolloutUse.

Import Rollout.

Section Calls.

Context {E F : Type}.

(** The arguments of one call of [insert]. *)
Record call : Type := mkCall {
  c_rgbs : list E;
  c_goals : list E;
  c_dones : option (list bool);
  c_actions : option (list Z);
  c_rewards : option (list F);
  c_successes : option (list bool)
}.

(** [storage.insert(...)] with the arguments of [c]. *)
Definition insert_call (c : call) : M (@RolloutStorage E F) unit :=
  insert (c_rgbs c) (c_goals c) (c_dones c) (c_actions c) (c_rewards c)
    (c_successes c).


End Calls.

End RolloutUse.

(** *** [train_bc_step] from its first line to its [return] (lines 224-281) *)

Module StepReturn.

Import BC.

(** Line 277, [stats['learner/loss'] /= num_minibatches]: the quotient is a
    float, of which the model keeps nothing but whether the division
    raises. *)
Definition average_loss (num_minibatches : nat) : result unit :=
  if decide (num_minibatches = 0%nat) then Raise ZeroDivisionError else Ok tt.

(** The whole function.  [pass i] is what lines 246-254 and the forward
    computation of the policy do on minibatch row [i]: they build the padded
    minibatch and the loss, and may raise; the backward pass that follows
    leaves its event.  After the loops the loss is averaged; the remaining
    stats are read from the scheduler and the episodes. *)
Definition train_bc_step_return (pass : nat -> result unit) (cfg : train_config)
    (n_sub : nat) : M (list event) unit :=
  let batch_size := batch_size cfg in
  let minibatch_size := minibatch_size cfg in
  num_minibatches ← lift (floordiv batch_size minibatch_size);
  let num_grad_accums := num_grad_accums cfg in
  lift (view_check n_sub num_minibatches minibatch_size);;
  chunks ← lift (range_step 0 num_minibatches num_grad_accums);
  for_each chunks (fun mb =>
    for_each (seq 0 num_grad_accums) (fun g =>
      lift (row_check num_minibatches (mb + g));;
      lift (pass (mb + g)%nat);;
      if decide (g < num_grad_accums - 1)%nat
      then emit (Backward false (mb + g))
      else emit (Backward true (mb + g)));;
    match max_grad_norm cfg with
    | Some _ => emit ClipGrad
    | None => mret tt
    end;;
    emit OptimStep;;
    emit ZeroGrad);;
  lift (average_loss num_minibatches).

End StepReturn.

(** *** [train]: the loop over epochs and batches (lines 333-349) *)

Module Train.

Import BC.

Section Loop.

Context {W : Type}.
Context {Optim OptimSD Sched SchedSD Sampler SamplerSD : Type}.
Context `{!Stateful Optim OptimSD, !Stateful Sched SchedSD,
          !Stateful Sampler SamplerSD}.

Abbreviation trainer := (@trainer W Optim OptimSD Sched SchedSD Sampler SamplerSD).

(** What an iteration works on before it comes to the stats: the policy, the
    optimizer, the scheduler, and the sampler the data loader draws from. *)
Definition learner : Type := @module W * Optim * Sched * Sampler.

Definition get_learner (s : trainer) : learner :=
  (agent s, optim s, lr_scheduler s, sampler s).

Definition set_learner (l : learner) (s : trainer) : trainer :=
  set_sampler l.2 (set_lr_scheduler l.1.2 (set_optim l.1.1.2 (set_agent l.1.1.1 s))).

(** [learn batch] is the iteration up to [update_stats]: the loader has
    handed out [batch], [train_bc_step(batch)] has run and the scheduler has
    stepped.  [frames_of batch] is the number of frames of the step over all
    workers, which [update_stats] adds to the total. *)
Context {Batch : Type} (learn : Batch -> M learner unit) (frames_of : Batch -> nat).

(** Lines 342-345: on rank 0, a checkpoint when [step % ckpt_freq == 0];
    [rank0] is what [rank0_only()] answers on this worker. *)
Definition save_if_due (rank0 : bool) : M trainer unit :=
  if rank0
  then self ← gets (fun s => s);
       r ← lift (modulo (step self) (ckpt_freq (config self)));
       if (r =? 0)%nat then save_checkpoint else mret tt
  else mret tt.

(** One turn of [for batch in self.data_loader]. *)
Definition train_iteration (rank0 : bool) (batch : Batch) : M trainer unit :=
  zoom get_learner set_learner (learn batch);;
  update_cumstats (frames_of batch);;
  save_if_due rank0;;
  modify (fun s => set_step (step s + 1)%nat s).

(** One turn of the [while] loop: the batches of one pass over the loader,
    then [self.epoch += 1]. *)
Definition train_epoch (rank0 : bool) (batches : list Batch) : M trainer unit :=
  for_each batches (train_iteration rank0);;
  modify (fun s => set_epoch (epoch s + 1)%nat s).

(** [while self.step < steps]: [loader] lists what the successive passes
    over the data loader hand out.  The answer is True when the loop has
    ended and False when it would go on but [loader] has no pass left. *)
Fixpoint train_loop (rank0 : bool) (steps : nat) (loader : list (list Batch))
    : M trainer bool :=
  match loader with
  | [] => s ← gets step; mret (negb (s <? steps)%nat)
  | batches :: loader' =>
      s ← gets step;
      if (s <? steps)%nat
      then train_epoch rank0 batches;; train_loop rank0 steps loader'
      else mret true
  end.

End Loop.

End Train.

(** *** [eval_checkpoint]: the weights it loads (lines 427-433) *)

Module Eval.

Import BC.

(** [k[n:]] on a string. *)
Fixpoint string_drop (n : nat) (k : string) : string :=
  match n, k with
  | O, _ => k
  | S n', String _ k' => string_drop n' k'
  | S _, EmptyString => EmptyString
  end.

Section Weights.

Context {W : Type} (shape : W -> list nat).

(** [{ k[len('module.'):]: v for k, v in items }]: the items are taken in
    the order of the dict, a later one replacing an earlier one that is cut
    to the same key. *)
Definition strip_keys (items : list (string * W)) : gmap string W :=
  fold_left (fun d kv => <[string_drop (String.length "module.") kv.1 := kv.2]> d)
    items ∅.

(** [for param in self.agent.parameters(): param.requires_grad = False] *)
Definition freeze (m : @module W) : @module W :=
  mkModule ((fun p => mkParameter (p_data p) false) <$> named_parameters m)
    (named_buffers m).

(** Lines 428-433, [items] being [ckpt_state_dict['model'].items()]. *)
Definition eval_load (items : list (string * W)) : M (@module W) unit :=
  let ckpt_state_dict := strip_keys items in
  module_load_state_dict shape ckpt_state_dict false;;
  modify freeze.

End Weights.

End Eval.

(** *** [eval_checkpoint]: the episode counters (lines 436-487) *)

Module EvalLoop.

Import BC.

(** [try: c except: pass] with a bare [except]: whatever [c] raises is
    dropped, what it had done before stays done. *)
Definition try_except {S} (c : M S unit) : M S unit :=
  fun s => match c s with
           | (Ok _, s') => (Ok tt, s')
           | (Raise _, s') => (Ok tt, s')
           end.

(** [enumerate(l)] *)
Definition enumerate {A} (l : list A) : list (nat * A) := zip (seq 0 (length l)) l.

(** [l[i]] for a non-negative [i]. *)
Definition list_item {A} (l : list A) (i : nat) : result A :=
  match l !! i with
  | Some a => Ok a
  | None => Raise IndexError
  end.

(** [l[-1]] *)
Definition list_last {A} (l : list A) : result A :=
  match last l with
  | Some a => Ok a
  | None => Raise IndexError
  end.

Section Loop.

(** Of the [info] of a step only [distance_to_goal] is read; [Dist] is its
    type and [close d] the test [d < self.config.eval.dtg_threshold].
    [save_episode_video] is the video writer, which may raise. *)
Context {Dist : Type} (close : Dist -> bool).
Context (save_videos : bool) (save_episode_video : list Dist -> nat -> result unit).

(** The local variables of [eval_checkpoint] that the counting touches, and
    the content of [stats.pkl]. *)
Record eval_state : Type := mkEvalState {
  stats : gmap string nat;
  episodes : list (list Dist);
  stats_pkl : option (gmap string nat)
}.

Definition set_stats (x : gmap string nat) (s : eval_state) : eval_state :=
  mkEvalState x (episodes s) (stats_pkl s).
Definition set_episodes (x : list (list Dist)) (s : eval_state) : eval_state :=
  mkEvalState (stats s) x (stats_pkl s).
Definition set_stats_pkl (x : option (gmap string nat)) (s : eval_state) : eval_state :=
  mkEvalState (stats s) (episodes s) x.

Definition total_key (ckpt_name : string) : string :=
  String.append ckpt_name "/total_episodes".
Definition successful_key (ckpt_name : string) : string :=
  String.append ckpt_name "/successful_episodes".

(** Lines 436-445: the episodes, and the stats, which are the previous ones
    when there are any. *)
Definition eval_init (ckpt_name : string) (num_envs : nat)
    (prev_stats : option (gmap string nat)) : eval_state :=
  let stats := <[successful_key ckpt_name := 0%nat]>
                 (<[total_key ckpt_name := 0%nat]> ∅) in
  let stats := match prev_stats with Some p => p | None => stats end in
  mkEvalState stats (replicate num_envs []) prev_stats.

(** [stats[k] += 1] *)
Definition increment (k : string) : M eval_state unit :=
  st ← gets stats;
  v ← lift (getitem st k);
  modify (fun s => set_stats (<[k := (v + 1)%nat]> (stats s)) s).

(** Lines 466-482: the body of the loop over [enumerate(dones)]. *)
Definition count_done (ckpt_name : string) (i : nat) (done : bool)
    : M eval_state unit :=
  if negb done then mret tt
  else
    increment (total_key ckpt_name);;
    eps ← gets episodes;
    ep ← lift (list_item eps i);
    info ← lift (list_last ep);
    (if close info then increment (successful_key ckpt_name) else mret tt);;
    (if save_videos
     then try_except (st ← gets stats;
                      n ← lift (getitem st (total_key ckpt_name));
                      lift (save_episode_video ep n))
     else mret tt);;
    modify (fun s => set_episodes (<[i := []]> (episodes s)) s).

(** Lines 453-487: one turn of the [while] loop, [outputs] being what
    [self.envs.step(actions)] returned, one pair of done flag and distance
    per environment. *)
Definition eval_env_step (ckpt_name : string) (outputs : list (bool * Dist))
    : M eval_state unit :=
  (if decide (outputs = []) then raise ValueError else mret tt);;
  let dones := map fst outputs in
  let infos := map snd outputs in
  eps ← gets episodes;
  for_each (seq 0 (length eps)) (fun i =>
    info ← lift (list_item infos i);
    modify (fun s => set_episodes (alter (fun ep => ep ++ [info]) i (episodes s)) s));;
  for_each (enumerate dones) (fun x => count_done ckpt_name x.1 x.2);;
  modify (fun s => set_stats_pkl (Some (stats s)) s).

(** [while stats[total] < N_episodes]: [steps] lists what the environments
    return turn after turn.  The answer is True when the loop has ended and
    False when it would go on but [steps] has no turn left. *)
Fixpoint eval_loop (ckpt_name : string) (N_episodes : nat)
    (steps : list (list (bool * Dist))) : M eval_state bool :=
  match steps with
  | [] =>
      st ← gets stats;
      n ← lift (getitem st (total_key ckpt_name));
      mret (negb (n <? N_episodes)%nat)
  | outputs :: steps' =>
      st ← gets stats;
      n ← lift (getitem st (total_key ckpt_name));
      if (n <? N_episodes)%nat
      then eval_env_step ckpt_name outputs;; eval_loop ckpt_name N_episodes steps'
      else mret true
  end.

End Loop.

End EvalLoop.

(** *** [initialize_train]: the data files handed to the workers (lines 138-144) *)

Module DataFiles.

(** [sep.join(l)] for a separator of one character. *)
Fixpoint join (sep : Ascii.ascii) (l : list string) : string :=
  match l with
  | [] => EmptyString
  | x :: l' =>
      match l' with
      | [] => x
      | _ :: _ => String.append x (String sep (join sep l'))
      end
  end.

(** [s.split(sep)] for a separator of one character: the pieces between
    the separators, of which there is always at least one. *)
Fixpoint split (sep : Ascii.ascii) (s : string) : list string :=
  match s with
  | EmptyString => [EmptyString]
  | String c s' =>
      if Ascii.eqb c sep then EmptyString :: split sep s'
      else match split sep s' with
           | piece :: pieces => String c piece :: pieces
           | [] => [String c EmptyString]
           end
  end.

(** What rank 0 puts in the store under ["data_files"]. *)
Definition published (data_files : list string) : string := join ";"%char data_files.

(** What another rank makes of it: the store hands back the value that was
    set, which is decoded and split. *)
Definition received (data_files : list string) : list string :=
  split ";"%char (published data_files).

End DataFiles.

(** ** Concrete storages, configurations and trainers *)

Module Examples.

Import Rollout BC.

(** The state a computation leaves. *)
Definition after {S A} (c : M S A) (s : S) : S := snd (c s).

(** A new storage whose cells are integers. *)
Definition fresh (num_envs max_steps : nat) (dev : device) : @RolloutStorage Z Z :=
  init 0 0 num_envs max_steps dev.

(** One environment, a horizon of three steps, filled by the usual protocol:
    a first [insert] of the initial observation alone, then one [insert] per
    step; the episode ends at step 1. *)
Definition filled : @RolloutStorage Z Z :=
  Eval vm_compute in
    after (insert [13] [99] (Some [false]) (Some [1]) (Some [0]) None)
      (after (insert [12] [99] (Some [true]) (Some [3]) (Some [5]) None)
         (after (insert [11] [99] (Some [false]) (Some [2]) (Some [0]) None)
            (after (insert [10] [99] None None None None)
               (fresh 1 3 Cpu)))).

(** Two environments after the first [insert]: the cursor is at 0. *)
Definition started : @RolloutStorage Z Z :=
  Eval vm_compute in
    after (insert [10; 20] [99; 98] None None None None) (fresh 2 3 Cpu).

(** One environment, a horizon of two steps, whose first [insert] already
    carries a done flag. *)
Definition flagged_first : @RolloutStorage Z Z :=
  Eval vm_compute in
    after (insert [12] [99] (Some [false]) None None None)
      (after (insert [11] [99] (Some [false]) None None None)
         (after (insert [10] [99] (Some [true]) None None None)
            (fresh 1 2 Cpu))).

(** The scenario of the specification: three environments and a horizon of
    five steps; environment 0 is done at step 4 only, environment 1 at steps
    1 and 4, environment 2 never. *)
Definition scenario : @RolloutStorage Z Z :=
  Eval vm_compute in
    after (insert [15; 25; 35] [9; 9; 9] (Some [true; true; false]) None None None)
      (after (insert [14; 24; 34] [9; 9; 9] (Some [false; false; false]) None None None)
         (after (insert [13; 23; 33] [9; 9; 9] (Some [false; false; false]) None None None)
            (after (insert [12; 22; 32] [9; 9; 9] (Some [false; true; false]) None None None)
               (after (insert [11; 21; 31] [9; 9; 9] (Some [false; false; false]) None None None)
                  (after (insert [10; 20; 30] [9; 9; 9] None None None None)
                     (fresh 3 5 Cpu)))))).

(** The configuration of the specification's example. *)
Definition cfg_16_4_2 : train_config :=
  mkTrainConfig 16 4 2 8 (Some 1) 10.

(** An optimizer that refuses a state with other parameter groups. *)
Record adam : Type := mkAdam {
  group_sizes : list nat;
  moments : list Z
}.

#[global] Instance adam_stateful : Stateful adam adam := {|
  state_dict x := x;
  load_state_dict sd := fun x =>
    if decide (group_sizes sd = group_sizes x) then (Ok tt, sd)
    else (Raise ValueError, x)
|}.

(** A scheduler or a sampler whose state is one counter. *)
#[global] Instance counter_stateful : Stateful nat nat := {|
  state_dict x := x;
  load_state_dict sd := modify (fun _ => sd)
|}.

(** Weights are vectors; the shape is the length. *)
Definition vec_shape (w : list Z) : list nat := [length w].

Definition policy : @module (list Z) :=
  mkModule
    (<["encoder.weight" := mkParameter [5; 5] false]>
       (<["head.weight" := mkParameter [7; 8; 9] true]> ∅))
    (<["norm.running_mean" := [1]]> ∅).

(** A trainer at step 40 of epoch 2, its stats current. *)
Definition saving : @trainer (list Z) adam adam nat nat nat nat :=
  mkTrainer cfg_16_4_2 policy (mkAdam [1%nat] [3; 4]) 40%nat 17%nat
    (<["step" := 40%nat]> (<["epoch" := 2%nat]>
       (<["metrics/total_frames" := 640%nat]> ∅)))
    40 2 ∅.

(** The policy as a restarted process builds it: initial weights, one
    parameter the checkpointed policy did not have, and no buffer where the
    checkpointed policy had one. *)
Definition policy0 : @module (list Z) :=
  mkModule
    (<["encoder.weight" := mkParameter [5; 5] false]>
       (<["head.weight" := mkParameter [0; 0; 0] true]>
          (<["probe.weight" := mkParameter [2] true]> ∅)))
    ∅.

(** The restarted process: the trainer as [initialize_train] sets it up,
    with the checkpoint file [ckpt.4.pth] that [obj] stands for. *)
Definition resumed (obj : @save_obj (list Z) adam nat nat)
    : @trainer (list Z) adam adam nat nat nat nat :=
  mkTrainer cfg_16_4_2 policy0 (mkAdam [1%nat] [0; 0]) 0%nat 0%nat
    (<["step" := 0%nat]> (<["epoch" := 0%nat]>
       (<["metrics/total_frames" := 0%nat]> ∅)))
    0 0 (<[4%nat := obj]> ∅).

End Examples.

(** ** Concrete collection loops, training runs and evaluations *)

Module Runs.

Import Rollout BC RolloutUse Train Eval EvalLoop Examples.

(** The four calls that lead from a new storage to [filled]. *)
Definition filling : list (@call Z Z) :=
  [mkCall [10] [99] None None None None;
   mkCall [11] [99] (Some [false]) (Some [2]) (Some [0]) None;
   mkCall [12] [99] (Some [true]) (Some [3]) (Some [5]) None;
   mkCall [13] [99] (Some [false]) (Some [1]) (Some [0]) None].


(** Twelve samples in minibatches of four, accumulated two by two: three
    minibatches, which two does not divide. *)
Definition cfg_12_4_2 : train_config :=
  mkTrainConfig 12 4 2 8 None 10.

(** A batch is known by its number of frames; learning it moves the moments
    of the optimizer, steps the scheduler and advances the sampler. *)
Definition learn_frames (batch : nat)
    : M (@learner (list Z) adam nat nat) unit :=
  modify (fun l => (l.1.1.1,
                    mkAdam (group_sizes l.1.1.2) (map (Z.add 1) (moments l.1.1.2)),
                    S l.1.2, S l.2)).

(** [saving] with checkpoints switched to a frequency of zero. *)
Definition never_saving : @trainer (list Z) adam adam nat nat nat nat :=
  mkTrainer (mkTrainConfig 16 4 2 8 (Some 1) 0) policy (mkAdam [1%nat] [3; 4])
    40%nat 17%nat
    (<["step" := 40%nat]> (<["epoch" := 2%nat]>
       (<["metrics/total_frames" := 640%nat]> ∅)))
    40 2 ∅.

(** The items of a checkpoint of the wrapped policy: the trainable head and
    the buffer. *)
Definition wrapped_items : list (string * list Z) :=
  [("module.head.weight", [7; 8; 9]); ("module.norm.running_mean", [4])].

(** The items of a checkpoint saved from a policy that was not wrapped. *)
Definition bare_items : list (string * list Z) :=
  [("head.weight", [7; 8; 9]); ("norm.running_mean", [4])].

(** A batch size below the minibatch size: no minibatch at all. *)
Definition cfg_2_4_1 : train_config :=
  mkTrainConfig 2 4 1 8 None 10.

(** An episode ends close to the goal when its distance is below 2. *)
Definition near (d : Z) : bool := d <? 2.

(** A video writer that always fails. *)
Definition no_video (ep : list Z) (n : nat) : result unit := Raise RuntimeError.

(** The first two turns of an evaluation with two environments. *)
Definition two_turns : list (list (bool * Z)) :=
  [[(true, 1); (false, 5)]; [(true, 3); (true, 0)]].

End Runs.

(** * Statements

    The predicates the theorems below are stated with. *)

Module RolloutSpec.

Import Rollout.

(** What [t[:, i] = v] leaves behind: column [i] holds [v], every other cell
    is as before, and neither shape nor device moved. *)
Definition col_written {A} (t t' : tensor A) (i : Z) (v : list A) : Prop :=
  exists j, index (t_steps t) i = Some j
    /\ t_device t' = t_device t
    /\ t_steps t' = t_steps t
    /\ length (t_rows t') = length (t_rows t)
    /\ forall b k, cell t' b k = if decide (k = j) then v !! b else cell t b k.

Section Spec.

Context {E F : Type}.

Abbreviation storage := (@RolloutStorage E F).

(** An optional argument: written when given, the buffer untouched when not. *)
Definition opt_written {A} (t t' : tensor A) (i : Z) (o : option (list A)) : Prop :=
  match o with
  | Some v => col_written t t' i v
  | None => t' = t
  end.

(** The effect of one [insert] that returned, from [s] to [s']. *)
Definition insert_effect (s s' : storage) (next_rgbs next_goals : list E)
    (dones_ : option (list bool)) (actions_ : option (list Z))
    (rewards_ : option (list F)) (successes_ : option (list bool)) : Prop :=
  let i := current_step_idx s in
  col_written (rgbs s) (rgbs s') (i + 1) next_rgbs
  /\ col_written (goals s) (goals s') (i + 1) next_goals
  /\ opt_written (dones s) (dones s') i dones_
  /\ opt_written (actions s) (actions s') i actions_
  /\ opt_written (rewards s) (rewards s') i rewards_
  /\ opt_written (successes s) (successes s') i successes_
  /\ current_step_idx s' = i + 1
  /\ num_envs s' = num_envs s
  /\ max_steps s' = max_steps s.

(** The arguments of a call carry one value per environment. *)
Definition fits {A} (n : nat) (o : option (list A)) : Prop :=
  match o with
  | Some v => length v = n
  | None => True
  end.

(** A setter that touches one buffer keeps the shapes, the sizes and the
    cursor. *)
Definition keeps_frame {A} (buffer : storage -> tensor A)
    (set_buffer : tensor A -> storage -> storage) (n m : nat) (s : storage) : Prop :=
  forall t', has_shape t' n m ->
    wf_storage (set_buffer t' s)
    /\ current_step_idx (set_buffer t' s) = current_step_idx s
    /\ num_envs (set_buffer t' s) = num_envs s
    /\ max_steps (set_buffer t' s) = max_steps s.

(** What [reset] leaves behind. *)
Definition reset_effect (s s' : storage) : Prop :=
  current_step_idx s' = 0
  /\ (forall b, cell (rgbs s') b 0 = cell (rgbs s) b (max_steps s))
  /\ (forall b, cell (goals s') b 0 = cell (goals s) b (max_steps s))
  /\ (forall b k, k <> 0%nat -> cell (rgbs s') b k = cell (rgbs s) b k)
  /\ (forall b k, k <> 0%nat -> cell (goals s') b k = cell (goals s) b k)
  /\ actions s' = actions s
  /\ dones s' = dones s
  /\ rewards s' = rewards s
  /\ successes s' = successes s
  /\ num_envs s' = num_envs s
  /\ max_steps s' = max_steps s.

(** A buffer after the first [insert]: when a value was given it sits in
    slot [last] and every slot before it still holds the initial [z]; when
    none was given the buffer is all [z]. *)
Definition wrapped {A} (t : tensor A) (o : option (list A)) (n last : nat) (z : A)
    : Prop :=
  match o with
  | Some v => (forall b, cell t b last = v !! b)
              /\ (forall b k, (b < n)%nat -> (k < last)%nat -> cell t b k = Some z)
  | None => forall b k, (b < n)%nat -> (k <= last)%nat -> cell t b k = Some z
  end.

End Spec.

End RolloutSpec.

Module SegmentSpec.

Import Rollout.

(** [p < d1 < d2 < ...] *)
Fixpoint increasing_from (p : Z) (l : list Z) : Prop :=
  match l with
  | [] => True
  | d :: l' => p < d /\ increasing_from d l'
  end.

(** The half-open segments [(p, d1], (d1, d2], ...] over the boundaries [p]
    and [l], each written as the bounds of the slice that cuts it out. *)
Fixpoint segments (p : Z) (l : list Z) : list (Z * Z) :=
  match l with
  | [] => []
  | d :: l' => (p + 1, d + 1) :: segments d l'
  end.

(** The step indices a slice selects. *)
Definition indices (sl : Z * Z) : list Z := seqZ sl.1 (sl.2 - sl.1).

(** The done indices within [[0, max_steps - 1]], as the specification
    words them. *)
Definition done_indices (ms : nat) (row : list bool) : list Z :=
  where_ (take ms row).

(** The closing boundary: [max_steps - 1], unless the last done index is
    already there. *)
Definition closing (ms : nat) (ds : list Z) : list Z :=
  match last ds with
  | Some d => if decide (d = Z.of_nat ms - 1) then [] else [Z.of_nat ms - 1]
  | None => [Z.of_nat ms - 1]
  end.

(** What the specification says of the segments of one environment whose
    row of [dones] is [row]. *)
Definition segments_claim (ms : nat) (row : list bool) : Prop :=
  let ds := done_indices ms row in
  let k := length ds in
  env_ends ms row = [-1] ++ ds ++ closing ms ds
  /\ env_slices ms row = segments (-1) (ds ++ closing ms ds)
  /\ (Z.of_nat ms - 1 ∉ ds -> length (env_slices ms row) = (k + 1)%nat)
  /\ (Z.of_nat ms - 1 ∈ ds -> length (env_slices ms row) = k)
  /\ (k = 0%nat -> env_slices ms row = [(0, Z.of_nat ms)])
  /\ Forall (fun sl => sl.1 < sl.2) (env_slices ms row)
  /\ concat (map indices (env_slices ms row)) = seqZ 0 (Z.of_nat ms).

End SegmentSpec.

Module ConfigSpec.

Import BC.

(** [a] is divisible by [b]: the remainder [a % b] exists and is zero. *)
Definition divisible (a b : nat) : Prop := b <> 0%nat /\ Nat.modulo a b = 0%nat.

(** The two conditions [validate_config] asserts. *)
Definition valid_config (cfg : train_config) : Prop :=
  divisible (batch_size cfg) (minibatch_size cfg)
  /\ divisible (Nat.div (batch_size cfg) (minibatch_size cfg)) (num_grad_accums cfg).

End ConfigSpec.

Module PaddingSpec.

Import BC.

(** The mask of an episode of [L] steps in a window of [T]. *)
Definition mask_of (T L : nat) : list bool :=
  replicate L true ++ replicate (T - L) false.

(** The frames of an episode followed by zero frames up to [T]. *)
Definition padded_frames (T : nat) (t : frames) : frames :=
  mkFrames (frame_size t)
    (frame_list t
     ++ replicate (T - length (frame_list t)) (replicate (frame_size t) 0)).

Definition padded_actions (T : nat) (a : list Z) : list Z :=
  a ++ replicate (T - length a) 0.

End PaddingSpec.

Module StepSpec.

Import BC.

Definition is_backward (e : event) : bool :=
  match e with Backward _ _ => true | _ => false end.

Definition is_synchronized (e : event) : bool :=
  match e with Backward true _ => true | _ => false end.

Definition is_unsynchronized (e : event) : bool :=
  match e with Backward false _ => true | _ => false end.

Definition is_optim_step (e : event) : bool :=
  match e with OptimStep => true | _ => false end.

Definition is_zero_grad (e : event) : bool :=
  match e with ZeroGrad => true | _ => false end.

(** How many events of a kind a trace holds. *)
Definition count (kind : event -> bool) (trace : list event) : nat :=
  length (List.filter kind trace).

(** The events of the chunk that starts at minibatch [mb]: [num_grad_accums]
    passes, all but the last unsynchronised, then the clipping if
    configured, one optimizer step, and the zeroing. *)
Definition chunk_trace (cfg : train_config) (mb : nat) : list event :=
  map (fun g => Backward (negb (g <? num_grad_accums cfg - 1)%nat) (mb + g)%nat)
      (seq 0 (num_grad_accums cfg))
  ++ match max_grad_norm cfg with Some _ => [ClipGrad] | None => [] end
  ++ [OptimStep; ZeroGrad].

(** The reading of C2 the code does not bear out: one optimizer step for the
    whole batch. *)
Definition one_step_per_batch (cfg : train_config) : Prop :=
  forall trace, train_bc_step cfg (batch_size cfg) [] = (Ok tt, trace) ->
    count is_optim_step trace = 1%nat.

End StepSpec.

Module CheckpointSpec.

Import BC.

Section Spec.

Context {W : Type} (shape : W -> list nat).
Context {Optim OptimSD Sched SchedSD Sampler SamplerSD : Type}.
Context `{!Stateful Optim OptimSD, !Stateful Sched SchedSD,
          !Stateful Sampler SamplerSD}.

Abbreviation trainer := (@trainer W Optim OptimSD Sched SchedSD Sampler SamplerSD).
Abbreviation save_obj := (@save_obj W OptimSD SchedSD SamplerSD).
Abbreviation module := (@module W).

(** The weights [save_checkpoint] keeps of a module. *)
Definition saved_weights (m : module) : gmap string W :=
  filter (fun kv => ~ ((requires_grad <$> named_parameters m) !! kv.1 = Some false))
    (module_state_dict m).

(** What [save_checkpoint] writes for a trainer. *)
Definition snapshot (s : trainer) : save_obj :=
  mkSaveObj (saved_weights (agent s)) (state_dict (optim s))
    (state_dict (lr_scheduler s)) (state_dict (sampler s)) (config s) (cumstats s).

(** The shapes of the loaded weights fit those of the module under the keys
    they share. *)
Definition shapes_fit (sd : gmap string W) (m : module) : Prop :=
  map_Forall (fun k w => shape_fits shape sd k w = true) (module_state_dict m).

(** A collaborator takes a saved state: loading returns and leaves the
    object in that state. *)
Definition accepts {X SD} `{!Stateful X SD} (x : X) (sd : SD) : Prop :=
  exists x', load_state_dict sd x = (Ok tt, x') /\ state_dict x' = sd.

(** What a load that returned has restored, [s] being the trainer that
    saved and [r], [r'] the loading trainer before and after. *)
Definition restored (s r r' : trainer) (st ep : nat) : Prop :=
  step r' = st
  /\ epoch r' = ep
  /\ cumstats r' = cumstats s
  /\ state_dict (sampler r') = state_dict (sampler s)
  /\ state_dict (optim r') = state_dict (optim s)
  /\ state_dict (lr_scheduler r') = state_dict (lr_scheduler s)
  /\ (forall k p q, named_parameters (agent s) !! k = Some p ->
         named_parameters (agent r) !! k = Some q ->
         named_parameters (agent r') !! k
         = Some (if requires_grad p
                 then mkParameter (p_data p) (requires_grad q)
                 else q))
  /\ (forall k, named_parameters (agent s) !! k = None ->
         named_buffers (agent s) !! k = None ->
         named_parameters (agent r') !! k = named_parameters (agent r) !! k).

End Spec.

End CheckpointSpec.

Module ProtocolSpec.

Import Rollout RolloutUse RolloutSpec.

Section Spec.

Context {E F : Type} (zeroE : E) (zeroF : F).

Abbreviation storage := (@RolloutStorage E F).


(** The storages a collection loop can hold: a new one, and what [insert]
    and [reset] leave, whether they return or raise, as long as no [insert]
    passes [dones] while the cursor is still at -1. *)
Inductive reachable : storage -> Prop :=
| reach_init n ms dev : reachable (init zeroE zeroF n ms dev)
| reach_insert s c r s' :
    reachable s ->
    (current_step_idx s = -1 -> c_dones c = None) ->
    insert_call c s = (r, s') ->
    reachable s'
| reach_reset s r s' :
    reachable s -> reset s = (r, s') -> reachable s'.

(** What every reachable storage satisfies. *)
Definition protocol_invariant (s : storage) : Prop :=
  wf_storage s
  /\ -1 <= current_step_idx s <= Z.of_nat (max_steps s)
  /\ forall b, (b < num_envs s)%nat -> cell (dones s) b (max_steps s) = Some false.

(** The state between two statements of one [insert]: the shapes, the
    sizes, the cursor [c0] of the call, and the slot of [dones] past the
    horizon still False. *)
Definition between (n ms : nat) (c0 : Z) (s : storage) : Prop :=
  wf_storage s /\ num_envs s = n /\ max_steps s = ms
  /\ current_step_idx s = c0
  /\ forall b, (b < n)%nat -> cell (dones s) b ms = Some false.

End Spec.

End ProtocolSpec.

Module SampleSpec.

Import Rollout.

(** The cells of a row at the step indices [sl.1, ..., sl.2 - 1] of a
    segment. *)
Definition cells_of {A} (sl : Z * Z) (row : list A) : list A :=
  take (Z.to_nat (sl.2 - sl.1)) (drop (Z.to_nat sl.1) row).

Section Spec.

Context {E F : Type}.

(** The sample holds, for each of the six buffers, the cells of environment
    [b] at the step indices of the segment. *)
Definition sample_cut (s : @RolloutStorage E F) (b : nat) (sl : Z * Z)
    (smp : @sample E F) : Prop :=
  cells_of sl <$> t_rows (rgbs s) !! b = Some (s_rgbs smp)
  /\ cells_of sl <$> t_rows (goals s) !! b = Some (s_goals smp)
  /\ cells_of sl <$> t_rows (actions s) !! b = Some (s_actions smp)
  /\ cells_of sl <$> t_rows (rewards s) !! b = Some (s_rewards smp)
  /\ cells_of sl <$> t_rows (dones s) !! b = Some (s_dones smp)
  /\ cells_of sl <$> t_rows (successes s) !! b = Some (s_successes smp).

End Spec.

End SampleSpec.

Module PassSpec.

Import BC.

(** The minibatch rows the passes of a trace ran on, in order. *)
Definition passes (trace : list event) : list nat :=
  omap (fun e => match e with Backward _ mb => Some mb | _ => None end) trace.

(** The passes of a chunk cut short after [r] of them. *)
Definition partial_chunk (mb r : nat) : list event :=
  map (fun g => Backward false (mb + g)%nat) (seq 0 r).

(** The chunks [train_bc_step] completes: [q] of them, from minibatch 0. *)
Definition complete_chunks (cfg : train_config) (q : nat) : list event :=
  concat (map (fun i => StepSpec.chunk_trace cfg (i * num_grad_accums cfg)) (seq 0 q)).

End PassSpec.

Module TrainSpec.

Import BC Train.

(** Checkpoint number [k] is due within the [n] steps from [first]: step
    [k * ckpt_freq] is one of them. *)
Definition due (freq first n k : nat) : Prop :=
  (first <= k * freq < first + n)%nat.

(** The frames of a list of batches. *)
Definition frames_total {Batch} (frames_of : Batch -> nat) (batches : list Batch) : nat :=
  foldr (fun b acc => (frames_of b + acc)%nat) 0%nat batches.

Section Spec.

Context {W : Type}.
Context {Optim OptimSD Sched SchedSD Sampler SamplerSD : Type}.

Abbreviation trainer := (@trainer W Optim OptimSD Sched SchedSD Sampler SamplerSD).

(** The trainer after the learning and the stats of an iteration. *)
Definition learned (l' : learner) (frames total : nat) (s : trainer) : trainer :=
  set_cumstats (<["metrics/total_frames" := (total + frames)%nat]>
                  (<["epoch" := epoch s]> (<["step" := step s]> (cumstats s))))
    (set_learner l' s).

End Spec.

End TrainSpec.

Module EvalSpec.

Import BC Eval.

(** Every key of the items starts with [module.], as the keys of a policy
    wrapped for distributed training do. *)
Definition wrapped_keys {W} (items : list (string * W)) : Prop :=
  Forall (fun kv => exists k, kv.1 = String.append "module." k) items.

(** The value the items hold under a key. *)
Definition item {W} (items : list (string * W)) (k : string) : option W :=
  (list_to_map items : gmap string W) !! k.

End EvalSpec.

Module EvalLoopSpec.

Import EvalLoop.

(** The episodes that end in a turn, and those of them that end close to
    the goal. *)
Definition finished {Dist} (outputs : list (bool * Dist)) : nat :=
  length (List.filter fst outputs).

Definition succeeded {Dist} (close : Dist -> bool) (outputs : list (bool * Dist)) : nat :=
  length (List.filter (fun o => o.1 && close o.2) outputs).

End EvalLoopSpec.

Module DataFilesSpec.

(** The character occurs in the string. *)
Fixpoint occurs (c : Ascii.ascii) (s : string) : bool :=
  match s with
  | EmptyString => false
  | String c' s' => Ascii.eqb c' c || occurs c s'
  end.

End DataFilesSpec.

(** * Properties *)

(** ** Indices and tensors *)

Module TorchFacts.

Import RolloutSpec.

Lemma index_lt size i j : index size i = Some j -> (j < size)%nat.
Proof.
  unfold index. intros H.
  destruct (0 <=? i) eqn:H1; destruct (i <? Z.of_nat size) eqn:H2;
    destruct (- Z.of_nat size <=? i) eqn:H3; destruct (i <? 0) eqn:H4;
    simpl in H; try discriminate; inversion H; subst;
    rewrite ?Z.leb_le, ?Z.ltb_lt, ?Z.leb_gt, ?Z.ltb_ge in *; lia.
Qed.

Lemma index_front size i :
  0 <= i < Z.of_nat size -> index size i = Some (Z.to_nat i).
Proof.
  intros [H1 H2]. unfold index.
  apply Z.leb_le in H1. apply Z.ltb_lt in H2. by rewrite H1, H2.
Qed.

Lemma index_back size i :
  - Z.of_nat size <= i < 0 -> index size i = Some (Z.to_nat (i + Z.of_nat size)).
Proof.
  intros [H1 H2]. unfold index.
  assert ((0 <=? i) = false) as -> by (apply Z.leb_gt; lia).
  apply Z.leb_le in H1. apply Z.ltb_lt in H2. by rewrite H1, H2.
Qed.

Lemma index_past size i : Z.of_nat size <= i -> index size i = None.
Proof.
  intros H. unfold index.
  assert ((i <? Z.of_nat size) = false) as -> by (apply Z.ltb_ge; lia).
  assert ((i <? 0) = false) as -> by (apply Z.ltb_ge; lia).
  by rewrite !andb_false_r.
Qed.

Lemma cell_zip_insert {A} (rows : list (list A)) (v : list A) m j b k :
  Forall (fun r => length r = m) rows -> length v = length rows -> (j < m)%nat ->
  zip_with (fun r x => <[j := x]> r) rows v !! b ≫= (fun r => r !! k)
  = if decide (k = j) then v !! b else rows !! b ≫= (fun r => r !! k).
Proof.
  intros Hwf Hlen Hj. rewrite lookup_zip_with.
  destruct (rows !! b) as [r|] eqn:Hr; simpl.
  - assert (length r = m) as Hm by (eapply Forall_lookup_1 in Hwf; eauto).
    destruct (v !! b) as [x|] eqn:Hx; simpl.
    + case_decide; subst.
      * apply list_lookup_insert_eq. lia.
      * by apply list_lookup_insert_ne.
    + apply lookup_lt_Some in Hr. apply lookup_ge_None in Hx. lia.
  - case_decide; [|done]. apply lookup_ge_None in Hr.
    symmetry. apply lookup_ge_None. lia.
Qed.

Lemma setitem_col_inv {A} (t t' : tensor A) n m i v :
  has_shape t n m -> setitem_col t i v = Ok t' ->
  col_written t t' i v /\ has_shape t' n m /\ length v = n.
Proof.
  intros (Hn & Hm & Hwf) H. unfold setitem_col in H.
  destruct (index (t_steps t) i) as [j|] eqn:Hi; [|discriminate].
  case_decide as Hlen; [|discriminate]. inversion H; subst t'; clear H.
  assert (j < m)%nat as Hj by (subst m; eapply index_lt; eauto).
  split; [|split].
  - exists j. simpl. repeat split; auto.
    + rewrite length_zip_with. lia.
    + intros b k. unfold cell; simpl.
      apply (cell_zip_insert _ _ (t_steps t)); [exact Hwf | done | lia].
  - unfold has_shape, wf; simpl. repeat split; auto.
    + rewrite length_zip_with. lia.
    + apply Forall_lookup_2. intros b r Hr.
      apply lookup_zip_with_Some in Hr as (r0 & x & -> & Hr0 & _).
      rewrite length_insert. eapply Forall_lookup_1 in Hwf; eauto.
  - lia.
Qed.

Lemma setitem_col_ok {A} (t : tensor A) n m i v :
  has_shape t n m -> length v = n -> is_Some (index m i) ->
  exists t', setitem_col t i v = Ok t'.
Proof.
  intros (Hn & Hm & Hwf) Hv [j Hj]. unfold setitem_col.
  rewrite Hm, Hj. rewrite decide_True by lia. eauto.
Qed.

Lemma setitem_col_past {A} (t : tensor A) i v :
  Z.of_nat (t_steps t) <= i -> setitem_col t i v = Raise IndexError.
Proof. intros H. unfold setitem_col. by rewrite index_past. Qed.

Lemma getitem_col_ok {A} (t : tensor A) n m i j :
  has_shape t n m -> index m i = Some j ->
  exists v, getitem_col t i = Ok v /\ length v = n
            /\ forall b, v !! b = cell t b j.
Proof.
  intros (Hn & Hm & Hwf) Hj. unfold getitem_col. rewrite Hm, Hj.
  assert (j < m)%nat as Hlt by (eapply index_lt; eauto).
  destruct (mapM (fun r => r !! j) (t_rows t)) as [v|] eqn:Hv.
  - exists v. apply mapM_Some in Hv. split; [done|]. split.
    + apply Forall2_length in Hv. lia.
    + intros b. unfold cell.
      destruct (t_rows t !! b) as [r|] eqn:Hr; simpl.
      * destruct (Forall2_lookup_l _ _ _ _ _ Hv Hr) as (x & Hx & Hrx). congruence.
      * apply lookup_ge_None. apply Forall2_length in Hv.
        apply lookup_ge_None in Hr. lia.
  - apply mapM_None in Hv. apply Exists_exists in Hv as (r & Hin & Hnone).
    unfold wf in Hwf. rewrite Forall_forall in Hwf. specialize (Hwf r Hin).
    rewrite <- Hm in Hlt.
    destruct (lookup_lt_is_Some_2 r j) as [x Hx]; [lia|].
    congruence.
Qed.

Lemma zeros_shape {A} (z : A) n m dev : has_shape (zeros z n m dev) n m.
Proof.
  unfold has_shape, wf, zeros; simpl. split; [apply length_replicate|].
  split; [done|]. apply Forall_replicate. apply length_replicate.
Qed.

Lemma cell_zeros {A} (z : A) n m dev b k :
  (b < n)%nat -> (k < m)%nat -> cell (zeros z n m dev) b k = Some z.
Proof.
  intros Hb Hk. unfold cell, zeros; simpl.
  rewrite lookup_replicate_2 by done. simpl. by apply lookup_replicate_2.
Qed.

End TorchFacts.

(** ** Running computations *)

Module RunFacts.

Lemma bind_ok_inv {S A B} (c : M S A) (k : A -> M S B) s s' b :
  (c ≫= k) s = (Ok b, s') ->
  exists a s1, c s = (Ok a, s1) /\ k a s1 = (Ok b, s').
Proof.
  unfold mbind, M_bind, bind. destruct (c s) as [[a|e] s1]; intros H.
  - eauto.
  - discriminate.
Qed.

Lemma bind_ok {S A B} (c : M S A) (k : A -> M S B) s a s1 :
  c s = (Ok a, s1) -> (c ≫= k) s = k a s1.
Proof. unfold mbind, M_bind, bind. by intros ->. Qed.

Lemma bind_raise {S A B} (c : M S A) (k : A -> M S B) s e s1 :
  c s = (Raise e, s1) -> (c ≫= k) s = (Raise e, s1).
Proof. unfold mbind, M_bind, bind. by intros ->. Qed.

Lemma gets_bind {S A B} (f : S -> A) (k : A -> M S B) s :
  (gets f ≫= k) s = k (f s) s.
Proof. reflexivity. Qed.

End RunFacts.

(** ** [RolloutStorage]: [insert], [reset], [to_cpu] *)

Module RolloutFacts.

Import Rollout RolloutSpec TorchFacts RunFacts.

Section Facts.

Context {E F : Type}.

Abbreviation storage := (@RolloutStorage E F).

Lemma assign_col_run {A} (buffer : storage -> tensor A) set_buffer i v s :
  assign_col buffer set_buffer i v s =
  match setitem_col (buffer s) i v with
  | Ok t' => (Ok tt, set_buffer t' s)
  | Raise e => (Raise e, s)
  end.
Proof.
  unfold assign_col. rewrite gets_bind.
  unfold mbind, M_bind, bind, lift, modify.
  by destruct (setitem_col (buffer s) i v).
Qed.

Lemma when_assign_inv {A} (buffer : storage -> tensor A) set_buffer o s s' n m :
  has_shape (buffer s) n m ->
  when_given o (fun v => i ← gets current_step_idx; assign_col buffer set_buffer i v) s
    = (Ok tt, s') ->
  exists t', s' = match o with Some _ => set_buffer t' s | None => s end
    /\ opt_written (buffer s) t' (current_step_idx s) o
    /\ has_shape t' n m /\ fits n o.
Proof.
  intros Hs H. destruct o as [v|]; simpl in H.
  - rewrite gets_bind, assign_col_run in H.
    destruct (setitem_col (buffer s) (current_step_idx s) v) as [t'|e] eqn:Hset;
      [|discriminate].
    inversion H; subst. exists t'.
    destruct (setitem_col_inv _ _ _ _ _ _ Hs Hset) as (? & ? & ?). done.
  - inversion H; subst. exists (buffer s'). done.
Qed.

Lemma when_assign_ok {A} (buffer : storage -> tensor A) set_buffer o s n m :
  wf_storage s ->
  has_shape (buffer s) n m -> fits n o ->
  is_Some (index m (current_step_idx s)) ->
  keeps_frame buffer set_buffer n m s ->
  exists s', when_given o
    (fun v => i ← gets current_step_idx; assign_col buffer set_buffer i v) s
    = (Ok tt, s')
    /\ wf_storage s'
    /\ current_step_idx s' = current_step_idx s
    /\ num_envs s' = num_envs s
    /\ max_steps s' = max_steps s.
Proof.
  intros Hwf Hs Hfit Hi Hk. destruct o as [v|]; simpl.
  - rewrite gets_bind, assign_col_run.
    destruct (setitem_col_ok _ _ _ _ v Hs Hfit Hi) as [t' Ht']. rewrite Ht'.
    destruct (setitem_col_inv _ _ _ _ _ _ Hs Ht') as (_ & Hs' & _).
    exists (set_buffer t' s). split; [done|]. by apply Hk.
  - exists s. done.
Qed.

(** [insert] from a well-shaped storage: what a returning call has done, and
    when a call returns. *)
Lemma insert_run (s : storage)
    (next_rgbs next_goals : list E) (dones_ : option (list bool))
    (actions_ : option (list Z)) (rewards_ : option (list F))
    (successes_ : option (list bool)) :
  wf_storage s ->
  (forall s',
      insert next_rgbs next_goals dones_ actions_ rewards_ successes_ s = (Ok tt, s') ->
      insert_effect s s' next_rgbs next_goals dones_ actions_ rewards_ successes_
      /\ wf_storage s')
  /\ ((0 < max_steps s)%nat ->
      -1 <= current_step_idx s < Z.of_nat (max_steps s) ->
      length next_rgbs = num_envs s -> length next_goals = num_envs s ->
      fits (num_envs s) dones_ -> fits (num_envs s) actions_ ->
      fits (num_envs s) rewards_ -> fits (num_envs s) successes_ ->
      exists s',
        insert next_rgbs next_goals dones_ actions_ rewards_ successes_ s = (Ok tt, s')).
Proof.
  intros (Hr & Hg & Ha & Hd & Hs & Hw). split.
  - intros s' H. unfold insert in H.
    rewrite gets_bind in H.
    apply bind_ok_inv in H as ([] & s1 & H1 & H).
    rewrite assign_col_run in H1.
    destruct (setitem_col (rgbs s) _ next_rgbs) as [t1|] eqn:E1; [|discriminate].
    inversion H1; subst s1; clear H1.
    destruct (setitem_col_inv _ _ _ _ _ _ Hr E1) as (W1 & S1 & _).
    rewrite gets_bind in H.
    apply bind_ok_inv in H as ([] & s2 & H2 & H).
    rewrite assign_col_run in H2. simpl in H2.
    destruct (setitem_col (goals s) _ next_goals) as [t2|] eqn:E2; [|discriminate].
    inversion H2; subst s2; clear H2.
    destruct (setitem_col_inv _ _ _ _ _ _ Hg E2) as (W2 & S2 & _).
    apply bind_ok_inv in H as ([] & s3 & H3 & H).
    eapply when_assign_inv in H3 as (t3 & -> & W3 & S3 & _); [|exact Hd].
    apply bind_ok_inv in H as ([] & s4 & H4 & H).
    eapply (when_assign_inv successes) in H4 as (t4 & -> & W4 & S4 & _);
      [|destruct dones_; exact Hs].
    apply bind_ok_inv in H as ([] & s5 & H5 & H).
    eapply (when_assign_inv rewards) in H5 as (t5 & -> & W5 & S5 & _);
      [|destruct dones_, successes_; exact Hw].
    apply bind_ok_inv in H as ([] & s6 & H6 & H).
    eapply (when_assign_inv actions) in H6 as (t6 & -> & W6 & S6 & _);
      [|destruct dones_, successes_, rewards_; exact Ha].
    rewrite gets_bind in H. unfold modify in H. inversion H; subst s'; clear H.
    unfold insert_effect, wf_storage.
    destruct dones_, successes_, rewards_, actions_; simpl in *; subst;
      repeat split; try done; try (apply S1); try (apply S2); try (apply S3);
      try (apply S4); try (apply S5); try (apply S6);
      try (apply Hr); try (apply Hg); try (apply Ha); try (apply Hd);
      try (apply Hs); try (apply Hw).
  - intros Hpos Hi Hlr Hlg Hfd Hfa Hfw Hfs. unfold insert.
    assert (is_Some (index (max_steps s + 1) (current_step_idx s + 1))) as I1.
    { rewrite index_front by lia. eauto. }
    assert (is_Some (index (max_steps s + 1) (current_step_idx s))) as I2.
    { destruct (decide (current_step_idx s = -1)) as [->|].
      - rewrite index_back by lia. eauto.
      - rewrite index_front by lia. eauto. }
    assert (is_Some (index (max_steps s) (current_step_idx s))) as I3.
    { destruct (decide (current_step_idx s = -1)) as [->|].
      - rewrite index_back by lia. eauto.
      - rewrite index_front by lia. eauto. }
    rewrite gets_bind.
    destruct (setitem_col_ok _ _ _ _ next_rgbs Hr Hlr I1) as [t1 E1].
    destruct (setitem_col_inv _ _ _ _ _ _ Hr E1) as (_ & S1 & _).
    erewrite bind_ok; [|rewrite assign_col_run, E1; reflexivity].
    rewrite gets_bind.
    destruct (setitem_col_ok _ _ _ _ next_goals Hg Hlg I1) as [t2 E2].
    destruct (setitem_col_inv _ _ _ _ _ _ Hg E2) as (_ & S2 & _).
    erewrite bind_ok; [|rewrite assign_col_run; simpl; rewrite E2; reflexivity].
    set (s2 := set_goals t2 (set_rgbs t1 s)).
    assert (wf_storage s2) as Hwf2 by (unfold wf_storage; simpl; done).
    destruct (when_assign_ok dones set_dones dones_ s2 (num_envs s) (max_steps s + 1))
      as (s3 & R3 & Hwf3 & C3 & N3 & M3); try done.
    erewrite bind_ok; [|exact R3].
    destruct (when_assign_ok successes set_successes successes_ s3 (num_envs s) (max_steps s))
      as (s4 & R4 & Hwf4 & C4 & N4 & M4); try done.
    { destruct Hwf3 as (_ & _ & _ & _ & H & _). by rewrite N3, M3 in H. }
    { by rewrite C3. }
    { intros t' Ht'. destruct Hwf3 as (? & ? & ? & ? & ? & ?).
      unfold wf_storage; simpl. rewrite N3, M3 in *. done. }
    erewrite bind_ok; [|exact R4].
    destruct (when_assign_ok rewards set_rewards rewards_ s4 (num_envs s) (max_steps s + 1))
      as (s5 & R5 & Hwf5 & C5 & N5 & M5); try done.
    { destruct Hwf4 as (_ & _ & _ & _ & _ & H). by rewrite N4, M4, N3, M3 in H. }
    { by rewrite C4, C3. }
    { intros t' Ht'. destruct Hwf4 as (? & ? & ? & ? & ? & ?).
      unfold wf_storage; simpl. rewrite N4, M4, N3, M3 in *. done. }
    erewrite bind_ok; [|exact R5].
    destruct (when_assign_ok actions set_actions actions_ s5 (num_envs s) (max_steps s + 1))
      as (s6 & R6 & Hwf6 & C6 & N6 & M6); try done.
    { destruct Hwf5 as (_ & _ & H & _). by rewrite N5, M5, N4, M4, N3, M3 in H. }
    { by rewrite C5, C4, C3. }
    { intros t' Ht'. destruct Hwf5 as (? & ? & ? & ? & ? & ?).
      unfold wf_storage; simpl. rewrite N5, M5, N4, M4, N3, M3 in *. done. }
    erewrite bind_ok; [|exact R6].
    rewrite gets_bind. unfold modify. eauto.
Qed.

(** C4. A call of [insert] that returns has written [next_rgbs] and
    [next_goals] at index [current_step_idx + 1], each of [dones], [actions],
    [rewards], [successes] at index [current_step_idx] when it was given and
    left that buffer alone when it was not, changed no other cell, and moved
    the cursor up by one; and a call returns whenever the cursor is within
    the horizon and the arguments carry one value per environment. *)
Theorem insert_writes_current_and_next (s : storage)
    (next_rgbs next_goals : list E) (dones_ : option (list bool))
    (actions_ : option (list Z)) (rewards_ : option (list F))
    (successes_ : option (list bool)) :
  wf_storage s ->
  (forall s',
      insert next_rgbs next_goals dones_ actions_ rewards_ successes_ s = (Ok tt, s') ->
      insert_effect s s' next_rgbs next_goals dones_ actions_ rewards_ successes_
      /\ wf_storage s')
  /\ ((0 < max_steps s)%nat ->
      -1 <= current_step_idx s < Z.of_nat (max_steps s) ->
      length next_rgbs = num_envs s -> length next_goals = num_envs s ->
      fits (num_envs s) dones_ -> fits (num_envs s) actions_ ->
      fits (num_envs s) rewards_ -> fits (num_envs s) successes_ ->
      exists s',
        insert next_rgbs next_goals dones_ actions_ rewards_ successes_ s = (Ok tt, s')).
Proof. apply insert_run. Qed.

(** C6. With the cursor at [max_steps] the call raises IndexError on its
    first statement: the storage, cursor included, is left exactly as it
    was. *)
Theorem insert_past_capacity_raises (s : storage)
    (next_rgbs next_goals : list E) (dones_ : option (list bool))
    (actions_ : option (list Z)) (rewards_ : option (list F))
    (successes_ : option (list bool)) :
  wf_storage s ->
  current_step_idx s = Z.of_nat (max_steps s) ->
  insert next_rgbs next_goals dones_ actions_ rewards_ successes_ s
  = (Raise IndexError, s).
Proof.
  intros (Hr & _) Hi. unfold insert. rewrite gets_bind.
  apply bind_raise. rewrite assign_col_run.
  rewrite setitem_col_past; [done|].
  destruct Hr as (_ & -> & _). lia.
Qed.

Lemma copy_last_to_front {A} (buffer : storage -> tensor A) set_buffer s n m :
  has_shape (buffer s) n (m + 1) ->
  exists t', (forall B (k : M storage B),
                (v ← read_col buffer (-1); assign_col buffer set_buffer 0 v;; k) s
                = k (set_buffer t' s))
    /\ has_shape t' n (m + 1)
    /\ (forall b, cell t' b 0 = cell (buffer s) b m)
    /\ (forall b k, k <> 0%nat -> cell t' b k = cell (buffer s) b k).
Proof.
  intros Hs.
  assert (index (m + 1) (-1) = Some m) as Hback.
  { rewrite index_back by lia. f_equal. lia. }
  destruct (getitem_col_ok _ _ _ _ _ Hs Hback) as (v & Hv & Hlen & Hcells).
  assert (is_Some (index (m + 1) 0)) as Hfront by (rewrite index_front by lia; eauto).
  destruct (setitem_col_ok _ _ _ _ v Hs Hlen Hfront) as [t' Ht'].
  destruct (setitem_col_inv _ _ _ _ _ _ Hs Ht') as ((j & Hj & _ & _ & _ & Hw) & Hs' & _).
  destruct Hs as (_ & Hm & _). rewrite Hm, index_front in Hj by lia.
  inversion Hj; subst j; clear Hj.
  exists t'. split; [|split; [done|split]].
  - intros B k. erewrite bind_ok.
    + erewrite bind_ok; [reflexivity|]. by rewrite assign_col_run, Ht'.
    + unfold read_col. rewrite gets_bind. unfold lift. by rewrite Hv.
  - intros b. rewrite Hw. change (Z.to_nat 0) with 0%nat.
    rewrite decide_True by done. apply Hcells.
  - intros b k Hk. rewrite Hw. change (Z.to_nat 0) with 0%nat.
    by rewrite decide_False.
Qed.

(** C7. [reset] always returns; afterwards index 0 of [rgbs] and [goals]
    holds what index [max_steps] held, the cursor is 0, and every other cell
    of [rgbs] and [goals] and the whole of [actions], [dones], [rewards] and
    [successes] are as before. *)
Theorem reset_carries_last_observation (s : storage) :
  wf_storage s ->
  exists s', reset s = (Ok tt, s') /\ reset_effect s s' /\ wf_storage s'.
Proof.
  intros (Hr & Hg & Ha & Hd & Hs & Hw). unfold reset.
  destruct (copy_last_to_front rgbs set_rgbs s _ _ Hr) as (t1 & R1 & S1 & F1 & O1).
  destruct (copy_last_to_front goals set_goals (set_rgbs t1 s) _ _ Hg)
    as (t2 & R2 & S2 & F2 & O2).
  exists (set_current_step_idx 0 (set_goals t2 (set_rgbs t1 s))). split.
  - rewrite R1, R2. reflexivity.
  - unfold reset_effect, wf_storage; simpl. done.
Qed.

(** [to_cpu] returns the storage it was given. *)
Lemma to_cpu_run (s : storage) : to_cpu s = (Ok tt, s).
Proof. reflexivity. Qed.

(** C8 (the part the code keeps). [to_cpu] changes nothing: every buffer has
    the content, shape and device it had, and the cursor is where it was.  In
    particular a storage built on the accelerator is still there after the
    call. *)
Theorem to_cpu_changes_nothing (n ms : nat) (zeroE : E) (zeroF : F) :
  (forall s : storage, to_cpu s = (Ok tt, s))
  /\ t_device (rgbs (snd (to_cpu (init zeroE zeroF n ms Cuda)))) = Cuda
  /\ t_device (successes (snd (to_cpu (init zeroE zeroF n ms Cuda)))) = Cuda.
Proof. split; [apply to_cpu_run|]. split; reflexivity. Qed.

Section Fresh.

Context (zeroE : E) (zeroF : F).

Lemma init_wf n ms dev : wf_storage (init zeroE zeroF n ms dev).
Proof. unfold wf_storage, init; simpl. repeat split; apply zeros_shape. Qed.

Lemma wrapped_zeros {A} (z : A) n m last dev t' o :
  (m = last + 1)%nat ->
  opt_written (zeros z n m dev) t' (-1) o ->
  wrapped t' o n last z.
Proof.
  intros -> H. destruct o as [v|]; simpl in *.
  - destruct H as (j & Hj & _ & _ & _ & Hw). simpl in Hj.
    rewrite index_back in Hj by lia. inversion Hj; subst j; clear Hj.
    replace (Z.to_nat (-1 + Z.of_nat (last + 1))) with last in Hw by lia.
    split.
    + intros b. rewrite Hw. by rewrite decide_True.
    + intros b k Hb Hk. rewrite Hw. rewrite decide_False by lia.
      apply cell_zeros; lia.
  - subst t'. intros b k Hb Hk. apply cell_zeros; lia.
Qed.

(** C10. A new storage has its cursor at -1.  The first [insert] puts the
    observations at index 0, and whatever [dones], [actions], [rewards] or
    [successes] it was given into the last slot of their buffers (index
    [max_steps], and [max_steps - 1] for [successes]): the call returns, and
    the slots before the last, index 0 of [dones], [actions] and [rewards]
    among them, still hold their initial zero. *)
Theorem first_insert_wraps_to_last_slot (n ms : nat) (dev : device)
    (next_rgbs next_goals : list E) (dones_ : option (list bool))
    (actions_ : option (list Z)) (rewards_ : option (list F))
    (successes_ : option (list bool)) :
  (0 < ms)%nat ->
  length next_rgbs = n -> length next_goals = n ->
  fits n dones_ -> fits n actions_ -> fits n rewards_ -> fits n successes_ ->
  current_step_idx (init zeroE zeroF n ms dev) = -1
  /\ exists s',
      insert next_rgbs next_goals dones_ actions_ rewards_ successes_
        (init zeroE zeroF n ms dev) = (Ok tt, s')
      /\ current_step_idx s' = 0
      /\ (forall b, cell (rgbs s') b 0 = next_rgbs !! b)
      /\ (forall b, cell (goals s') b 0 = next_goals !! b)
      /\ wrapped (dones s') dones_ n ms false
      /\ wrapped (actions s') actions_ n ms 0
      /\ wrapped (rewards s') rewards_ n ms zeroF
      /\ wrapped (successes s') successes_ n (ms - 1) false.
Proof.
  intros Hms Hr Hg Hd Ha Hw Hs. split; [reflexivity|].
  destruct (insert_run (init zeroE zeroF n ms dev) next_rgbs next_goals
              dones_ actions_ rewards_ successes_ (init_wf n ms dev)) as [Heff Hrun].
  destruct Hrun as [s' Hs']; simpl; try done; try lia.
  exists s'. split; [exact Hs'|].
  destruct (Heff s' Hs') as ((Wr & Wg & Wd & Wa & Ww & Ws & Hc & _) & _).
  simpl in *.
  split; [lia|].
  assert (forall (t t' : tensor E) v, t_steps t = (ms + 1)%nat ->
            col_written t t' (-1 + 1) v -> forall b, cell t' b 0 = v !! b) as Hfront.
  { intros t t' v Ht (j & Hj & _ & _ & _ & Hcell) b.
    rewrite Ht, index_front in Hj by lia. inversion Hj; subst j.
    rewrite Hcell. by rewrite decide_True. }
  split; [by eapply Hfront; eauto|]. split; [by eapply Hfront; eauto|].
  repeat split.
  - eapply wrapped_zeros; eauto.
  - eapply wrapped_zeros; eauto.
  - eapply wrapped_zeros; eauto.
  - eapply wrapped_zeros; [|exact Ws]. lia.
Qed.

End Fresh.

End Facts.

End RolloutFacts.

(** ** [generate_samples]: the segments of one environment *)

Module SegmentFacts.

Import Rollout SegmentSpec TorchFacts.

Lemma slices_of_step p d l :
  slices_of (p :: d :: l) = (p + 1, d + 1) :: slices_of (d :: l).
Proof.
  unfold slices_of. simpl length.
  replace (S (S (length l)) - 1)%nat with (S (length l)) by lia.
  replace (S (length l) - 1)%nat with (length l) by lia.
  rewrite <- cons_seq. rewrite <- fmap_S_seq. simpl map. f_equal.
  rewrite <- list_fmap_compose. apply list_fmap_ext. intros i x _. reflexivity.
Qed.

Lemma slices_of_segments p l : slices_of (p :: l) = segments p l.
Proof.
  revert p. induction l as [|d l IH]; intros p; [reflexivity|].
  rewrite slices_of_step, IH. reflexivity.
Qed.

Lemma segments_length p l : length (segments p l) = length l.
Proof. revert p. induction l; intros; simpl; auto. Qed.

Lemma segments_nonempty p l :
  increasing_from p l -> Forall (fun sl => sl.1 < sl.2) (segments p l).
Proof.
  revert p. induction l as [|d l IH]; intros p H; simpl; [constructor|].
  destruct H as [H1 H2]. constructor; [simpl; lia|auto].
Qed.

Lemma last_cons_cons (p d : Z) l : List.last (p :: d :: l) 0 = List.last (d :: l) 0.
Proof. reflexivity. Qed.

Lemma increasing_last_ge p l : increasing_from p l -> p <= List.last (p :: l) 0.
Proof.
  revert p. induction l as [|d l IH]; intros p H; [simpl; lia|].
  destruct H as [H1 H2]. rewrite last_cons_cons. specialize (IH d H2). lia.
Qed.

Lemma increasing_last_max p l x :
  increasing_from p l -> x ∈ l -> x <= List.last (p :: l) 0.
Proof.
  revert p. induction l as [|d l IH]; intros p H Hin; [by apply elem_of_nil in Hin|].
  destruct H as [H1 H2]. rewrite last_cons_cons.
  apply elem_of_cons in Hin as [->|Hin].
  - by apply increasing_last_ge.
  - by apply IH.
Qed.

Lemma last_elem_of (p : Z) l : l <> [] -> List.last (p :: l) 0 ∈ l.
Proof.
  revert p. induction l as [|d l IH]; intros p H; [done|].
  rewrite last_cons_cons. destruct l as [|e l].
  - simpl. apply list_elem_of_here.
  - apply list_elem_of_further. by apply IH.
Qed.

Lemma last_snoc (p : Z) l x : List.last (p :: l ++ [x]) 0 = x.
Proof.
  change (p :: l ++ [x]) with ((p :: l) ++ [x]). apply last_last.
Qed.

Lemma increasing_snoc p l x :
  increasing_from p l -> List.last (p :: l) 0 < x -> increasing_from p (l ++ [x]).
Proof.
  revert p. induction l as [|d l IH]; intros p H Hx; simpl in *; [lia|].
  destruct H as [H1 H2]. split; [done|]. apply IH; [done|].
  destruct l; simpl in *; lia.
Qed.

(** Consecutive segments tile the range between the first and the last
    boundary: listed in order, their indices are that range. *)
Lemma segments_cover p l :
  increasing_from p l ->
  concat (map indices (segments p l)) = seqZ (p + 1) (List.last (p :: l) 0 - p).
Proof.
  revert p. induction l as [|d l IH]; intros p H.
  - simpl. by rewrite Z.sub_diag.
  - destruct H as [H1 H2]. simpl segments. simpl map. simpl concat.
    rewrite IH by done. rewrite last_cons_cons.
    pose proof (increasing_last_ge d l H2).
    unfold indices. cbn [fst snd].
    replace (List.last (d :: l) 0 - p)
      with ((d + 1 - (p + 1)) + (List.last (d :: l) 0 - d)) by lia.
    rewrite seqZ_app by lia. do 2 f_equal. lia.
Qed.

Lemma where_from_app i l1 l2 :
  where_from i (l1 ++ l2) = where_from i l1 ++ where_from (i + Z.of_nat (length l1)) l2.
Proof.
  revert i. induction l1 as [|d l1 IH]; intros i; simpl.
  - by rewrite Z.add_0_r.
  - rewrite IH. replace (i + 1 + Z.of_nat (length l1)) with (i + Z.pos (Pos.of_succ_nat (length l1))) by lia.
    by destruct d.
Qed.

Lemma where_from_increasing p i row : p < i -> increasing_from p (where_from i row).
Proof.
  revert p i. induction row as [|d row IH]; intros p i H; simpl; [done|].
  destruct d; simpl.
  - split; [done|]. apply IH. lia.
  - apply IH. lia.
Qed.

Lemma where_from_elem i row d :
  d ∈ where_from i row <-> i <= d /\ row !! Z.to_nat (d - i) = Some true.
Proof.
  revert i. induction row as [|x row IH]; intros i; simpl.
  - split; [intros H; by apply elem_of_nil in H|]. intros [_ H]. done.
  - assert (d ∈ where_from (i + 1) row <->
            i < d /\ (x :: row) !! Z.to_nat (d - i) = Some true) as Hrest.
    { rewrite IH. split.
      - intros [H1 H2]. split; [lia|].
        replace (Z.to_nat (d - i)) with (S (Z.to_nat (d - (i + 1)))) by lia. done.
      - intros [H1 H2]. split; [lia|].
        replace (Z.to_nat (d - i)) with (S (Z.to_nat (d - (i + 1)))) in H2 by lia. done. }
    destruct x.
    + rewrite elem_of_cons, Hrest. split.
      * intros [->|[H1 H2]]; [|split; [lia|done]].
        split; [lia|]. by rewrite Z.sub_diag.
      * intros [H1 H2]. destruct (decide (d = i)); [by left|right]. split; [lia|done].
    + rewrite Hrest. split.
      * intros [H1 H2]. split; [lia|done].
      * intros [H1 H2]. split; [|done].
        destruct (decide (d = i)) as [->|]; [|lia].
        rewrite Z.sub_diag in H2. simpl in H2. discriminate.
Qed.

Lemma done_indices_spec ms row :
  increasing_from (-1) (done_indices ms row)
  /\ forall d, d ∈ done_indices ms row <->
       0 <= d <= Z.of_nat ms - 1 /\ row !! Z.to_nat d = Some true.
Proof.
  unfold done_indices, where_. split; [by apply where_from_increasing|].
  intros d. rewrite where_from_elem, Z.sub_0_r. split.
  - intros [H1 H2]. pose proof (lookup_lt_Some _ _ _ H2) as Hlt.
    rewrite length_take in Hlt. rewrite lookup_take_lt in H2 by lia.
    split; [lia|done].
  - intros [H1 H2]. split; [lia|]. rewrite lookup_take_lt by lia. done.
Qed.

Lemma last_cons_default (p : Z) l : last (p :: l) = Some (List.last (p :: l) 0).
Proof.
  revert p. induction l as [|d l IH]; intros p; [reflexivity|].
  rewrite last_cons_cons. rewrite <- IH. reflexivity.
Qed.

Lemma list_last_skip (p : Z) l : l <> [] -> List.last (p :: l) 0 = List.last l 0.
Proof. destruct l; [done|reflexivity]. Qed.

(** Where the source compares [ends[-1]] with [max_steps - 1], the closing
    boundary of the specification is empty or not accordingly. *)
Lemma closing_last ms ds :
  (0 < ms)%nat ->
  closing ms ds = if decide (List.last (-1 :: ds) 0 ≠ Z.of_nat ms - 1)
                  then [Z.of_nat ms - 1] else [].
Proof.
  intros Hms. unfold closing. destruct ds as [|d l].
  - simpl. rewrite decide_True by lia. reflexivity.
  - rewrite last_cons_cons, last_cons_default.
    destruct (decide (List.last (d :: l) 0 = Z.of_nat ms - 1)).
    + by rewrite decide_False by (intros ?; done).
    + by rewrite decide_True.
Qed.

Lemma last_is_bound ms ds :
  increasing_from (-1) ds ->
  (forall d, d ∈ ds -> d <= Z.of_nat ms - 1) ->
  (Z.of_nat ms - 1 ∈ ds <-> ds <> [] /\ List.last (-1 :: ds) 0 = Z.of_nat ms - 1).
Proof.
  intros Hinc Hub. split.
  - intros Hin. split; [intros ->; by apply elem_of_nil in Hin|].
    pose proof (increasing_last_max _ _ _ Hinc Hin).
    assert (ds <> []) as Hne by (intros ->; by apply elem_of_nil in Hin).
    pose proof (Hub _ (last_elem_of (-1) ds Hne)). lia.
  - intros [Hne <-]. by apply last_elem_of.
Qed.

(** The segments of a row whose extra slot [max_steps] holds False. *)
Lemma env_segments ms row :
  (0 < ms)%nat -> length row = S ms -> row !! ms = Some false ->
  segments_claim ms row.
Proof.
  intros Hms Hlen Hlast.
  destruct (done_indices_spec ms row) as [Hinc Hmem].
  set (ds := done_indices ms row) in *.
  assert (forall d, d ∈ ds -> d <= Z.of_nat ms - 1) as Hub.
  { intros d Hd. apply Hmem in Hd. lia. }
  assert (where_ row = ds) as Hwhere.
  { rewrite <- (take_drop ms row) at 1. unfold where_. rewrite where_from_app.
    assert (drop ms row = [false]) as ->.
    { apply list_eq. intros [|i].
      - rewrite lookup_drop, Nat.add_0_r. done.
      - rewrite lookup_drop. simpl. apply lookup_ge_None. lia. }
    simpl. by rewrite app_nil_r. }
  assert (env_ends ms row = [-1] ++ ds ++ closing ms ds) as Hends.
  { unfold env_ends. rewrite Hwhere, closing_last by done.
    change ([-1] ++ ds) with (-1 :: ds).
    destruct (decide (List.last (-1 :: ds) 0 ≠ Z.of_nat ms - 1)).
    - reflexivity.
    - by rewrite app_nil_r. }
  assert (env_slices ms row = segments (-1) (ds ++ closing ms ds)) as Hslices.
  { unfold env_slices. rewrite Hends. apply slices_of_segments. }
  assert (List.last (-1 :: ds) 0 <= Z.of_nat ms - 1) as Hle.
  { destruct ds as [|d l] eqn:Hds; [simpl; lia|].
    apply Hub. apply last_elem_of. done. }
  assert (increasing_from (-1) (ds ++ closing ms ds)
          /\ List.last (-1 :: ds ++ closing ms ds) 0 = Z.of_nat ms - 1) as [Hinc' Hlast'].
  { rewrite closing_last by done.
    destruct (decide (List.last (-1 :: ds) 0 ≠ Z.of_nat ms - 1)) as [Hne|Heq].
    - split; [apply increasing_snoc; [done|lia]|apply last_snoc].
    - rewrite app_nil_r. split; [done|]. lia. }
  unfold segments_claim. fold ds. rewrite Hslices, segments_length, length_app.
  split; [done|]. split; [done|].
  pose proof (last_is_bound ms ds Hinc Hub) as Hbound.
  repeat split.
  - intros Hnot. rewrite closing_last by done.
    rewrite decide_True; [reflexivity|]. intros Heq. apply Hnot, Hbound.
    split; [|done]. intros ->. simpl in Heq. lia.
  - intros Hin. rewrite closing_last by done.
    apply Hbound in Hin as [_ Heq]. rewrite decide_False by (intros ?; done).
    simpl. lia.
  - intros Hk. destruct ds; [|discriminate]. simpl.
    rewrite Z.sub_add. reflexivity.
  - by apply segments_nonempty.
  - rewrite segments_cover by done. rewrite Hlast'. f_equal. lia.
Qed.

Section Samples.

Context {E F : Type}.

Abbreviation storage := (@RolloutStorage E F).

Lemma getitem_row_ok {A} (t : tensor A) n m b :
  has_shape t n m -> (b < n)%nat ->
  exists r, getitem_row t b = Ok r /\ t_rows t !! b = Some r /\ length r = m.
Proof.
  intros (Hn & Hm & Hwf) Hb. unfold getitem_row.
  destruct (lookup_lt_is_Some_2 (t_rows t) b) as [r Hr]; [lia|].
  rewrite Hr. exists r. repeat split; auto.
  unfold wf in Hwf. eapply Forall_lookup_1 in Hwf; eauto. lia.
Qed.

Lemma sample_of_ok (s : storage) b sl :
  wf_storage s -> (b < num_envs s)%nat -> exists smp, sample_of s b sl = Ok smp.
Proof.
  intros (Hr & Hg & Ha & Hd & Hs & Hw) Hb. unfold sample_of, getitem_row_slice.
  destruct (getitem_row_ok _ _ _ b Hr Hb) as (r1 & -> & _).
  destruct (getitem_row_ok _ _ _ b Hg Hb) as (r2 & -> & _).
  destruct (getitem_row_ok _ _ _ b Ha Hb) as (r3 & -> & _).
  destruct (getitem_row_ok _ _ _ b Hw Hb) as (r4 & -> & _).
  destruct (getitem_row_ok _ _ _ b Hd Hb) as (r5 & -> & _).
  destruct (getitem_row_ok _ _ _ b Hs Hb) as (r6 & -> & _).
  eauto.
Qed.

Lemma collect_ok {A B} (f : A -> result B) (l : list A) :
  (forall a, exists b, f a = Ok b) ->
  exists bs, collect (map f l) = Ok bs /\ Forall2 (fun a b => f a = Ok b) l bs.
Proof.
  intros Hf. induction l as [|a l (bs & Hbs & Hall)]; simpl.
  - exists []. split; [done|constructor].
  - destruct (Hf a) as [b Hb]. rewrite Hb, Hbs.
    exists (b :: bs). split; [done|]. by constructor.
Qed.

(** The boundaries and the slices of an environment whose row of [dones]
    holds False in the slot past the horizon, and one sample per slice. *)
Lemma env_segments_and_samples (s : storage) (b : nat) :
  wf_storage s ->
  (0 < max_steps s)%nat ->
  (b < num_envs s)%nat ->
  cell (dones s) b (max_steps s) = Some false ->
  exists row,
    getitem_row (dones s) b = Ok row
    /\ increasing_from (-1) (done_indices (max_steps s) row)
    /\ (forall d, d ∈ done_indices (max_steps s) row <->
          0 <= d <= Z.of_nat (max_steps s) - 1 /\ row !! Z.to_nat d = Some true)
    /\ segments_claim (max_steps s) row
    /\ exists samples,
         env_samples s b = Ok samples
         /\ Forall2 (fun sl smp => sample_of s b sl = Ok smp)
              (env_slices (max_steps s) row) samples.
Proof.
  intros Hwf Hms Hb Hcell.
  pose proof Hwf as (_ & _ & _ & Hd & _).
  destruct (getitem_row_ok _ _ _ b Hd Hb) as (row & Hrow & Hlook & Hlen).
  exists row. split; [done|].
  destruct (done_indices_spec (max_steps s) row) as [Hinc Hmem].
  split; [done|]. split; [done|]. split.
  - apply env_segments; [done|lia|].
    unfold cell in Hcell. by rewrite Hlook in Hcell.
  - unfold env_samples. rewrite Hrow. apply collect_ok.
    intros sl. by apply sample_of_ok.
Qed.

End Samples.

End SegmentFacts.

(** ** [BCTrainer]: configuration *)

Module ConfigFacts.

Import BC ConfigSpec RunFacts.

Lemma validate_config_ok cfg : validate_config cfg = Ok tt <-> valid_config cfg.
Proof.
  unfold validate_config, valid_config, divisible, floordiv, modulo, assert_.
  destruct cfg as [bs mbs nga T g f]; simpl.
  destruct (decide (mbs = 0%nat)) as [->|Hm]; simpl.
  { split; [discriminate|]. intros [[H _] _]. done. }
  destruct (Nat.eqb_spec (bs mod mbs) 0) as [H1|H1]; simpl.
  - destruct (decide (nga = 0%nat)) as [->|Hg]; simpl.
    { split; [discriminate|]. intros [_ [H _]]. done. }
    destruct (Nat.eqb_spec ((bs / mbs) mod nga) 0) as [H2|H2]; simpl.
    + split; auto.
    + split; [discriminate|]. intros [_ [_ H]]. done.
  - split; [discriminate|]. intros [[_ H] _]. done.
Qed.

Lemma validate_config_raises cfg :
  validate_config cfg = Ok tt
  \/ validate_config cfg = Raise AssertionError
  \/ validate_config cfg = Raise ZeroDivisionError.
Proof.
  unfold validate_config, floordiv, modulo, assert_.
  destruct cfg as [bs mbs nga T g f]; simpl.
  destruct (decide (mbs = 0%nat)); simpl; auto.
  destruct (bs mod mbs =? 0)%nat; simpl; auto.
  destruct (decide (nga = 0%nat)); simpl; auto.
  destruct ((bs / mbs) mod nga =? 0)%nat; simpl; auto.
Qed.

(** C9. [validate_config] returns exactly when the batch size is divisible
    by the minibatch size and the number of minibatches by the number of
    gradient accumulations; otherwise it raises (a failed assertion, or a
    division by zero), and then [initialize_train], which runs it first,
    raises the same without having touched the trainer or started any of
    the work that follows; when it returns, [initialize_train] goes on with
    that work. *)
Theorem validate_config_fails_fast (cfg : train_config) :
  (validate_config cfg = Ok tt <-> valid_config cfg)
  /\ (~ valid_config cfg <->
       validate_config cfg = Raise AssertionError
       \/ validate_config cfg = Raise ZeroDivisionError)
  /\ (forall S (rest : M S unit) (s : S),
        ~ valid_config cfg ->
        exists e, initialize_train cfg rest s = (Raise e, s)
                  /\ validate_config cfg = Raise e)
  /\ (forall S (rest : M S unit) (s : S),
        valid_config cfg -> initialize_train cfg rest s = rest s).
Proof.
  pose proof (validate_config_ok cfg) as Hok.
  pose proof (validate_config_raises cfg) as Hcases.
  split; [done|]. split; [|split].
  - split.
    + intros Hnot. destruct Hcases as [H|H]; [|done]. by apply Hok in H.
    + intros [H|H] Hv; apply Hok in Hv; congruence.
  - intros S rest s Hnot.
    destruct (validate_config cfg) as [[]|e] eqn:Hv.
    + destruct Hnot. by apply Hok.
    + exists e. split; [|done]. unfold initialize_train.
      apply bind_raise. unfold lift. by rewrite Hv.
  - intros S rest s Hv. apply Hok in Hv. unfold initialize_train.
    erewrite bind_ok; [reflexivity|]. unfold lift. by rewrite Hv.
Qed.

End ConfigFacts.

(** ** [train_bc_step]: masks and padding *)

Module PaddingFacts.

Import BC PaddingSpec.

Lemma comprehension_map {A B} (f : A -> result B) (g : A -> B) (l : list A) :
  Forall (fun a => f a = Ok (g a)) l -> comprehension f l = Ok (map g l).
Proof.
  induction 1 as [|a l Ha _ IH]; simpl; [done|].
  rewrite Ha. simpl. rewrite IH. reflexivity.
Qed.

Lemma stack_same {A Sh} `{EqDecision Sh} (shape : A -> Sh) (l : list A) sh :
  l <> [] -> Forall (fun a => shape a = sh) l -> stack shape l = Ok l.
Proof.
  intros Hne Hall. destruct l as [|a l]; [done|]. simpl.
  apply Forall_cons in Hall as [Ha Hl].
  rewrite bool_decide_eq_true_2; [done|].
  eapply Forall_impl; [exact Hl|]. simpl. congruence.
Qed.

Lemma full_nat x (n : nat) : full x (Z.of_nat n) = Ok (replicate n x).
Proof.
  unfold full. destruct (Z.ltb_spec (Z.of_nat n) 0); [lia|].
  by rewrite Nat2Z.id.
Qed.

Lemma to_bool_ones_zeros n m :
  to_bool (replicate n 1 ++ replicate m 0) = replicate n true ++ replicate m false.
Proof.
  unfold to_bool. rewrite map_app. f_equal.
  - induction n; simpl; congruence.
  - induction m; simpl; congruence.
Qed.

(** C3. For a minibatch whose episodes are at most [T] steps long, lines
    249-253 return; the mask of an episode of [L] steps is [L] times True
    followed by [T - L] times False, so [T] long; its frames are followed by
    [T - L] frames of zeros and its actions by zeros up to [T]. *)
Theorem pad_inputs_mask_and_zero_padding (T fs : nat)
    (rgbs_t goals_t : list frames) (actions_t : list (list Z)) :
  rgbs_t <> [] ->
  Forall (fun t => (length (frame_list t) <= T)%nat /\ frame_size t = fs) rgbs_t ->
  stack frames_shape goals_t = Ok goals_t ->
  actions_t <> [] ->
  Forall (fun a => (length a <= T)%nat) actions_t ->
  pad_inputs T rgbs_t goals_t actions_t
    = Ok (map (fun t => mask_of T (length (frame_list t))) rgbs_t,
          map (padded_frames T) rgbs_t,
          goals_t,
          map (padded_actions T) actions_t)
  /\ Forall (fun t =>
        length (mask_of T (length (frame_list t))) = T
        /\ take (length (frame_list t)) (mask_of T (length (frame_list t)))
           = replicate (length (frame_list t)) true
        /\ drop (length (frame_list t)) (mask_of T (length (frame_list t)))
           = replicate (T - length (frame_list t)) false
        /\ length (frame_list (padded_frames T t)) = T
        /\ forall i, (length (frame_list t) <= i < T)%nat ->
             frame_list (padded_frames T t) !! i = Some (replicate (frame_size t) 0))
       rgbs_t
  /\ Forall (fun a =>
        length (padded_actions T a) = T
        /\ forall i, (length a <= i < T)%nat -> padded_actions T a !! i = Some 0)
       actions_t.
Proof.
  intros Hne Hrgb Hgoals Hane Hact. split; [|split].
  - unfold pad_inputs.
    rewrite (comprehension_map _
               (fun t => replicate (length (frame_list t)) 1
                         ++ replicate (T - length (frame_list t)) 0)).
    2:{ eapply Forall_impl; [exact Hrgb|]. intros t [Hle _]. simpl.
        unfold shape0. rewrite full_nat. simpl.
        replace (Z.of_nat T - Z.of_nat (length (frame_list t)))
          with (Z.of_nat (T - length (frame_list t))) by lia.
        by rewrite full_nat. }
    simpl. rewrite (stack_same length
                      (map (fun t => replicate (length (frame_list t)) 1
                              ++ replicate (T - length (frame_list t)) 0) rgbs_t) T).
    2:{ by destruct rgbs_t. }
    2:{ apply Forall_map. eapply Forall_impl; [exact Hrgb|]. intros t [Hle _]. simpl.
        rewrite length_app, !length_replicate. lia. }
    simpl. rewrite (comprehension_map _ (padded_frames T)).
    2:{ eapply Forall_impl; [exact Hrgb|]. intros t [Hle _]. simpl.
        unfold pad_frames, shape0, padded_frames.
        destruct (Z.leb_spec 0 (Z.of_nat T - Z.of_nat (length (frame_list t)))); [|lia].
        do 4 f_equal. lia. }
    simpl. rewrite (stack_same frames_shape (map (padded_frames T) rgbs_t) (T, fs)).
    2:{ by destruct rgbs_t. }
    2:{ apply Forall_map. eapply Forall_impl; [exact Hrgb|]. intros t [Hle Hfs]. simpl.
        unfold frames_shape, padded_frames; simpl.
        rewrite length_app, length_replicate. f_equal; [lia|done]. }
    simpl. rewrite Hgoals. simpl.
    rewrite (comprehension_map _ (padded_actions T)).
    2:{ eapply Forall_impl; [exact Hact|]. intros a Hle. simpl in *.
        unfold pad_1d, padded_actions.
        destruct (Z.leb_spec 0 (Z.of_nat T - Z.of_nat (length a))); [|lia].
        do 3 f_equal. lia. }
    simpl. rewrite (stack_same length (map (padded_actions T) actions_t) T).
    2:{ by destruct actions_t. }
    2:{ apply Forall_map. eapply Forall_impl; [exact Hact|]. intros a Hle. simpl in *.
        unfold padded_actions. rewrite length_app, length_replicate. lia. }
    simpl. do 4 f_equal.
    rewrite map_map. apply map_ext. intros t. apply to_bool_ones_zeros.
  - eapply Forall_impl; [exact Hrgb|]. intros t [Hle _]. simpl.
    unfold mask_of, padded_frames; simpl. repeat split.
    + rewrite length_app, !length_replicate. lia.
    + rewrite take_app_length'; [done|]. by rewrite length_replicate.
    + rewrite drop_app_length'; [done|]. by rewrite length_replicate.
    + rewrite length_app, length_replicate. lia.
    + intros i Hi. rewrite lookup_app_r by lia.
      apply lookup_replicate_2. lia.
  - eapply Forall_impl; [exact Hact|]. intros a Hle. simpl in *.
    unfold padded_actions. split.
    + rewrite length_app, length_replicate. lia.
    + intros i Hi. rewrite lookup_app_r by lia. apply lookup_replicate_2. lia.
Qed.

Lemma comprehension_raise {A B} (f : A -> result B) (l : list A) e :
  Forall (fun a => (exists b, f a = Ok b) \/ f a = Raise e) l ->
  Exists (fun a => f a = Raise e) l ->
  comprehension f l = Raise e.
Proof.
  induction 1 as [|a l Ha _ IH]; intros Hex.
  - by apply Exists_nil in Hex.
  - simpl. destruct Ha as [[b Hb]|Hr].
    + rewrite Hb. simpl. apply Exists_cons in Hex as [Hex|Hex]; [congruence|].
      by rewrite IH.
    + by rewrite Hr.
Qed.

(** An episode longer than the window is not truncated: the construction of
    its mask raises, and with it the whole of lines 249-253. *)
Theorem pad_inputs_rejects_long_episode (T : nat)
    (rgbs_t goals_t : list frames) (actions_t : list (list Z)) :
  Exists (fun t => (T < length (frame_list t))%nat) rgbs_t ->
  pad_inputs T rgbs_t goals_t actions_t = Raise RuntimeError.
Proof.
  intros Hlong. unfold pad_inputs.
  rewrite (comprehension_raise
             (fun t => ones ← full 1 (shape0 t);
                       zeros ← full 0 (Z.of_nat T - shape0 t);
                       Ok (ones ++ zeros)) rgbs_t RuntimeError); [reflexivity| |].
  - apply Forall_forall. intros t _. unfold shape0. rewrite full_nat. simpl.
    unfold full. destruct (Z.ltb_spec (Z.of_nat T - Z.of_nat (length (frame_list t))) 0);
      simpl; eauto.
  - eapply Exists_impl; [exact Hlong|]. intros t Ht. simpl in *.
    unfold shape0. rewrite full_nat. simpl.
    unfold full. destruct (Z.ltb_spec (Z.of_nat T - Z.of_nat (length (frame_list t))) 0);
      [reflexivity|lia].
Qed.

End PaddingFacts.

(** ** [train_bc_step]: minibatches, accumulation, optimizer steps *)

Module StepFacts.

Import BC ConfigSpec StepSpec RunFacts ConfigFacts.

Lemma for_each_trace {A} (l : list A) (body : A -> M (list event) unit)
    (f : A -> list event) :
  Forall (fun a => forall tr, body a tr = (Ok tt, tr ++ f a)) l ->
  forall tr, for_each l body tr = (Ok tt, tr ++ concat (map f l)).
Proof.
  induction 1 as [|a l Ha _ IH]; intros tr; simpl.
  - by rewrite app_nil_r.
  - unfold bind. rewrite Ha, IH. by rewrite <- app_assoc.
Qed.

Lemma count_app kind l1 l2 : count kind (l1 ++ l2) = (count kind l1 + count kind l2)%nat.
Proof. unfold count. by rewrite List.filter_app, length_app. Qed.

Lemma count_concat_const {A} kind (f : A -> list event) (l : list A) c :
  (forall a, count kind (f a) = c) ->
  count kind (concat (map f l)) = (length l * c)%nat.
Proof.
  intros Hc. induction l as [|a l IH]; simpl; [done|].
  rewrite count_app, Hc, IH. lia.
Qed.

(** The passes of one chunk: [n] of them, the last one synchronised. *)
Lemma passes_counts (n mb : nat) :
  let passes := map (fun g => Backward (negb (g <? n - 1)%nat) (mb + g)%nat) (seq 0 n) in
  count is_backward passes = n
  /\ count is_synchronized passes = (if decide (n = 0%nat) then 0 else 1)%nat
  /\ count is_unsynchronized passes = (n - 1)%nat
  /\ count is_optim_step passes = 0%nat
  /\ count is_zero_grad passes = 0%nat.
Proof.
  simpl. assert (forall k start,
    (start + k = n)%nat ->
    let passes := map (fun g => Backward (negb (g <? n - 1)%nat) (mb + g)%nat) (seq start k) in
    count is_backward passes = k
    /\ count is_synchronized passes = (if decide (k = 0%nat) then 0 else 1)%nat
    /\ count is_unsynchronized passes = (k - 1)%nat
    /\ count is_optim_step passes = 0%nat
    /\ count is_zero_grad passes = 0%nat) as Hgen.
  { induction k as [|k IH]; intros start Hk; simpl; [done|].
    destruct (IH (S start)) as (B & Sy & U & O & Z); [lia|].
    unfold count in *. cbn [seq map List.filter is_backward is_optim_step is_zero_grad].
    destruct (Nat.ltb_spec start (n - 1)); simpl.
    - rewrite B, Sy, U, O, Z. destruct (decide (k = 0%nat)); [lia|].
      repeat split; try done. lia.
    - assert (k = 0%nat) as -> by lia. simpl. done. }
  apply (Hgen n 0%nat). lia.
Qed.

Lemma chunk_counts cfg mb :
  (num_grad_accums cfg <> 0)%nat ->
  count is_backward (chunk_trace cfg mb) = num_grad_accums cfg
  /\ count is_synchronized (chunk_trace cfg mb) = 1%nat
  /\ count is_unsynchronized (chunk_trace cfg mb) = (num_grad_accums cfg - 1)%nat
  /\ count is_optim_step (chunk_trace cfg mb) = 1%nat
  /\ count is_zero_grad (chunk_trace cfg mb) = 1%nat.
Proof.
  intros Hn. unfold chunk_trace.
  destruct (passes_counts (num_grad_accums cfg) mb) as (B & Sy & U & O & Z).
  rewrite decide_False in Sy by done.
  rewrite !count_app, B, Sy, U, O, Z.
  destruct (max_grad_norm cfg); unfold count; simpl; repeat split; lia.
Qed.

(** The chunks of a valid configuration start at the multiples of
    [num_grad_accums]. *)
Lemma chunks_of_valid (nm nga : nat) :
  divisible nm nga ->
  range_step 0 nm nga = Ok (map (fun i => (i * nga)%nat) (seq 0 (Nat.div nm nga))).
Proof.
  intros [Hg Hmod]. unfold range_step. destruct nga as [|n]; [done|].
  f_equal. rewrite Nat.sub_0_r.
  apply Nat.Div0.div_exact in Hmod.
  set (q := Nat.div nm (S n)) in *.
  replace ((nm + (S n - 1)) / S n)%nat with q.
  - apply map_ext. intros i. lia.
  - rewrite Hmod. rewrite (Nat.mul_comm (S n) q), Nat.div_add_l by done.
    rewrite Nat.div_small by lia. lia.
Qed.

Lemma chunk_run cfg nm mb tr :
  (mb + num_grad_accums cfg <= nm)%nat ->
  (for_each (seq 0 (num_grad_accums cfg)) (fun g =>
      lift (row_check nm (mb + g));;
      if decide (g < num_grad_accums cfg - 1)%nat
      then emit (Backward false (mb + g))
      else emit (Backward true (mb + g)));;
    match max_grad_norm cfg with
    | Some _ => emit ClipGrad
    | None => mret tt
    end;;
    emit OptimStep;;
    emit ZeroGrad) tr
  = (Ok tt, tr ++ chunk_trace cfg mb).
Proof.
  intros Hle. erewrite bind_ok.
  2:{ apply (for_each_trace _ _
               (fun g => [Backward (negb (g <? num_grad_accums cfg - 1)%nat) (mb + g)%nat])).
      apply Forall_forall. intros g Hg tr'. apply elem_of_seq in Hg.
      erewrite bind_ok.
      2:{ unfold lift, row_check. rewrite decide_True by lia. reflexivity. }
      destruct (decide (g < num_grad_accums cfg - 1)%nat) as [H|H].
      - apply Nat.ltb_lt in H. rewrite H. reflexivity.
      - apply Nat.ltb_nlt in H. rewrite H. reflexivity. }
  unfold chunk_trace.
  replace (concat (map (fun g => [Backward (negb (g <? num_grad_accums cfg - 1)%nat) (mb + g)%nat])
                     (seq 0 (num_grad_accums cfg))))
    with (map (fun g => Backward (negb (g <? num_grad_accums cfg - 1)%nat) (mb + g)%nat)
            (seq 0 (num_grad_accums cfg))).
  2:{ induction (seq 0 (num_grad_accums cfg)); simpl; congruence. }
  destruct (max_grad_norm cfg); unfold mbind, M_bind, bind, emit, modify, mret, M_ret, ret;
    simpl; by rewrite <- !app_assoc.
Qed.

(** The run of the loops under a valid configuration. *)
Lemma train_bc_step_run cfg :
  valid_config cfg ->
  train_bc_step cfg (batch_size cfg) []
  = (Ok tt,
     concat (map (fun i => chunk_trace cfg (i * num_grad_accums cfg))
               (seq 0 (Nat.div (Nat.div (batch_size cfg) (minibatch_size cfg))
                         (num_grad_accums cfg))))).
Proof.
  intros [[Hm Hmod] Hdiv]. unfold train_bc_step.
  set (nm := Nat.div (batch_size cfg) (minibatch_size cfg)) in *.
  erewrite bind_ok.
  2:{ unfold lift, floordiv. rewrite decide_False by done. reflexivity. }
  fold nm. erewrite bind_ok.
  2:{ unfold lift, view_check. rewrite decide_True; [reflexivity|].
      apply Nat.Div0.div_exact in Hmod. fold nm in Hmod. lia. }
  erewrite bind_ok.
  2:{ unfold lift. rewrite chunks_of_valid by done. reflexivity. }
  pose proof Hdiv as [Hg Hmod2]. apply Nat.Div0.div_exact in Hmod2.
  rewrite (for_each_trace _ _ (chunk_trace cfg)).
  - simpl. by rewrite map_map.
  - apply Forall_forall. intros mb Hmb tr.
    apply list_elem_of_fmap in Hmb as (i & -> & Hi). apply elem_of_seq in Hi.
    apply chunk_run. nia.
Qed.

(** C2, as the code has it.  Under a valid configuration the step runs
    [batch_size / minibatch_size] minibatches in chunks of [num_grad_accums];
    each chunk is [num_grad_accums] passes, the last one synchronised, and
    then exactly one optimizer step: there is one optimizer step per chunk,
    [num_minibatches / num_grad_accums] per batch, and one per batch only
    when [num_grad_accums] equals the number of minibatches. *)
Theorem one_optimizer_step_per_chunk (cfg : train_config) :
  valid_config cfg ->
  let num_minibatches := Nat.div (batch_size cfg) (minibatch_size cfg) in
  let chunks := Nat.div num_minibatches (num_grad_accums cfg) in
  exists trace,
    train_bc_step cfg (batch_size cfg) [] = (Ok tt, trace)
    /\ trace = concat (map (fun i => chunk_trace cfg (i * num_grad_accums cfg))
                        (seq 0 chunks))
    /\ (forall mb, count is_backward (chunk_trace cfg mb) = num_grad_accums cfg
                   /\ count is_synchronized (chunk_trace cfg mb) = 1%nat
                   /\ count is_optim_step (chunk_trace cfg mb) = 1%nat)
    /\ count is_backward trace = num_minibatches
    /\ count is_synchronized trace = chunks
    /\ count is_unsynchronized trace = (num_minibatches - chunks)%nat
    /\ count is_optim_step trace = chunks
    /\ count is_zero_grad trace = chunks
    /\ (count is_optim_step trace = 1%nat <-> num_grad_accums cfg = num_minibatches).
Proof.
  intros Hv. simpl. pose proof Hv as [[Hm Hmod] [Hg Hmod2]].
  set (nm := Nat.div (batch_size cfg) (minibatch_size cfg)) in *.
  set (q := Nat.div nm (num_grad_accums cfg)) in *.
  exists (concat (map (fun i => chunk_trace cfg (i * num_grad_accums cfg)) (seq 0 q))).
  split; [by apply train_bc_step_run|]. split; [done|].
  apply Nat.Div0.div_exact in Hmod2. fold q in Hmod2.
  split; [intros mb; destruct (chunk_counts cfg mb Hg) as (? & ? & ? & ? & ?); done|].
  rewrite (count_concat_const is_backward _ _ (num_grad_accums cfg))
    by (intros; by apply chunk_counts).
  rewrite (count_concat_const is_synchronized _ _ 1)
    by (intros; by apply chunk_counts).
  rewrite (count_concat_const is_unsynchronized _ _ (num_grad_accums cfg - 1))
    by (intros; by apply chunk_counts).
  rewrite (count_concat_const is_optim_step _ _ 1)
    by (intros; by apply chunk_counts).
  rewrite (count_concat_const is_zero_grad _ _ 1)
    by (intros; by apply chunk_counts).
  rewrite length_seq. repeat split; try nia.
Qed.

End StepFacts.

(** ** Checkpoints *)

Module CheckpointFacts.

Import BC CheckpointSpec RunFacts.

Section Facts.

Context {W : Type} (shape : W -> list nat).
Context {Optim OptimSD Sched SchedSD Sampler SamplerSD : Type}.
Context `{!Stateful Optim OptimSD, !Stateful Sched SchedSD,
          !Stateful Sampler SamplerSD}.

Abbreviation trainer := (@trainer W Optim OptimSD Sched SchedSD Sampler SamplerSD).
Abbreviation save_obj := (@save_obj W OptimSD SchedSD SamplerSD).
Abbreviation module := (@module W).

Lemma saved_weights_parameter (m : module) k p :
  named_parameters m !! k = Some p ->
  saved_weights m !! k = if requires_grad p then Some (p_data p) else None.
Proof.
  intros Hp. unfold saved_weights, module_state_dict.
  destruct (requires_grad p) eqn:Hrg.
  - apply map_lookup_filter_Some. split.
    + apply lookup_union_Some_raw. left. by rewrite lookup_fmap, Hp.
    + simpl. rewrite lookup_fmap, Hp. simpl. rewrite Hrg. congruence.
  - apply map_lookup_filter_None. right. intros w _. simpl.
    rewrite lookup_fmap, Hp. simpl. rewrite Hrg. tauto.
Qed.

Lemma saved_weights_buffer (m : module) k w :
  named_parameters m !! k = None -> named_buffers m !! k = Some w ->
  saved_weights m !! k = Some w.
Proof.
  intros Hp Hb. unfold saved_weights, module_state_dict.
  apply map_lookup_filter_Some. split.
  - apply lookup_union_Some_raw. right. by rewrite lookup_fmap, Hp.
  - simpl. rewrite lookup_fmap, Hp. simpl. congruence.
Qed.

Lemma saved_weights_absent (m : module) k :
  named_parameters m !! k = None -> named_buffers m !! k = None ->
  saved_weights m !! k = None.
Proof.
  intros Hp Hb. unfold saved_weights, module_state_dict.
  apply map_lookup_filter_None. left.
  apply lookup_union_None. by rewrite lookup_fmap, Hp.
Qed.

Lemma save_checkpoint_run (s : trainer) :
  ckpt_freq (config s) <> 0%nat ->
  save_checkpoint s
  = (Ok tt, set_files (<[Nat.div (step s) (ckpt_freq (config s)) := snapshot s]>
                         (files s)) s).
Proof.
  intros Hf. unfold save_checkpoint. rewrite gets_bind.
  erewrite bind_ok.
  2:{ unfold lift, floordiv. rewrite decide_False by done. reflexivity. }
  reflexivity.
Qed.

Lemma module_load_lenient sd (m : module) :
  shapes_fit shape sd m ->
  exists m',
    module_load_state_dict shape sd false m = (Ok tt, m')
    /\ (forall k, named_parameters m' !! k
                  = (fun p => mkParameter (loaded shape sd k (p_data p)) (requires_grad p))
                      <$> named_parameters m !! k)
    /\ (forall k, named_buffers m' !! k = loaded shape sd k <$> named_buffers m !! k).
Proof.
  intros Hfit. unfold module_load_state_dict.
  rewrite bool_decide_eq_true_2 by exact Hfit. simpl.
  eexists. split; [reflexivity|]. simpl. split; intros k.
  - rewrite map_lookup_imap. by destruct (named_parameters m !! k).
  - rewrite map_lookup_imap. by destruct (named_buffers m !! k).
Qed.

Lemma zoom_run {S X A} (attr : S -> X) set_attr (c : M X A) s r x :
  c (attr s) = (r, x) -> zoom attr set_attr c s = (r, set_attr x s).
Proof. unfold zoom. by intros ->. Qed.

Lemma zoom_ok_inv {S X} (attr : S -> X) set_attr (c : M X unit) s s' :
  zoom attr set_attr c s = (Ok tt, s') ->
  exists x, c (attr s) = (Ok tt, x) /\ s' = set_attr x s.
Proof.
  unfold zoom. destruct (c (attr s)) as [[[]|e] x]; intros H; inversion H; eauto.
Qed.

Lemma load_checkpoint_run (r : trainer) n ck m' o' l' a' st ep :
  files r !! n = Some ck ->
  module_load_state_dict shape (so_model ck) false (agent r) = (Ok tt, m') ->
  load_state_dict (so_optimizer ck) (optim r) = (Ok tt, o') ->
  load_state_dict (so_lr_scheduler ck) (lr_scheduler r) = (Ok tt, l') ->
  load_state_dict (so_sampler ck) (sampler r) = (Ok tt, a') ->
  so_stats ck !! "step" = Some st ->
  so_stats ck !! "epoch" = Some ep ->
  load_checkpoint shape n r
  = (Ok tt, mkTrainer (config r) m' o' l' a' (so_stats ck) st ep (files r)).
Proof.
  intros Hf Hm Ho Hl Ha Hst Hep. unfold load_checkpoint.
  erewrite bind_ok.
  2:{ unfold torch_load. rewrite gets_bind, Hf. reflexivity. }
  erewrite bind_ok; [|by apply zoom_run].
  erewrite bind_ok; [|by apply zoom_run].
  erewrite bind_ok; [|by apply zoom_run].
  erewrite bind_ok; [|by apply zoom_run].
  erewrite bind_ok; [|reflexivity].
  rewrite gets_bind. erewrite bind_ok.
  2:{ unfold lift, getitem. simpl. rewrite Hst. reflexivity. }
  erewrite bind_ok; [|reflexivity].
  rewrite gets_bind. erewrite bind_ok.
  2:{ unfold lift, getitem. simpl. rewrite Hep. reflexivity. }
  reflexivity.
Qed.

Lemma load_checkpoint_ok_inv (r r' : trainer) n ck :
  files r !! n = Some ck ->
  load_checkpoint shape n r = (Ok tt, r') ->
  (exists m', module_load_state_dict shape (so_model ck) false (agent r) = (Ok tt, m'))
  /\ (exists o', load_state_dict (so_optimizer ck) (optim r) = (Ok tt, o'))
  /\ (exists l', load_state_dict (so_lr_scheduler ck) (lr_scheduler r) = (Ok tt, l'))
  /\ (exists a', load_state_dict (so_sampler ck) (sampler r) = (Ok tt, a'))
  /\ is_Some (so_stats ck !! "step") /\ is_Some (so_stats ck !! "epoch").
Proof.
  intros Hf H. unfold load_checkpoint in H.
  apply bind_ok_inv in H as (ck' & s0 & H0 & H).
  unfold torch_load in H0. rewrite gets_bind, Hf in H0. inversion H0; subst ck' s0.
  apply bind_ok_inv in H as ([] & s1 & H1 & H).
  apply zoom_ok_inv in H1 as (m' & Hm & ->).
  apply bind_ok_inv in H as ([] & s2 & H2 & H).
  apply zoom_ok_inv in H2 as (o' & Ho & ->).
  apply bind_ok_inv in H as ([] & s3 & H3 & H).
  apply zoom_ok_inv in H3 as (l' & Hl & ->).
  apply bind_ok_inv in H as ([] & s4 & H4 & H).
  apply zoom_ok_inv in H4 as (a' & Ha & ->).
  apply bind_ok_inv in H as ([] & s5 & H5 & H).
  inversion H5; subst s5; clear H5.
  rewrite gets_bind in H.
  apply bind_ok_inv in H as (st & s6 & H6 & H).
  unfold lift, getitem in H6. simpl in H6.
  destruct (so_stats ck !! "step") as [st'|] eqn:Hst; [|discriminate].
  inversion H6; subst st' s6; clear H6.
  apply bind_ok_inv in H as ([] & s7 & H7 & H).
  inversion H7; subst s7; clear H7.
  rewrite gets_bind in H.
  apply bind_ok_inv in H as (ep & s8 & H8 & H).
  unfold lift, getitem in H8. simpl in H8.
  destruct (so_stats ck !! "epoch") as [ep'|] eqn:Hep; [|discriminate].
  simpl in *. eauto 10.
Qed.


(** C5. [save_checkpoint] writes, under [step // ckpt_freq], the weights of
    the module without any parameter whose [requires_grad] is False and with
    every trainable one, the states of the optimizer, the scheduler and the
    sampler, the configuration and the cumulative stats.  [load_checkpoint]
    of that file returns whenever the three collaborators take their saved
    state and the shapes fit, whatever keys the loading module has or lacks;
    it returns only if each of the three loads returns; and afterwards the
    trainable weights are the saved ones, the other parameters untouched,
    optimizer, scheduler and sampler in their saved states, the stats the
    saved ones, and [step] and [epoch] the values held in the stats: the
    saved [step] and [epoch] themselves when the stats were current, as
    [update_stats] leaves them. *)
Theorem checkpoint_round_trip (s : trainer) :
  ckpt_freq (config s) <> 0%nat ->
  let n := Nat.div (step s) (ckpt_freq (config s)) in
  let ck := snapshot s in
  save_checkpoint s = (Ok tt, set_files (<[n := ck]> (files s)) s)
  /\ (forall k p, named_parameters (agent s) !! k = Some p ->
        so_model ck !! k = if requires_grad p then Some (p_data p) else None)
  /\ so_optimizer ck = state_dict (optim s)
  /\ so_lr_scheduler ck = state_dict (lr_scheduler s)
  /\ so_sampler ck = state_dict (sampler s)
  /\ so_config ck = config s
  /\ so_stats ck = cumstats s
  /\ (forall (r : trainer) st ep,
        files r !! n = Some ck ->
        shapes_fit shape (so_model ck) (agent r) ->
        accepts (optim r) (so_optimizer ck) ->
        accepts (lr_scheduler r) (so_lr_scheduler ck) ->
        accepts (sampler r) (so_sampler ck) ->
        cumstats s !! "step" = Some st ->
        cumstats s !! "epoch" = Some ep ->
        exists r', load_checkpoint shape n r = (Ok tt, r')
                   /\ restored s r r' st ep
                   /\ (st = step s -> ep = epoch s ->
                       step r' = step s /\ epoch r' = epoch s
                       /\ cumstats r' !! "metrics/total_frames"
                          = cumstats s !! "metrics/total_frames"))
  /\ (forall (r r' : trainer),
        files r !! n = Some ck ->
        load_checkpoint shape n r = (Ok tt, r') ->
        (exists o', load_state_dict (so_optimizer ck) (optim r) = (Ok tt, o'))
        /\ (exists l', load_state_dict (so_lr_scheduler ck) (lr_scheduler r) = (Ok tt, l'))
        /\ (exists a', load_state_dict (so_sampler ck) (sampler r) = (Ok tt, a'))).
Proof.
  intros Hfreq n ck.
  split; [by apply save_checkpoint_run|].
  split; [intros k p Hp; by apply saved_weights_parameter|].
  do 5 (split; [reflexivity|]). split.
  - intros r st ep Hf Hfit (o' & Ho & Hos) (l' & Hl & Hls) (a' & Ha & Has) Hst Hep.
    destruct (module_load_lenient _ _ Hfit) as (m' & Hm & Hparams & Hbufs).
    eexists. split; [by eapply load_checkpoint_run; eauto|].
    split; [|simpl; intros -> ->; done].
    unfold restored; simpl. do 6 (split; [done|]). split.
    + intros k p q Hp Hq. rewrite Hparams, Hq. simpl. f_equal.
      unfold loaded. subst ck; simpl.
      rewrite (saved_weights_parameter _ _ _ Hp).
      destruct (requires_grad p) eqn:Hrg; [|by destruct q].
      rewrite decide_True; [done|].
      assert (module_state_dict (agent r) !! k = Some (p_data q)) as Hown.
      { unfold module_state_dict. apply lookup_union_Some_raw. left.
        by rewrite lookup_fmap, Hq. }
      specialize (Hfit k _ Hown). simpl in Hfit. unfold shape_fits in Hfit.
      simpl in Hfit. rewrite (saved_weights_parameter _ _ _ Hp), Hrg in Hfit.
      by apply bool_decide_eq_true_1 in Hfit.
    + intros k Hp Hb. rewrite Hparams.
      destruct (named_parameters (agent r) !! k) as [q|]; [|done]. simpl.
      unfold loaded. subst ck; simpl. rewrite saved_weights_absent by done.
      by destruct q.
  - intros r r' Hf Hload.
    destruct (load_checkpoint_ok_inv _ _ _ _ Hf Hload) as (_ & ? & ? & ? & _). done.
Qed.


End Facts.

End CheckpointFacts.

(** ** [RolloutStorage]: collection loops *)

Module ProtocolFacts.

Import Rollout RolloutUse RolloutSpec SegmentSpec ProtocolSpec.
Import TorchFacts RunFacts RolloutFacts SegmentFacts.

Section Facts.

Context {E F : Type}.

Abbreviation storage := (@RolloutStorage E F).

Lemma bind_inv {S A B} (c : M S A) (k : A -> M S B) s r s' :
  (c ≫= k) s = (r, s') ->
  (exists a s1, c s = (Ok a, s1) /\ k a s1 = (r, s'))
  \/ (exists e, c s = (Raise e, s') /\ r = Raise e).
Proof.
  unfold mbind, M_bind, bind. destruct (c s) as [[a|e] s1]; intros H.
  - left. eauto.
  - right. inversion H; subst. eauto.
Qed.

Lemma assign_any {A} (buffer : storage -> tensor A) set_buffer i v s r s' n m :
  has_shape (buffer s) n m ->
  assign_col buffer set_buffer i v s = (r, s') ->
  (r = Ok tt /\ exists t', s' = set_buffer t' s /\ has_shape t' n m
                          /\ col_written (buffer s) t' i v)
  \/ ((exists e, r = Raise e) /\ s' = s).
Proof.
  intros Hs H. rewrite assign_col_run in H.
  destruct (setitem_col (buffer s) i v) as [t'|e] eqn:Hset; inversion H; subst.
  - left. split; [done|]. exists t'.
    destruct (setitem_col_inv _ _ _ _ _ _ Hs Hset) as (? & ? & ?). done.
  - right. eauto.
Qed.

Lemma when_assign_any {A} (buffer : storage -> tensor A) set_buffer o s r s' n m :
  has_shape (buffer s) n m ->
  when_given o (fun v => i ← gets current_step_idx; assign_col buffer set_buffer i v) s
    = (r, s') ->
  (r = Ok tt /\ exists t', s' = match o with Some _ => set_buffer t' s | None => s end
                          /\ has_shape t' n m
                          /\ opt_written (buffer s) t' (current_step_idx s) o)
  \/ ((exists e, r = Raise e) /\ s' = s).
Proof.
  intros Hs H. destruct o as [v|]; simpl in H.
  - rewrite gets_bind in H. by apply (assign_any _ _ _ _ _ _ _ _ _ Hs) in H.
  - inversion H; subst. left. split; [done|]. exists (buffer s'). done.
Qed.

Lemma index_front_inv size i j :
  0 <= i -> index size i = Some j -> i < Z.of_nat size /\ j = Z.to_nat i.
Proof.
  intros Hi H. unfold index in H.
  destruct (0 <=? i) eqn:H1; destruct (i <? Z.of_nat size) eqn:H2;
    destruct (- Z.of_nat size <=? i) eqn:H3; destruct (i <? 0) eqn:H4;
    simpl in H; try discriminate; inversion H; subst;
    rewrite ?Z.leb_le, ?Z.ltb_lt, ?Z.leb_gt, ?Z.ltb_ge in *; lia.
Qed.

(** What one [insert] does to the storage, whether it returns or raises. *)
Lemma insert_call_outcome (c : call) (s : storage) r s' :
  protocol_invariant s ->
  (current_step_idx s = -1 -> c_dones c = None) ->
  insert_call c s = (r, s') ->
  protocol_invariant s'
  /\ num_envs s' = num_envs s /\ max_steps s' = max_steps s
  /\ ((r = Ok tt /\ current_step_idx s' = current_step_idx s + 1)
      \/ ((exists e, r = Raise e) /\ current_step_idx s' = current_step_idx s)).
Proof.
  intros (Hwf & Hcur & Hslot) Hfirst H.
  assert (forall s1, between (num_envs s) (max_steps s) (current_step_idx s) s1 ->
            (exists e, r = Raise e) -> s' = s1 ->
            protocol_invariant s'
            /\ num_envs s' = num_envs s /\ max_steps s' = max_steps s
            /\ ((r = Ok tt /\ current_step_idx s' = current_step_idx s + 1)
                \/ ((exists e, r = Raise e) /\ current_step_idx s' = current_step_idx s)))
    as Hraise.
  { intros s1 (W & N & M & C & D) He ->. unfold protocol_invariant.
    rewrite N, M, C. split; [done|]. split; [done|]. split; [done|]. right. done. }
  assert (between (num_envs s) (max_steps s) (current_step_idx s) s) as B0
    by (unfold between; done).
  unfold insert_call, insert in H. rewrite gets_bind in H.
  apply bind_inv in H as [([] & s1 & H1 & H)|(e & H1 & ->)].
  2:{ pose proof Hwf as (Hr & _).
      apply (assign_any _ _ _ _ _ _ _ _ _ Hr) in H1 as [[? _]|[_ Heq]]; [done|].
      exact (Hraise _ B0 (ex_intro _ e eq_refl) Heq). }
  pose proof Hwf as (Hr & Hg & Ha & Hd & Hs & Hw).
  apply (assign_any _ _ _ _ _ _ _ _ _ Hr) in H1 as [(_ & t1 & -> & S1 & W1)|[[? ?] _]];
    [|done].
  destruct W1 as (j1 & Hj1 & _).
  destruct Hr as (_ & Hm & _). rewrite Hm in Hj1.
  apply index_front_inv in Hj1 as [Hlt _]; [|lia].
  assert (between (num_envs s) (max_steps s) (current_step_idx s) (set_rgbs t1 s)) as B1.
  { unfold between, wf_storage; simpl. done. }
  assert (has_shape (goals (set_rgbs t1 s)) (num_envs s) (max_steps s + 1)) as Hg1
    by exact Hg.
  rewrite gets_bind in H.
  apply bind_inv in H as [([] & s2 & H2 & H)|(e & H2 & ->)].
  2:{ apply (assign_any _ _ _ _ _ _ _ _ _ Hg1) in H2 as [[? _]|[_ ->]]; [done|].
      apply (Hraise (set_rgbs t1 s)); eauto. }
  apply (assign_any _ _ _ _ _ _ _ _ _ Hg1) in H2 as [(_ & t2 & -> & S2 & _)|[[? ?] _]];
    [|done].
  set (s2 := set_goals t2 (set_rgbs t1 s)) in *.
  assert (between (num_envs s) (max_steps s) (current_step_idx s) s2) as B2.
  { unfold between, wf_storage; simpl. done. }
  assert (has_shape (dones s2) (num_envs s) (max_steps s + 1)) as Hd2 by exact Hd.
  apply bind_inv in H as [([] & s3 & H3 & H)|(e & H3 & ->)].
  2:{ apply (when_assign_any _ _ _ _ _ _ _ _ Hd2) in H3 as [[? _]|[_ Heq]]; [done|].
      exact (Hraise _ B2 (ex_intro _ e eq_refl) Heq). }
  apply (when_assign_any _ _ _ _ _ _ _ _ Hd2) in H3
    as [(_ & t3 & -> & S3 & W3)|[[? ?] _]]; [|done].
  set (s3 := match c_dones c with Some _ => set_dones t3 s2 | None => s2 end) in *.
  assert (between (num_envs s) (max_steps s) (current_step_idx s) s3) as B3.
  { subst s3. destruct (c_dones c) as [v|] eqn:Hv; [|done].
    destruct B2 as (W2 & N2 & M2 & C2 & D2).
    unfold between. split; [|split; [done|split; [done|split; [done|]]]].
    { destruct W2 as (? & ? & ? & ? & ? & ?). unfold wf_storage; simpl. done. }
    intros b Hb. simpl in W3. destruct W3 as (j & Hj & _ & _ & _ & Hcell).
    destruct Hd as (_ & Hdm & _). rewrite Hdm in Hj.
    assert (current_step_idx s <> -1) as Hne
      by (intros Heq; specialize (Hfirst Heq); discriminate).
    apply index_front_inv in Hj as [_ ->]; [|lia].
    rewrite Hcell, decide_False by lia. by apply Hslot. }
  assert (has_shape (successes s3) (num_envs s) (max_steps s)) as Hs3.
  { subst s3. by destruct (c_dones c). }
  apply bind_inv in H as [([] & s4 & H4 & H)|(e & H4 & ->)].
  2:{ apply (when_assign_any _ _ _ _ _ _ _ _ Hs3) in H4 as [[? _]|[_ Heq]]; [done|].
      exact (Hraise _ B3 (ex_intro _ e eq_refl) Heq). }
  apply (when_assign_any _ _ _ _ _ _ _ _ Hs3) in H4
    as [(_ & t4 & -> & S4 & _)|[[? ?] _]]; [|done].
  set (s4 := match c_successes c with Some _ => set_successes t4 s3 | None => s3 end) in *.
  assert (between (num_envs s) (max_steps s) (current_step_idx s) s4
          /\ has_shape (rewards s4) (num_envs s) (max_steps s + 1)
          /\ has_shape (actions s4) (num_envs s) (max_steps s + 1)) as (B4 & Hw4 & Ha4).
  { destruct B3 as ((? & ? & ? & ? & ? & ?) & N3 & M3 & C3 & D3).
    subst s4. destruct (c_successes c); unfold between, wf_storage; simpl;
      rewrite ?N3, ?M3 in *; done. }
  apply bind_inv in H as [([] & s5 & H5 & H)|(e & H5 & ->)].
  2:{ apply (when_assign_any _ _ _ _ _ _ _ _ Hw4) in H5 as [[? _]|[_ Heq]]; [done|].
      exact (Hraise _ B4 (ex_intro _ e eq_refl) Heq). }
  apply (when_assign_any _ _ _ _ _ _ _ _ Hw4) in H5
    as [(_ & t5 & -> & S5 & _)|[[? ?] _]]; [|done].
  set (s5 := match c_rewards c with Some _ => set_rewards t5 s4 | None => s4 end) in *.
  assert (between (num_envs s) (max_steps s) (current_step_idx s) s5
          /\ has_shape (actions s5) (num_envs s) (max_steps s + 1)) as (B5 & Ha5).
  { destruct B4 as ((? & ? & ? & ? & ? & ?) & N4 & M4 & C4 & D4).
    subst s5. destruct (c_rewards c); unfold between, wf_storage; simpl;
      rewrite ?N4, ?M4 in *; done. }
  apply bind_inv in H as [([] & s6 & H6 & H)|(e & H6 & ->)].
  2:{ apply (when_assign_any _ _ _ _ _ _ _ _ Ha5) in H6 as [[? _]|[_ Heq]]; [done|].
      exact (Hraise _ B5 (ex_intro _ e eq_refl) Heq). }
  apply (when_assign_any _ _ _ _ _ _ _ _ Ha5) in H6
    as [(_ & t6 & -> & S6 & _)|[[? ?] _]]; [|done].
  set (s6 := match c_actions c with Some _ => set_actions t6 s5 | None => s5 end) in *.
  assert (between (num_envs s) (max_steps s) (current_step_idx s) s6) as B6.
  { destruct B5 as ((? & ? & ? & ? & ? & ?) & N5 & M5 & C5 & D5).
    subst s6. destruct (c_actions c); unfold between, wf_storage; simpl;
      rewrite ?N5, ?M5 in *; done. }
  rewrite gets_bind in H. unfold modify in H. inversion H; subst r s'; clear H.
  destruct B6 as (W6 & N6 & M6 & C6 & D6).
  unfold wf_storage in W6. rewrite N6, M6 in W6.
  unfold protocol_invariant, wf_storage; simpl. rewrite N6, M6, C6.
  split; [|split; [done|split; [done|left; done]]].
  split; [exact W6|]. split; [lia|]. intros b Hb. by apply D6.
Qed.

Lemma reset_outcome (s : storage) :
  wf_storage s ->
  exists s', reset s = (Ok tt, s')
    /\ wf_storage s' /\ current_step_idx s' = 0
    /\ dones s' = dones s
    /\ num_envs s' = num_envs s /\ max_steps s' = max_steps s.
Proof.
  intros (Hr & Hg & Ha & Hd & Hs & Hw). unfold reset.
  destruct (copy_last_to_front rgbs set_rgbs s _ _ Hr) as (t1 & R1 & S1 & _).
  destruct (copy_last_to_front goals set_goals (set_rgbs t1 s) _ _ Hg)
    as (t2 & R2 & S2 & _).
  exists (set_current_step_idx 0 (set_goals t2 (set_rgbs t1 s))). split.
  - rewrite R1, R2. reflexivity.
  - unfold wf_storage; simpl. done.
Qed.

Section Reach.

Context (zeroE : E) (zeroF : F).

Lemma reachable_invariant (s : storage) :
  reachable zeroE zeroF s -> protocol_invariant s.
Proof.
  induction 1 as [n ms dev|s c r s' _ IH Hfirst Hrun|s r s' _ IH Hrun].
  - split; [apply init_wf|]. split; [simpl; lia|].
    intros b Hb. simpl in *. apply cell_zeros; lia.
  - by destruct (insert_call_outcome c s r s' IH Hfirst Hrun) as (? & _).
  - destruct IH as (Hwf & Hcur & Hslot).
    destruct (reset_outcome s Hwf) as (s1 & Hr & Hwf1 & Hc1 & Hd1 & Hn1 & Hm1).
    rewrite Hr in Hrun. inversion Hrun; subst r s1.
    split; [done|]. rewrite Hc1, Hd1, Hn1, Hm1. split; [lia|done].
Qed.

(** However a collection loop has used the storage, as long as its first
    [insert] passed no [dones], the slot of [dones] past the horizon is
    False, the cursor is within [[-1, max_steps]], and the segments of every
    environment are those of the specification. *)
Theorem protocol_keeps_segments (s : storage) (b : nat) :
  reachable zeroE zeroF s ->
  (0 < max_steps s)%nat ->
  (b < num_envs s)%nat ->
  protocol_invariant s
  /\ exists row, getitem_row (dones s) b = Ok row
                 /\ segments_claim (max_steps s) row.
Proof.
  intros Hreach Hms Hb.
  pose proof (reachable_invariant s Hreach) as Hinv.
  split; [done|]. destruct Hinv as (Hwf & _ & Hslot).
  pose proof Hwf as (_ & _ & _ & Hd & _).
  destruct (getitem_row_ok _ _ _ b Hd Hb) as (row & Hrow & Hlook & Hlen).
  exists row. split; [done|].
  apply env_segments; [done|lia|].
  specialize (Hslot b Hb). unfold cell in Hslot. by rewrite Hlook in Hslot.
Qed.

End Reach.



End Facts.

End ProtocolFacts.

Module ResetFacts.

Import Rollout RolloutSpec TorchFacts RunFacts RolloutFacts.

Section Facts.

Context {E F : Type}.

Abbreviation storage := (@RolloutStorage E F).

(** Two tensors of one shape on one device with the same cells are equal. *)
Lemma tensor_ext {A} (t t' : tensor A) n m :
  has_shape t n m -> has_shape t' n m ->
  t_device t = t_device t' ->
  (forall b k, cell t b k = cell t' b k) ->
  t = t'.
Proof.
  destruct t as [d st rows], t' as [d' st' rows'].
  intros (Hn & Hm & Hwf) (Hn' & Hm' & Hwf') Hd Hcell. simpl in *. subst.
  f_equal. unfold wf in *; simpl in *. apply list_eq. intros b.
  destruct (rows !! b) as [r|] eqn:Hr.
  - destruct (lookup_lt_is_Some_2 rows' b) as [r' Hr'].
    { apply lookup_lt_Some in Hr. lia. }
    rewrite Hr'. f_equal. apply list_eq. intros k.
    specialize (Hcell b k). unfold cell in Hcell; simpl in Hcell.
    by rewrite Hr, Hr' in Hcell.
  - symmetry. apply lookup_ge_None. apply lookup_ge_None in Hr. lia.
Qed.

Lemma copy_last_to_front_device {A} (buffer : storage -> tensor A) set_buffer s n m :
  has_shape (buffer s) n (m + 1) ->
  exists t', (forall B (k : M storage B),
                (v ← read_col buffer (-1); assign_col buffer set_buffer 0 v;; k) s
                = k (set_buffer t' s))
    /\ has_shape t' n (m + 1)
    /\ t_device t' = t_device (buffer s)
    /\ (forall b, cell t' b 0 = cell (buffer s) b m)
    /\ (forall b k, k <> 0%nat -> cell t' b k = cell (buffer s) b k).
Proof.
  intros Hs.
  assert (index (m + 1) (-1) = Some m) as Hback.
  { rewrite index_back by lia. f_equal. lia. }
  destruct (getitem_col_ok _ _ _ _ _ Hs Hback) as (v & Hv & Hlen & Hcells).
  assert (is_Some (index (m + 1) 0)) as Hfront by (rewrite index_front by lia; eauto).
  destruct (setitem_col_ok _ _ _ _ v Hs Hlen Hfront) as [t' Ht'].
  destruct (setitem_col_inv _ _ _ _ _ _ Hs Ht') as ((j & Hj & Hdev & _ & _ & Hw) & Hs' & _).
  destruct Hs as (_ & Hm & _). rewrite Hm, index_front in Hj by lia.
  inversion Hj; subst j; clear Hj.
  exists t'. split; [|split; [done|split; [done|split]]].
  - intros B k. erewrite bind_ok.
    + erewrite bind_ok; [reflexivity|]. by rewrite assign_col_run, Ht'.
    + unfold read_col. rewrite gets_bind. unfold lift. by rewrite Hv.
  - intros b. rewrite Hw. change (Z.to_nat 0) with 0%nat.
    rewrite decide_True by done. apply Hcells.
  - intros b k Hk. rewrite Hw. change (Z.to_nat 0) with 0%nat.
    by rewrite decide_False.
Qed.

(** [reset] is idempotent: a second [reset] changes nothing. *)
Theorem reset_twice (s : storage) :
  wf_storage s ->
  exists s1, reset s = (Ok tt, s1) /\ reset s1 = (Ok tt, s1).
Proof.
  intros (Hr & Hg & Ha & Hd & Hs & Hw).
  destruct (copy_last_to_front_device rgbs set_rgbs s _ _ Hr)
    as (t1 & R1 & S1 & D1 & F1 & O1).
  destruct (copy_last_to_front_device goals set_goals (set_rgbs t1 s) _ _ Hg)
    as (t2 & R2 & S2 & D2 & F2 & O2).
  set (s1 := set_current_step_idx 0 (set_goals t2 (set_rgbs t1 s))).
  assert (reset s = (Ok tt, s1)) as Hs1.
  { unfold reset. rewrite R1, R2. reflexivity. }
  exists s1. split; [done|].
  destruct (copy_last_to_front_device rgbs set_rgbs s1 (num_envs s) (max_steps s) S1)
    as (u1 & R1' & S1' & D1' & F1' & O1').
  destruct (copy_last_to_front_device goals set_goals (set_rgbs u1 s1)
              (num_envs s) (max_steps s) S2)
    as (u2 & R2' & S2' & D2' & F2' & O2').
  unfold reset. rewrite R1', R2'. unfold modify. f_equal.
  assert (forall {A} (t u : tensor A) (old : tensor A),
            has_shape t (num_envs s) (max_steps s + 1) ->
            has_shape u (num_envs s) (max_steps s + 1) ->
            t_device u = t_device t ->
            (forall b, cell t b 0 = cell old b (max_steps s)) ->
            (forall b k, k <> 0%nat -> cell t b k = cell old b k) ->
            (forall b, cell u b 0 = cell t b (max_steps s)) ->
            (forall b k, k <> 0%nat -> cell u b k = cell t b k) ->
            u = t) as Hsame.
  { intros A t u old St Su Hdev Ft Ot Fu Ou.
    apply (tensor_ext _ _ _ _ Su St Hdev). intros b k.
    destruct (decide (k = 0%nat)) as [->|Hk]; [|by apply Ou].
    rewrite Fu. destruct (decide (max_steps s = 0%nat)) as [->|Hm]; [done|].
    rewrite Ot by done. by rewrite Ft. }
  assert (u1 = t1) as -> by (eapply Hsame; eauto).
  assert (u2 = t2) as -> by (eapply Hsame; eauto).
  reflexivity.
Qed.

End Facts.

End ResetFacts.

(** ** [generate_samples]: the samples *)

Module SampleFacts.

Import Rollout RolloutSpec SegmentSpec SampleSpec TorchFacts SegmentFacts.

(** A slice whose bounds lie within the list. *)
Lemma slice_within {A} (a b : nat) (l : list A) :
  (a <= b <= length l)%nat ->
  slice (Z.of_nat a) (Z.of_nat b) l = take (b - a) (drop a l).
Proof.
  intros H. unfold slice, clamp.
  destruct (Z.ltb_spec (Z.of_nat a) 0); [lia|].
  destruct (Z.ltb_spec (Z.of_nat b) 0); [lia|].
  rewrite !Z.min_l by lia. by rewrite !Nat2Z.id.
Qed.



Lemma segments_app p l1 l2 :
  segments p (l1 ++ l2) = segments p l1 ++ segments (List.last (p :: l1) 0) l2.
Proof.
  revert p. induction l1 as [|d l1 IH]; intros p; [reflexivity|].
  rewrite (last_cons_cons p d l1). rewrite <- app_comm_cons.
  change (segments p (d :: l1 ++ l2)) with ((p + 1, d + 1) :: segments d (l1 ++ l2)).
  by rewrite IH.
Qed.

(** The boundaries of a row whose slot past the horizon is False. *)
Lemma env_boundaries ms row :
  (0 < ms)%nat -> length row = S ms -> row !! ms = Some false ->
  exists bs,
    env_slices ms row = segments (-1) bs
    /\ bs = done_indices ms row ++ closing ms (done_indices ms row)
    /\ increasing_from (-1) bs
    /\ List.last (-1 :: bs) 0 = Z.of_nat ms - 1.
Proof.
  intros Hms Hlen Hlast.
  destruct (env_segments ms row Hms Hlen Hlast) as (_ & Hsl & _).
  destruct (done_indices_spec ms row) as [Hinc Hmem].
  set (ds := done_indices ms row) in *.
  exists (ds ++ closing ms ds). split; [done|]. split; [done|].
  assert (forall d, d ∈ ds -> d <= Z.of_nat ms - 1) as Hub.
  { intros d Hd. apply Hmem in Hd. lia. }
  assert (List.last (-1 :: ds) 0 <= Z.of_nat ms - 1) as Hle.
  { destruct ds as [|d l] eqn:Hds; [simpl; lia|].
    apply Hub. apply last_elem_of. done. }
  rewrite closing_last by done.
  destruct (decide (List.last (-1 :: ds) 0 ≠ Z.of_nat ms - 1)) as [Hne|Heq].
  - split; [apply increasing_snoc; [done|lia]|apply last_snoc].
  - rewrite app_nil_r. split; [done|]. lia.
Qed.

Lemma segments_bounds p bs :
  increasing_from p bs ->
  Forall (fun sl => p + 1 <= sl.1 /\ sl.1 < sl.2 /\ sl.2 <= List.last (p :: bs) 0 + 1)
    (segments p bs).
Proof.
  revert p. induction bs as [|d bs IH]; intros p Hinc; [constructor|].
  destruct Hinc as [Hpd Hinc]. rewrite (last_cons_cons p d bs).
  pose proof (increasing_last_ge d bs Hinc).
  change (segments p (d :: bs)) with ((p + 1, d + 1) :: segments d bs).
  constructor; [cbn [fst snd]; lia|].
  eapply Forall_impl; [apply IH; done|]. cbn beta. intros sl. lia.
Qed.


(** The slice of a segment without done flags before its last step. *)
Lemma slice_flags (a b : Z) (row : list bool) e :
  0 <= a < b -> b <= Z.of_nat (length row) ->
  (forall i, a <= i < b - 1 -> row !! Z.to_nat i = Some false) ->
  row !! Z.to_nat (b - 1) = Some e ->
  slice a b row = replicate (Z.to_nat (b - a - 1)) false ++ [e].
Proof.
  intros Hab Hb Hfalse He.
  replace a with (Z.of_nat (Z.to_nat a)) at 1 by lia.
  replace b with (Z.of_nat (Z.to_nat b)) at 1 by lia.
  rewrite slice_within by lia. apply list_eq. intros i.
  destruct (decide (i < Z.to_nat (b - a - 1))%nat) as [Hi|Hi].
  - rewrite lookup_take_lt by lia. rewrite lookup_drop.
    rewrite lookup_app_l by (rewrite length_replicate; lia).
    rewrite lookup_replicate_2 by lia.
    replace (Z.to_nat a + i)%nat with (Z.to_nat (a + Z.of_nat i)) by lia.
    apply Hfalse. lia.
  - destruct (decide (i = Z.to_nat (b - a - 1))) as [->|Hne].
    + rewrite lookup_take_lt by lia. rewrite lookup_drop.
      rewrite lookup_app_r by (rewrite length_replicate; lia).
      rewrite length_replicate, Nat.sub_diag. simpl.
      replace (Z.to_nat a + Z.to_nat (b - a - 1))%nat with (Z.to_nat (b - 1)) by lia.
      done.
    + rewrite lookup_take_ge by lia. symmetry. apply lookup_ge_None.
      rewrite length_app, length_replicate. simpl. lia.
Qed.

Lemma increasing_lower p bs x : increasing_from p bs -> x ∈ bs -> p < x.
Proof.
  revert p. induction bs as [|d bs IH]; intros p Hinc Hin; [by apply elem_of_nil in Hin|].
  destruct Hinc as [Hpd Hinc]. apply elem_of_cons in Hin as [->|Hin]; [done|].
  specialize (IH d Hinc Hin). lia.
Qed.

(** Between two consecutive boundaries no step is a boundary: when every
    step that is not a boundary has its flag False, each slice is False up
    to its last step. *)
Lemma segments_flags p bs (row : list bool) :
  -1 <= p -> increasing_from p bs ->
  List.last (p :: bs) 0 + 1 <= Z.of_nat (length row) ->
  (forall i, p < i <= List.last (p :: bs) 0 -> i ∉ bs ->
     row !! Z.to_nat i = Some false) ->
  Forall2 (fun v sl => exists e,
             row !! Z.to_nat v = Some e
             /\ slice sl.1 sl.2 row = replicate (Z.to_nat (sl.2 - sl.1 - 1)) false ++ [e])
    bs (segments p bs).
Proof.
  revert p. induction bs as [|d bs IH]; intros p Hp Hinc Hlen Hfalse; [constructor|].
  destruct Hinc as [Hpd Hinc]. rewrite (last_cons_cons p d bs) in Hlen, Hfalse.
  pose proof (increasing_last_ge d bs Hinc) as Hge.
  change (segments p (d :: bs)) with ((p + 1, d + 1) :: segments d bs).
  constructor.
  - destruct (lookup_lt_is_Some_2 row (Z.to_nat d)) as [e He]; [lia|].
    exists e. split; [done|]. cbn [fst snd].
    apply slice_flags; try lia.
    + intros i Hi. apply Hfalse; [lia|].
      intros Hin. apply elem_of_cons in Hin as [->|Hin]; [lia|].
      pose proof (increasing_lower d bs i Hinc Hin). lia.
    + by replace (d + 1 - 1) with d by lia.
  - apply IH; try done; try lia.
    intros i Hi Hin. apply Hfalse; [lia|].
    intros Hin'. apply elem_of_cons in Hin' as [->|Hin']; [lia|done].
Qed.

Section Samples.

Context {E F : Type}.

Abbreviation storage := (@RolloutStorage E F).

Lemma collect_map_ok {A B} (g : A -> B) (l : list A) :
  collect (map (fun a => Ok (g a)) l) = Ok (map g l).
Proof. induction l as [|a l IH]; simpl; [done|]. by rewrite IH. Qed.

(** The samples of one environment, written out. *)
Lemma env_samples_explicit (s : storage) (b : nat) :
  wf_storage s -> (b < num_envs s)%nat ->
  exists r1 r2 r3 r4 r5 r6,
    t_rows (rgbs s) !! b = Some r1 /\ length r1 = S (max_steps s)
    /\ t_rows (goals s) !! b = Some r2 /\ length r2 = S (max_steps s)
    /\ t_rows (actions s) !! b = Some r3 /\ length r3 = S (max_steps s)
    /\ t_rows (rewards s) !! b = Some r4 /\ length r4 = S (max_steps s)
    /\ t_rows (dones s) !! b = Some r5 /\ length r5 = S (max_steps s)
    /\ t_rows (successes s) !! b = Some r6 /\ length r6 = max_steps s
    /\ env_samples s b
       = Ok (map (fun sl => mkSample (slice sl.1 sl.2 r1) (slice sl.1 sl.2 r2)
                             (slice sl.1 sl.2 r3) (slice sl.1 sl.2 r4)
                             (slice sl.1 sl.2 r5) (slice sl.1 sl.2 r6))
               (env_slices (max_steps s) r5)).
Proof.
  intros (Hr & Hg & Ha & Hd & Hs & Hw) Hb.
  destruct (getitem_row_ok _ _ _ b Hr Hb) as (r1 & G1 & L1 & N1).
  destruct (getitem_row_ok _ _ _ b Hg Hb) as (r2 & G2 & L2 & N2).
  destruct (getitem_row_ok _ _ _ b Ha Hb) as (r3 & G3 & L3 & N3).
  destruct (getitem_row_ok _ _ _ b Hw Hb) as (r4 & G4 & L4 & N4).
  destruct (getitem_row_ok _ _ _ b Hd Hb) as (r5 & G5 & L5 & N5).
  destruct (getitem_row_ok _ _ _ b Hs Hb) as (r6 & G6 & L6 & N6).
  exists r1, r2, r3, r4, r5, r6.
  repeat (split; [done || lia|]).
  unfold env_samples. rewrite G5. rewrite <- collect_map_ok. f_equal.
  apply map_ext. intros sl. unfold sample_of, getitem_row_slice.
  by rewrite G1, G2, G3, G4, G5, G6.
Qed.


Lemma env_slices_bounds ms (row : list bool) :
  (0 < ms)%nat -> length row = S ms -> row !! ms = Some false ->
  Forall (fun sl => 0 <= sl.1 /\ sl.1 < sl.2 /\ sl.2 <= Z.of_nat ms) (env_slices ms row).
Proof.
  intros Hms Hlen Hlast.
  destruct (env_boundaries ms row Hms Hlen Hlast) as (bs & -> & _ & Hinc & Hl).
  eapply Forall_impl; [by apply segments_bounds|]. cbn beta. intros sl. lia.
Qed.


(** Each sample is one episode: in its slice of [dones] every flag before
    the last is False, and in every sample but the last of the environment
    the last flag is True. *)
Theorem samples_are_episodes (s : storage) (b : nat) :
  wf_storage s ->
  (0 < max_steps s)%nat ->
  (b < num_envs s)%nat ->
  cell (dones s) b (max_steps s) = Some false ->
  exists samples,
    env_samples s b = Ok samples
    /\ forall i smp, samples !! i = Some smp ->
         exists e, s_dones smp = replicate (length (s_dones smp) - 1) false ++ [e]
                   /\ ((i + 1 < length samples)%nat -> e = true)
                   /\ ((i + 1 = length samples)%nat ->
                       cell (dones s) b (max_steps s - 1) = Some e).
Proof.
  intros Hwf Hms Hb Hcell.
  destruct (env_samples_explicit s b Hwf Hb)
    as (r1 & r2 & r3 & r4 & r5 & r6 & G1 & L1 & G2 & L2 & G3 & L3 & G4 & L4
        & G5 & L5 & G6 & L6 & Hrun).
  assert (r5 !! max_steps s = Some false) as Hlast.
  { unfold cell in Hcell. by rewrite G5 in Hcell. }
  eexists. split; [exact Hrun|].
  destruct (env_boundaries (max_steps s) r5 Hms L5 Hlast) as (bs & Hsl & Hbs & Hinc & Hl).
  destruct (done_indices_spec (max_steps s) r5) as [Hdinc Hmem].
  set (ds := done_indices (max_steps s) r5) in *.
  assert (Forall2 (fun v sl => exists e,
             r5 !! Z.to_nat v = Some e
             /\ slice sl.1 sl.2 r5 = replicate (Z.to_nat (sl.2 - sl.1 - 1)) false ++ [e])
            bs (segments (-1) bs)) as Hflags.
  { apply segments_flags; try done; try lia.
    intros i Hi Hnot. rewrite Hl in Hi.
    destruct (lookup_lt_is_Some_2 r5 (Z.to_nat i)) as [[|] He]; [lia| |done].
    destruct Hnot. rewrite Hbs. apply elem_of_app. left.
    apply Hmem. split; [lia|done]. }
  intros i smp Hi. rewrite Hsl in Hi.
  apply (list_lookup_fmap_Some_1 _ (segments (-1) bs)) in Hi as (sl & Hsmp & Hsli).
  subst smp.
  destruct (Forall2_lookup_r _ _ _ _ _ Hflags Hsli) as (v & Hv & e & He & Hslice).
  exists e. cbn [s_dones]. rewrite Hslice.
  rewrite length_app, length_replicate. simpl.
  replace (Z.to_nat (sl.2 - sl.1 - 1) + 1 - 1)%nat with (Z.to_nat (sl.2 - sl.1 - 1)) by lia.
  split; [done|]. rewrite length_map, Hsl, segments_length.
  assert (length (closing (max_steps s) ds) <= 1)%nat as Hclose.
  { unfold closing. destruct (last ds); [case_decide|]; simpl; lia. }
  split.
  - intros Hnotlast.
    assert (ds !! i = Some v) as Hdsi.
    { rewrite Hbs in Hv. rewrite lookup_app_l in Hv; [done|].
      rewrite Hbs, length_app in Hnotlast. lia. }
    apply list_elem_of_lookup_2 in Hdsi. apply Hmem in Hdsi as [_ Htrue]. congruence.
  - intros Hislast.
    assert (v = Z.of_nat (max_steps s) - 1) as ->.
    { rewrite <- Hl. destruct bs as [|b0 bs'] eqn:Hbseq; [simpl in Hislast; lia|].
      rewrite (last_cons_cons (-1) b0 bs').
      pose proof (last_cons_default b0 bs') as Hld.
      rewrite last_lookup in Hld. simpl length in Hld, Hislast.
      replace (pred (S (length bs'))) with i in Hld by lia. congruence. }
    unfold cell. rewrite G5. simpl.
    by replace (max_steps s - 1)%nat with (Z.to_nat (Z.of_nat (max_steps s) - 1)) by lia.
Qed.

Lemma clamp_le n i : (clamp n i <= n)%nat.
Proof. unfold clamp. destruct (Z.ltb_spec i 0); lia. Qed.

Lemma slice_length_clamp {A} (a b : Z) (l : list A) :
  length (slice a b l) = (clamp (length l) b - clamp (length l) a)%nat.
Proof.
  unfold slice. rewrite length_take, length_drop.
  pose proof (clamp_le (length l) b). lia.
Qed.

Lemma clamp_in n i : 0 <= i -> clamp n i = Z.to_nat (Z.min i (Z.of_nat n)).
Proof. intros H. unfold clamp. destruct (Z.ltb_spec i 0); [lia|done]. Qed.

(** The boundaries of a row whose slot past the horizon is True. *)
Lemma env_slices_spare ms row :
  length row = S ms -> row !! ms = Some true ->
  let ds := done_indices ms row in
  env_slices ms row
  = segments (-1) ds
    ++ [(List.last (-1 :: ds) 0 + 1, Z.of_nat ms + 1); (Z.of_nat ms + 1, Z.of_nat ms)]
  /\ -1 <= List.last (-1 :: ds) 0 <= Z.of_nat ms - 1.
Proof.
  intros Hlen Hlast ds.
  destruct (done_indices_spec ms row) as [Hinc Hmem]. fold ds in Hinc, Hmem.
  assert (where_ row = ds ++ [Z.of_nat ms]) as Hwhere.
  { unfold ds, done_indices, where_.
    rewrite <- (take_drop ms row) at 1. rewrite where_from_app.
    rewrite length_take, Hlen. f_equal.
    replace (0 + Z.of_nat (ms `min` S ms)) with (Z.of_nat ms) by lia.
    rewrite (drop_S _ true ms) by done. rewrite drop_ge by lia. reflexivity. }
  split.
  - unfold env_slices, env_ends. rewrite Hwhere.
    change ([-1] ++ ds ++ [Z.of_nat ms]) with (-1 :: ds ++ [Z.of_nat ms]).
    rewrite last_snoc. rewrite decide_True by lia.
    change ((-1 :: ds ++ [Z.of_nat ms]) ++ [Z.of_nat ms - 1])
      with (-1 :: ((ds ++ [Z.of_nat ms]) ++ [Z.of_nat ms - 1])).
    rewrite slices_of_segments, <- app_assoc, segments_app. simpl.
    by replace (Z.of_nat ms - 1 + 1) with (Z.of_nat ms) by lia.
  - pose proof (increasing_last_ge _ _ Hinc). split; [done|].
    destruct ds as [|d l] eqn:Hds; [simpl; lia|].
    assert (List.last (-1 :: d :: l) 0 ∈ d :: l) as Hin by (by apply last_elem_of).
    apply Hmem in Hin. lia.
Qed.

(** When the slot past the horizon of [dones] holds True for an environment
    (the first insert after construction puts the flags it is given there),
    the environment yields two samples beyond its done steps: one that runs
    to the end of the buffers, with its flags ending in that True and one
    cell less of [successes] than of the other buffers, and an empty one. *)
Theorem spare_flag_adds_samples (s : storage) (b : nat) :
  wf_storage s ->
  (b < num_envs s)%nat ->
  cell (dones s) b (max_steps s) = Some true ->
  exists samples tail_ empty_,
    env_samples s b = Ok (samples ++ [tail_; empty_])
    /\ (forall row, t_rows (dones s) !! b = Some row ->
          length samples = length (done_indices (max_steps s) row))
    /\ empty_ = mkSample [] [] [] [] [] []
    /\ last (s_dones tail_) = Some true
    /\ length (s_goals tail_) = length (s_rgbs tail_)
    /\ length (s_actions tail_) = length (s_rgbs tail_)
    /\ length (s_rewards tail_) = length (s_rgbs tail_)
    /\ length (s_dones tail_) = length (s_rgbs tail_)
    /\ length (s_rgbs tail_) = S (length (s_successes tail_)).
Proof.
  intros Hwf Hb Hcell.
  destruct (env_samples_explicit s b Hwf Hb)
    as (r1 & r2 & r3 & r4 & r5 & r6 & G1 & L1 & G2 & L2 & G3 & L3 & G4 & L4
        & G5 & L5 & G6 & L6 & Hrun).
  assert (r5 !! max_steps s = Some true) as Hlast.
  { unfold cell in Hcell. by rewrite G5 in Hcell. }
  destruct (env_slices_spare (max_steps s) r5 L5 Hlast) as [Hsl Hp].
  set (ds := done_indices (max_steps s) r5) in *.
  set (p := List.last (-1 :: ds) 0) in *.
  rewrite Hsl, map_app in Hrun. cbn [map fst snd] in Hrun.
  assert (forall A (r : list A), (length r <= S (max_steps s))%nat ->
            slice (Z.of_nat (max_steps s) + 1) (Z.of_nat (max_steps s)) r = []) as Hempty.
  { intros A r Hr. apply length_zero_iff_nil. rewrite slice_length_clamp.
    rewrite !clamp_in by lia. lia. }
  rewrite !Hempty in Hrun by lia.
  eexists _, _, _. split; [exact Hrun|].
  split. { intros row Hrow. rewrite G5 in Hrow. inversion Hrow; subst.
           by rewrite length_map, segments_length. }
  split; [done|]. cbn [s_rgbs s_goals s_actions s_rewards s_dones s_successes].
  rewrite !slice_length_clamp, !clamp_in by lia. rewrite L1, L2, L3, L4, L5, L6.
  split; [|lia].
  rewrite last_lookup, slice_length_clamp, !clamp_in by lia. rewrite L5.
  unfold slice. rewrite !clamp_in by lia. rewrite L5.
  rewrite lookup_take_lt by lia. rewrite lookup_drop. rewrite <- Hlast. f_equal. lia.
Qed.

Lemma collect_seq {B} (f : nat -> result B) (P : nat -> B -> Prop) (k n : nat) :
  (forall b, (k <= b < k + n)%nat -> exists y, f b = Ok y /\ P b y) ->
  exists ys, collect (map f (seq k n)) = Ok ys /\ Forall2 P (seq k n) ys.
Proof.
  revert k. induction n as [|n IH]; intros k Hf; simpl.
  - exists []. split; [done|constructor].
  - destruct (Hf k) as (y & Hy & Py); [lia|].
    destruct (IH (S k)) as (ys & Hys & Pys); [intros b Hb; apply Hf; lia|].
    rewrite Hy, Hys. exists (y :: ys). split; [done|]. by constructor.
Qed.




Lemma slice_cells {A} (sl : Z * Z) (l : list A) :
  0 <= sl.1 <= sl.2 -> sl.2 <= Z.of_nat (length l) ->
  slice sl.1 sl.2 l = cells_of sl l.
Proof.
  intros Hab Hb. unfold cells_of.
  replace (sl.1) with (Z.of_nat (Z.to_nat sl.1)) at 1 by lia.
  replace (sl.2) with (Z.of_nat (Z.to_nat sl.2)) at 1 by lia.
  rewrite slice_within by lia. do 2 f_equal. lia.
Qed.

Lemma env_samples_ok (s : storage) (b : nat) :
  wf_storage s -> (b < num_envs s)%nat -> exists samples, env_samples s b = Ok samples.
Proof.
  intros Hwf Hb.
  destruct (env_samples_explicit s b Hwf Hb)
    as (r1 & r2 & r3 & r4 & r5 & r6 & _ & _ & _ & _ & _ & _ & _ & _ & _ & _ & _ & _ & Hrun).
  eauto.
Qed.

(** C1, as the code has it.  For an environment whose row of [dones] holds
    False in the slot past the horizon (index [max_steps]): the done indices
    [d1 < ... < dk] lie in [[0, max_steps - 1]]; the boundaries are [-1], the
    done indices, and [max_steps - 1] unless [dk] is already there; the
    slices are exactly the segments [(-1, d1], ..., (dk, max_steps - 1]],
    [k + 1] of them when no done index is [max_steps - 1] and [k] otherwise,
    one segment [[0, max_steps - 1]] when [k = 0]; no segment is empty and,
    listed in order, their indices are [0, 1, ..., max_steps - 1].  What
    [generate_samples] returns holds, at the place of this environment,
    exactly one sample per segment, in the order of the segments, and the
    sample of a segment is made of the cells of the six buffers of the
    environment at the step indices of the segment: the six sequences
    returned are the six fields of the samples of all environments, one
    environment after the other. *)
Theorem generate_samples_segments (s : storage) (b : nat) :
  wf_storage s ->
  (0 < max_steps s)%nat ->
  (b < num_envs s)%nat ->
  cell (dones s) b (max_steps s) = Some false ->
  exists row,
    getitem_row (dones s) b = Ok row
    /\ increasing_from (-1) (done_indices (max_steps s) row)
    /\ (forall d, d ∈ done_indices (max_steps s) row <->
          0 <= d <= Z.of_nat (max_steps s) - 1 /\ row !! Z.to_nat d = Some true)
    /\ segments_claim (max_steps s) row
    /\ exists samples,
         env_samples s b = Ok samples
         /\ Forall2 (fun sl smp => sample_of s b sl = Ok smp)
              (env_slices (max_steps s) row) samples
         /\ Forall2 (sample_cut s b)
              (segments (-1) (done_indices (max_steps s) row
                              ++ closing (max_steps s) (done_indices (max_steps s) row)))
              samples
         /\ exists per_env,
              Forall2 (fun e smps => env_samples s e = Ok smps)
                (seq 0 (num_envs s)) per_env
              /\ per_env !! b = Some samples
              /\ generate_samples s
                 = Ok (map s_rgbs (concat per_env), map s_goals (concat per_env),
                       map s_actions (concat per_env), map s_rewards (concat per_env),
                       map s_dones (concat per_env), map s_successes (concat per_env)).
Proof.
  intros Hwf Hms Hb Hcell.
  destruct (env_segments_and_samples s b Hwf Hms Hb Hcell)
    as (row & Hrow & Hinc & Hmem & Hclaim & samples & Hrun & Hall).
  exists row. do 4 (split; [done|]).
  exists samples. split; [done|]. split; [done|].
  destruct (env_samples_explicit s b Hwf Hb)
    as (r1 & r2 & r3 & r4 & r5 & r6 & G1 & L1 & G2 & L2 & G3 & L3 & G4 & L4
        & G5 & L5 & G6 & L6 & Hexp).
  assert (r5 = row) as ->.
  { unfold getitem_row in Hrow. rewrite G5 in Hrow. by inversion Hrow. }
  assert (row !! max_steps s = Some false) as Hlast.
  { unfold cell in Hcell. by rewrite G5 in Hcell. }
  rewrite Hrun in Hexp. inversion Hexp as [Hsamples]. clear Hexp.
  pose proof Hclaim as (_ & Hslices & _).
  split.
  - rewrite <- Hslices. apply Forall2_fmap_r, Forall_Forall2_diag.
    eapply Forall_impl; [by apply (env_slices_bounds (max_steps s) row)|].
    cbn beta. intros sl (H1 & H2 & H3).
    unfold compose, sample_cut. rewrite G1, G2, G3, G4, G5, G6.
    cbn [fmap option_fmap option_map s_rgbs s_goals s_actions s_rewards s_dones
         s_successes].
    rewrite !slice_cells by lia. done.
  - destruct (collect_seq (env_samples s) (fun e smps => env_samples s e = Ok smps)
                0 (num_envs s)) as (per_env & Hcollect & Hper).
    { intros e He. destruct (env_samples_ok s e Hwf) as [y Hy]; [lia|]. eauto. }
    exists per_env. split; [done|]. split.
    + destruct (Forall2_lookup_l _ _ _ b b Hper) as (y & Hy & Hyb).
      { apply lookup_seq. split; lia. }
      rewrite Hy. congruence.
    + unfold generate_samples, all_samples. by rewrite Hcollect.
Qed.

End Samples.

End SampleFacts.

(** ** [train_bc_step]: how it ends, and the passes *)

Module PassFacts.

Import BC StepReturn ConfigSpec StepSpec PassSpec RunFacts ConfigFacts StepFacts.

Local Open Scope nat_scope.

Lemma for_each_ext {S A} (l : list A) (f g : A -> M S unit) :
  (forall a s, f a s = g a s) -> forall s, for_each l f s = for_each l g s.
Proof.
  intros Hfg. induction l as [|a l IH]; intros s; simpl; [done|].
  unfold bind. rewrite Hfg. destruct (g a s) as [[[]|e] s1]; [apply IH|done].
Qed.

Lemma bind_cong {S A B} (c c' : M S A) (k : A -> M S B) s :
  c s = c' s -> (c ≫= k) s = (c' ≫= k) s.
Proof. unfold mbind, M_bind, bind. by intros ->. Qed.

Lemma for_each_app {S A} (l1 l2 : list A) (body : A -> M S unit) s :
  for_each (l1 ++ l2) body s
  = match for_each l1 body s with
    | (Ok _, s1) => for_each l2 body s1
    | (Raise e, s1) => (Raise e, s1)
    end.
Proof.
  revert s. induction l1 as [|a l1 IH]; intros s; simpl; [done|].
  unfold bind. destruct (body a s) as [[[]|e] s1]; [apply IH|done].
Qed.

(** [range(0, nm, nga)] for any bound: one start per chunk begun. *)
Lemma range_step_chunks nm nga :
  nga <> 0 ->
  range_step 0 nm nga
  = Ok (map (fun i => i * nga)
          (seq 0 (if decide (nm mod nga = 0) then nm / nga else S (nm / nga)))).
Proof.
  intros Hg. unfold range_step. destruct nga as [|n]; [done|]. f_equal.
  rewrite Nat.sub_0_r. replace (S n - 1) with n by lia.
  pose proof (Nat.div_mod_eq nm (S n)) as Hdm.
  pose proof (Nat.mod_upper_bound nm (S n) Hg) as Hlt.
  set (q := nm / S n) in *. set (r := nm mod S n) in *.
  assert ((nm + n) / S n = if decide (r = 0) then q else S q) as ->.
  { destruct (decide (r = 0)) as [Hr|Hr].
    - rewrite Hdm, Hr, Nat.add_0_r, (Nat.mul_comm (S n) q), Nat.div_add_l by done.
      rewrite Nat.div_small by lia. lia.
    - replace (nm + n) with ((r - 1) + S q * S n) by lia.
      rewrite Nat.div_add by done. rewrite Nat.div_small by lia. lia. }
  apply map_ext. intros i. lia.
Qed.

(** A chunk that reaches past the last row: the passes on the rows that
    exist run, none of them synchronised, and the next one raises. *)
Lemma chunk_cut cfg nm mb r tr :
  mb + r = nm -> r < num_grad_accums cfg ->
  (for_each (seq 0 (num_grad_accums cfg)) (fun g =>
      lift (row_check nm (mb + g));;
      if decide (g < num_grad_accums cfg - 1)
      then emit (Backward false (mb + g))
      else emit (Backward true (mb + g)));;
    match max_grad_norm cfg with
    | Some _ => emit ClipGrad
    | None => mret tt
    end;;
    emit OptimStep;;
    emit ZeroGrad) tr
  = (Raise IndexError, tr ++ partial_chunk mb r).
Proof.
  intros Hnm Hr. apply bind_raise.
  replace (num_grad_accums cfg) with (r + S (num_grad_accums cfg - S r)) at 1 by lia.
  rewrite seq_app, for_each_app.
  rewrite (for_each_trace _ _ (fun g => [Backward false (mb + g)])).
  - replace (concat (map (fun g => [Backward false (mb + g)]) (seq 0 r)))
      with (partial_chunk mb r).
    2:{ unfold partial_chunk. induction (seq 0 r); simpl; congruence. }
    simpl. unfold bind at 1. unfold mbind, M_bind, bind, lift, row_check.
    by rewrite decide_False by lia.
  - apply Forall_forall. intros g Hg tr'. apply elem_of_seq in Hg.
    erewrite bind_ok.
    2:{ unfold lift, row_check. rewrite decide_True by lia. reflexivity. }
    by rewrite decide_True by lia.
Qed.

(** The run of [train_bc_step] once the minibatch size is not zero, the
    batch can be viewed as minibatch rows, and the chunk length is not
    zero. *)
Lemma train_bc_step_trace cfg n_sub tr :
  let nm := batch_size cfg / minibatch_size cfg in
  let q := nm / num_grad_accums cfg in
  let r := nm mod num_grad_accums cfg in
  minibatch_size cfg <> 0 ->
  nm * minibatch_size cfg = n_sub ->
  num_grad_accums cfg <> 0 ->
  train_bc_step cfg n_sub tr
  = if decide (r = 0) then (Ok tt, tr ++ complete_chunks cfg q)
    else (Raise IndexError,
          tr ++ complete_chunks cfg q ++ partial_chunk (q * num_grad_accums cfg) r).
Proof.
  intros nm q r Hm Hview Hg. unfold train_bc_step. fold nm.
  erewrite bind_ok.
  2:{ unfold lift, floordiv. rewrite decide_False by done. reflexivity. }
  fold nm. erewrite bind_ok.
  2:{ unfold lift, view_check. rewrite decide_True by done. reflexivity. }
  erewrite bind_ok.
  2:{ unfold lift. rewrite range_step_chunks by done. reflexivity. }
  pose proof (Nat.div_mod_eq nm (num_grad_accums cfg)) as Hdm.
  pose proof (Nat.mod_upper_bound nm (num_grad_accums cfg) Hg) as Hlt.
  fold q r in Hdm, Hlt |- *.
  assert (forall tr', for_each (map (fun i => i * num_grad_accums cfg) (seq 0 q))
            (fun mb =>
               for_each (seq 0 (num_grad_accums cfg)) (fun g =>
                 lift (row_check nm (mb + g));;
                 if decide (g < num_grad_accums cfg - 1)
                 then emit (Backward false (mb + g))
                 else emit (Backward true (mb + g)));;
               match max_grad_norm cfg with
               | Some _ => emit ClipGrad
               | None => mret tt
               end;;
               emit OptimStep;;
               emit ZeroGrad) tr'
          = (Ok tt, tr' ++ complete_chunks cfg q)) as Hfull.
  { intros tr'. rewrite (for_each_trace _ _ (chunk_trace cfg)).
    - unfold complete_chunks. by rewrite map_map.
    - apply Forall_forall. intros mb Hmb tr''.
      apply list_elem_of_fmap in Hmb as (i & -> & Hi). apply elem_of_seq in Hi.
      apply chunk_run. nia. }
  destruct (decide (r = 0)) as [Hr|Hr].
  - apply Hfull.
  - rewrite seq_S, map_app, for_each_app, Hfull. simpl.
    unfold bind at 1.
    rewrite (chunk_cut cfg nm (q * num_grad_accums cfg) r) by lia.
    by rewrite <- app_assoc.
Qed.

Lemma elem_of_concat {A} (x : A) (ls : list (list A)) :
  x ∈ concat ls -> exists l, x ∈ l /\ l ∈ ls.
Proof.
  induction ls as [|l ls IH]; simpl; intros H; [by apply elem_of_nil in H|].
  apply elem_of_app in H as [H|H].
  - exists l. split; [done|apply list_elem_of_here].
  - destruct (IH H) as (l' & ? & ?). exists l'. split; [done|by apply list_elem_of_further].
Qed.

Lemma passes_app t1 t2 : passes (t1 ++ t2) = passes t1 ++ passes t2.
Proof. apply omap_app. Qed.

Lemma passes_backwards (f : nat -> bool) mb n :
  passes (map (fun g => Backward (f g) (mb + g)) (seq 0 n)) = seq mb n.
Proof.
  unfold passes. replace (seq mb n) with (seq (mb + 0) n) by (f_equal; lia).
  generalize 0 as k. induction n as [|n IH]; intros k; simpl; [done|].
  rewrite IH. do 2 f_equal. lia.
Qed.

Lemma passes_chunk cfg mb : passes (chunk_trace cfg mb) = seq mb (num_grad_accums cfg).
Proof.
  unfold chunk_trace. rewrite !passes_app.
  rewrite (passes_backwards (fun g => negb (g <? num_grad_accums cfg - 1))).
  destruct (max_grad_norm cfg); simpl; by rewrite app_nil_r.
Qed.

Lemma passes_complete cfg q :
  passes (complete_chunks cfg q) = seq 0 (q * num_grad_accums cfg).
Proof.
  unfold complete_chunks. induction q as [|q IH]; [done|].
  rewrite seq_S, map_app, concat_app, passes_app, IH. simpl.
  rewrite app_nil_r, passes_chunk.
  replace (num_grad_accums cfg + q * num_grad_accums cfg)
    with (q * num_grad_accums cfg + num_grad_accums cfg) by lia.
  by rewrite seq_app.
Qed.

Lemma passes_partial mb r : passes (partial_chunk mb r) = seq mb r.
Proof. apply (passes_backwards (fun _ => false)). Qed.

Lemma partial_counts mb r :
  count is_backward (partial_chunk mb r) = r
  /\ count is_synchronized (partial_chunk mb r) = 0
  /\ count is_optim_step (partial_chunk mb r) = 0
  /\ count is_zero_grad (partial_chunk mb r) = 0.
Proof.
  unfold partial_chunk, count.
  assert (forall l : list nat,
    let tr := map (fun g => Backward false (mb + g)) l in
    length (List.filter is_backward tr) = length l
    /\ length (List.filter is_synchronized tr) = 0
    /\ length (List.filter is_optim_step tr) = 0
    /\ length (List.filter is_zero_grad tr) = 0) as Hgen.
  { induction l as [|g l (B & Sy & O & Z)]; simpl; [done|].
    simpl in B, Sy, O, Z. rewrite B, Sy, O, Z. done. }
  specialize (Hgen (seq 0 r)). simpl in Hgen. by rewrite length_seq in Hgen.
Qed.

Lemma complete_counts cfg q :
  num_grad_accums cfg <> 0 ->
  count is_backward (complete_chunks cfg q) = q * num_grad_accums cfg
  /\ count is_synchronized (complete_chunks cfg q) = q
  /\ count is_optim_step (complete_chunks cfg q) = q
  /\ count is_zero_grad (complete_chunks cfg q) = q.
Proof.
  intros Hg. unfold complete_chunks.
  rewrite (count_concat_const is_backward _ _ (num_grad_accums cfg))
    by (intros; by apply chunk_counts).
  rewrite (count_concat_const is_synchronized _ _ 1)
    by (intros; by apply chunk_counts).
  rewrite (count_concat_const is_optim_step _ _ 1)
    by (intros; by apply chunk_counts).
  rewrite (count_concat_const is_zero_grad _ _ 1)
    by (intros; by apply chunk_counts).
  rewrite length_seq. lia.
Qed.

(** How the loops of [train_bc_step] end when every pass returns. *)
Lemma loops_outcome (cfg : train_config) (n_sub : nat) (tr : list event) :
  let nm := batch_size cfg / minibatch_size cfg in
  exists tr',
    train_bc_step cfg n_sub tr
    = (if decide (minibatch_size cfg = 0) then Raise ZeroDivisionError
       else if decide (nm * minibatch_size cfg <> n_sub) then Raise RuntimeError
       else if decide (num_grad_accums cfg = 0) then Raise ValueError
       else if decide (nm mod num_grad_accums cfg = 0) then Ok tt
       else Raise IndexError, tr')
    /\ (minibatch_size cfg = 0 \/ nm * minibatch_size cfg <> n_sub
        \/ num_grad_accums cfg = 0 -> tr' = tr).
Proof.
  intros nm.
  destruct (decide (minibatch_size cfg = 0)) as [Hm|Hm].
  { exists tr. split; [|done]. unfold train_bc_step.
    apply bind_raise. unfold lift, floordiv. by rewrite decide_True. }
  destruct (decide (nm * minibatch_size cfg <> n_sub)) as [Hv|Hv].
  { exists tr. split; [|done]. unfold train_bc_step.
    erewrite bind_ok.
    2:{ unfold lift, floordiv. rewrite decide_False by done. reflexivity. }
    apply bind_raise. unfold lift, view_check. by rewrite decide_False. }
  assert (nm * minibatch_size cfg = n_sub) as Hview by lia.
  destruct (decide (num_grad_accums cfg = 0)) as [Hg|Hg].
  { exists tr. split; [|done]. unfold train_bc_step.
    erewrite bind_ok.
    2:{ unfold lift, floordiv. rewrite decide_False by done. reflexivity. }
    erewrite bind_ok.
    2:{ unfold lift, view_check. fold nm. rewrite decide_True by done. reflexivity. }
    apply bind_raise. unfold lift. by rewrite Hg. }
  rewrite (train_bc_step_trace cfg n_sub tr Hm Hview Hg). fold nm.
  destruct (decide (nm mod num_grad_accums cfg = 0)); eexists; (split; [reflexivity|]);
    intros [?|[?|?]]; done.
Qed.

(** When every pass on a row that exists returns, the whole function does
    what its loops do and then averages the loss. *)
Lemma train_bc_step_return_run pass cfg n_sub tr :
  (forall mb, mb < batch_size cfg / minibatch_size cfg -> pass mb = Ok tt) ->
  train_bc_step_return pass cfg n_sub tr
  = (train_bc_step cfg n_sub;;
     lift (average_loss (batch_size cfg / minibatch_size cfg))) tr.
Proof.
  intros Hpass.
  set (nm := batch_size cfg / minibatch_size cfg) in *.
  assert (forall chunks s,
    for_each chunks (fun mb =>
      for_each (seq 0 (num_grad_accums cfg)) (fun g =>
        lift (row_check nm (mb + g));;
        lift (pass (mb + g));;
        if decide (g < num_grad_accums cfg - 1)
        then emit (Backward false (mb + g))
        else emit (Backward true (mb + g)));;
      match max_grad_norm cfg with
      | Some _ => emit ClipGrad
      | None => mret tt
      end;;
      emit OptimStep;;
      emit ZeroGrad) s
    = for_each chunks (fun mb =>
      for_each (seq 0 (num_grad_accums cfg)) (fun g =>
        lift (row_check nm (mb + g));;
        if decide (g < num_grad_accums cfg - 1)
        then emit (Backward false (mb + g))
        else emit (Backward true (mb + g)));;
      match max_grad_norm cfg with
      | Some _ => emit ClipGrad
      | None => mret tt
      end;;
      emit OptimStep;;
      emit ZeroGrad) s) as Hbody.
  { intros chunks s. apply for_each_ext. intros mb s'.
    apply bind_cong. apply for_each_ext. intros g s''.
    unfold mbind, M_bind, bind, lift, row_check.
    destruct (decide (mb + g < nm)) as [Hrow|Hrow]; [|done].
    by rewrite (Hpass _ Hrow). }
  unfold train_bc_step_return, train_bc_step. fold nm.
  unfold mbind, M_bind, bind, lift in Hbody |- *.
  destruct (floordiv (batch_size cfg) (minibatch_size cfg)) as [nm'|e] eqn:Hdiv; [|done].
  assert (nm' = nm) as ->.
  { unfold floordiv in Hdiv. destruct (decide (minibatch_size cfg = 0)); [done|].
    by inversion Hdiv. }
  destruct (view_check n_sub nm (minibatch_size cfg)) as [[]|e]; [|done].
  destruct (range_step 0 nm (num_grad_accums cfg)) as [chunks|e]; [|done].
  by rewrite Hbody.
Qed.

(** How [train_bc_step] ends, for every configuration and every number
    [n_sub] of sub-sequences, when the construction of each minibatch and
    each forward computation return: a zero minibatch size is a
    ZeroDivisionError, a batch that cannot be viewed as [num_minibatches]
    rows of [minibatch_size] a RuntimeError, a zero [num_grad_accums] a
    ValueError (all three before any pass has run), a [num_grad_accums] that
    does not divide the number of minibatches an IndexError; a batch of no
    minibatch at all goes through the loops without a pass and raises
    ZeroDivisionError where the loss is averaged; otherwise the step
    returns. *)
Theorem train_bc_step_outcome (pass : nat -> result unit) (cfg : train_config)
    (n_sub : nat) (tr : list event) :
  let nm := batch_size cfg / minibatch_size cfg in
  (forall mb, mb < nm -> pass mb = Ok tt) ->
  exists tr',
    train_bc_step_return pass cfg n_sub tr
    = (if decide (minibatch_size cfg = 0) then Raise ZeroDivisionError
       else if decide (nm * minibatch_size cfg <> n_sub) then Raise RuntimeError
       else if decide (num_grad_accums cfg = 0) then Raise ValueError
       else if decide (nm mod num_grad_accums cfg <> 0) then Raise IndexError
       else if decide (nm = 0) then Raise ZeroDivisionError
       else Ok tt, tr')
    /\ (minibatch_size cfg = 0 \/ nm * minibatch_size cfg <> n_sub
        \/ num_grad_accums cfg = 0 \/ nm = 0 -> tr' = tr)
    /\ (minibatch_size cfg <> 0 -> nm * minibatch_size cfg = n_sub ->
        num_grad_accums cfg <> 0 -> nm mod num_grad_accums cfg = 0 ->
        tr' = tr ++ complete_chunks cfg (nm / num_grad_accums cfg)).
Proof.
  intros nm Hpass. rewrite (train_bc_step_return_run pass cfg n_sub tr Hpass). fold nm.
  destruct (loops_outcome cfg n_sub tr) as (tr1 & Hloops & Hsame).
  cbv zeta in Hloops. fold nm in Hloops, Hsame.
  unfold mbind, M_bind, bind. rewrite Hloops.
  destruct (decide (minibatch_size cfg = 0)) as [Hm|Hm].
  { exists tr1. split; [done|]. split; [intros _; apply Hsame; tauto|done]. }
  destruct (decide (nm * minibatch_size cfg <> n_sub)) as [Hv|Hv].
  { exists tr1. split; [done|]. split; [intros _; apply Hsame; tauto|done]. }
  destruct (decide (num_grad_accums cfg = 0)) as [Hg|Hg].
  { exists tr1. split; [done|]. split; [intros _; apply Hsame; tauto|done]. }
  assert (nm * minibatch_size cfg = n_sub) as Hview by lia.
  pose proof (train_bc_step_trace cfg n_sub tr Hm Hview Hg) as Htrace.
  cbv zeta in Htrace. fold nm in Htrace. rewrite Hloops in Htrace.
  destruct (decide (nm mod num_grad_accums cfg = 0)) as [Hr|Hr].
  - rewrite decide_False by lia. inversion Htrace as [Htr1].
    unfold lift, average_loss.
    destruct (decide (nm = 0)) as [Hz|Hz].
    + exists (tr ++ complete_chunks cfg (nm / num_grad_accums cfg)).
      split; [done|]. split; [|done]. intros _. rewrite Hz. simpl.
      rewrite Nat.Div0.div_0_l. unfold complete_chunks. simpl. apply app_nil_r.
    + exists (tr ++ complete_chunks cfg (nm / num_grad_accums cfg)).
      split; [done|]. split; [|done]. intros [?|[?|[?|?]]]; done.
  - rewrite decide_True by done. exists tr1. split; [done|]. split; [|done].
    intros [?|[?|[?|Hz]]]; try done. rewrite Hz in Hr.
    by rewrite Nat.Div0.mod_0_l in Hr.
Qed.

(** When [num_grad_accums] does not divide the number of minibatches (the
    step was reached without [validate_config]), the whole chunks run with
    their optimizer steps, the passes of the last, partial chunk run without
    synchronisation, and the step raises IndexError: the gradients of those
    passes are never applied and never zeroed. *)
Theorem partial_chunk_is_never_applied (cfg : train_config) (n_sub : nat)
    (tr : list event) :
  let nm := batch_size cfg / minibatch_size cfg in
  let q := nm / num_grad_accums cfg in
  let r := nm mod num_grad_accums cfg in
  minibatch_size cfg <> 0 ->
  nm * minibatch_size cfg = n_sub ->
  num_grad_accums cfg <> 0 ->
  r <> 0 ->
  exists trace,
    train_bc_step cfg n_sub tr = (Raise IndexError, tr ++ trace)
    /\ trace = complete_chunks cfg q ++ partial_chunk (q * num_grad_accums cfg) r
    /\ count is_optim_step trace = q
    /\ count is_zero_grad trace = q
    /\ count is_backward trace = nm
    /\ count is_synchronized trace = q
    /\ passes trace = seq 0 nm.
Proof.
  intros nm q r Hm Hview Hg Hr.
  pose proof (train_bc_step_trace cfg n_sub tr Hm Hview Hg) as Hrun.
  fold nm q r in Hrun. rewrite decide_False in Hrun by done.
  eexists. split; [exact Hrun|]. split; [done|].
  destruct (complete_counts cfg q Hg) as (B & Sy & O & Z).
  destruct (partial_counts (q * num_grad_accums cfg) r) as (B' & Sy' & O' & Z').
  rewrite !count_app, B, Sy, O, Z, B', Sy', O', Z'.
  pose proof (Nat.div_mod_eq nm (num_grad_accums cfg)) as Hdm. fold q r in Hdm.
  repeat split; try lia.
  rewrite passes_app, passes_complete, passes_partial.
  rewrite <- seq_app. f_equal. lia.
Qed.

(** Under a valid configuration every minibatch row of the permuted batch
    goes through exactly one pass, in the order of the rows, and the pass on
    row [mb] is synchronised exactly when it closes a chunk, that is when
    [mb + 1] is a multiple of [num_grad_accums]. *)
Theorem every_minibatch_in_one_pass (cfg : train_config) :
  valid_config cfg ->
  let nm := batch_size cfg / minibatch_size cfg in
  exists trace,
    train_bc_step cfg (batch_size cfg) [] = (Ok tt, trace)
    /\ passes trace = seq 0 nm
    /\ forall sync mb, Backward sync mb ∈ trace ->
         (sync = true <-> (mb + 1) mod num_grad_accums cfg = 0).
Proof.
  intros [[Hm Hmod] [Hg Hmod2]] nm. fold nm in Hmod2.
  assert (nm * minibatch_size cfg = batch_size cfg) as Hview.
  { apply Nat.Div0.div_exact in Hmod. fold nm in Hmod. lia. }
  pose proof (train_bc_step_trace cfg (batch_size cfg) [] Hm Hview Hg) as Hrun.
  fold nm in Hrun. rewrite decide_True in Hrun by done.
  eexists. split; [exact Hrun|]. simpl.
  apply Nat.Div0.div_exact in Hmod2.
  split. { rewrite passes_complete. f_equal. lia. }
  intros sync mb Hin. unfold complete_chunks in Hin.
  apply elem_of_concat in Hin as (chunk & Hin & Hchunk).
  apply list_elem_of_fmap in Hchunk as (i & -> & _).
  unfold chunk_trace in Hin. apply elem_of_app in Hin as [Hin|Hin].
  - apply list_elem_of_fmap in Hin as (g & Heq & Hgin). apply elem_of_seq in Hgin.
    inversion Heq; subst. clear Heq.
    replace (i * num_grad_accums cfg + g + 1)
      with ((g + 1) + i * num_grad_accums cfg) by lia.
    rewrite Nat.Div0.mod_add.
    destruct (Nat.ltb_spec g (num_grad_accums cfg - 1)); simpl.
    + rewrite Nat.mod_small by lia. split; [done|lia].
    + replace (g + 1) with (num_grad_accums cfg) by lia.
      by rewrite Nat.Div0.mod_same.
  - exfalso. destruct (max_grad_norm cfg); simpl in Hin;
      repeat (apply elem_of_cons in Hin as [Hin|Hin]; [discriminate|]);
      by apply elem_of_nil in Hin.
Qed.

End PassFacts.

(** ** [train]: counters and checkpoints *)

Module TrainFacts.

Import BC Train TrainSpec CheckpointSpec RunFacts CheckpointFacts.

Local Open Scope nat_scope.

Section Facts.

Context {W : Type}.
Context {Optim OptimSD Sched SchedSD Sampler SamplerSD : Type}.
Context `{!Stateful Optim OptimSD, !Stateful Sched SchedSD,
          !Stateful Sampler SamplerSD}.

Abbreviation trainer := (@trainer W Optim OptimSD Sched SchedSD Sampler SamplerSD).

Context {Batch : Type} (learn : Batch -> M (@learner W Optim Sched Sampler) unit)
        (frames_of : Batch -> nat).

Lemma update_cumstats_run (s : trainer) frames total :
  cumstats s !! "metrics/total_frames" = Some total ->
  update_cumstats frames s
  = (Ok tt, set_cumstats (<["metrics/total_frames" := total + frames]>
                            (<["epoch" := epoch s]> (<["step" := step s]> (cumstats s)))) s).
Proof.
  intros Htot. unfold update_cumstats.
  rewrite gets_bind. erewrite bind_ok; [|reflexivity].
  rewrite gets_bind. erewrite bind_ok; [|reflexivity].
  rewrite gets_bind. erewrite bind_ok.
  2:{ unfold lift, getitem. simpl.
      rewrite lookup_insert_ne by done. rewrite lookup_insert_ne by done.
      rewrite Htot. reflexivity. }
  reflexivity.
Qed.

Lemma save_if_due_run rank0 (s : trainer) :
  (rank0 = true -> ckpt_freq (config s) <> 0) ->
  save_if_due rank0 s
  = (Ok tt,
     if rank0 && (step s mod ckpt_freq (config s) =? 0)
     then set_files (<[step s / ckpt_freq (config s) := snapshot s]> (files s)) s
     else s).
Proof.
  intros Hf. unfold save_if_due. destruct rank0; [|reflexivity].
  specialize (Hf eq_refl). rewrite gets_bind. erewrite bind_ok.
  2:{ unfold lift, modulo. rewrite decide_False by done. reflexivity. }
  simpl. destruct (step s mod ckpt_freq (config s) =? 0).
  - by apply save_checkpoint_run.
  - reflexivity.
Qed.

Lemma train_iteration_run rank0 b (s : trainer) l' total :
  learn b (get_learner s) = (Ok tt, l') ->
  cumstats s !! "metrics/total_frames" = Some total ->
  (rank0 = true -> ckpt_freq (config s) <> 0) ->
  let s1 := learned l' (frames_of b) total s in
  train_iteration learn frames_of rank0 b s
  = (Ok tt,
     set_step (step s + 1)
       (if rank0 && (step s mod ckpt_freq (config s) =? 0)
        then set_files (<[step s / ckpt_freq (config s) := snapshot s1]> (files s)) s1
        else s1)).
Proof.
  intros Hl Htot Hf s1. unfold train_iteration.
  erewrite bind_ok; [|by apply zoom_run].
  erewrite bind_ok; [|by apply update_cumstats_run].
  erewrite bind_ok; [|by apply (save_if_due_run rank0)].
  unfold modify. subst s1. unfold learned. simpl.
  destruct (rank0 && (step s mod ckpt_freq (config s) =? 0)); reflexivity.
Qed.

Hypothesis learn_returns : forall b l, exists l', learn b l = (Ok tt, l').

Lemma batches_run rank0 (batches : list Batch) (s : trainer) total :
  cumstats s !! "metrics/total_frames" = Some total ->
  (rank0 = true -> ckpt_freq (config s) <> 0) ->
  exists s',
    for_each batches (train_iteration learn frames_of rank0) s = (Ok tt, s')
    /\ step s' = step s + length batches
    /\ epoch s' = epoch s
    /\ config s' = config s
    /\ cumstats s' !! "metrics/total_frames"
       = Some (total + frames_total frames_of batches)
    /\ (batches <> [] ->
        cumstats s' !! "step" = Some (step s + length batches - 1)
        /\ cumstats s' !! "epoch" = Some (epoch s))
    /\ forall k,
         (rank0 = true /\ due (ckpt_freq (config s)) (step s) (length batches) k ->
          exists obj, files s' !! k = Some obj
                      /\ so_stats obj !! "step" = Some (k * ckpt_freq (config s))
                      /\ so_stats obj !! "epoch" = Some (epoch s)
                      /\ so_config obj = config s)
         /\ (~ (rank0 = true /\ due (ckpt_freq (config s)) (step s) (length batches) k) ->
             files s' !! k = files s !! k).
Proof.
  revert s total. induction batches as [|b batches IH]; intros s total Htot Hf.
  - exists s. simpl. split; [done|]. split; [lia|]. split; [done|]. split; [done|].
    split; [by rewrite Nat.add_0_r|]. split; [done|].
    intros k. split; [|done]. intros [_ Hdue]. unfold due in Hdue. lia.
  - destruct (learn_returns b (get_learner s)) as [l' Hl].
    pose proof (train_iteration_run rank0 b s l' total Hl Htot Hf) as Hrun.
    cbv zeta in Hrun.
    set (s1 := learned l' (frames_of b) total s) in *.
    set (s2 := set_step (step s + 1)
                 (if rank0 && (step s mod ckpt_freq (config s) =? 0)
                  then set_files (<[step s / ckpt_freq (config s) := snapshot s1]>
                                    (files s)) s1
                  else s1)) in *.
    assert (step s2 = step s + 1) as Hstep by reflexivity.
    assert (epoch s2 = epoch s) as Hepoch
      by (unfold s2; destruct (rank0 && _); reflexivity).
    assert (config s2 = config s) as Hconfig
      by (unfold s2; destruct (rank0 && _); reflexivity).
    assert (cumstats s2 = cumstats s1) as Hstats
      by (unfold s2; destruct (rank0 && _); reflexivity).
    assert (cumstats s1 !! "metrics/total_frames" = Some (total + frames_of b)) as Htot1
      by apply lookup_insert_eq.
    assert (cumstats s1 !! "step" = Some (step s)) as Hst1.
    { unfold s1, learned. simpl. rewrite lookup_insert_ne by done.
      rewrite lookup_insert_ne by done. apply lookup_insert_eq. }
    assert (cumstats s1 !! "epoch" = Some (epoch s)) as Hep1.
    { unfold s1, learned. simpl. rewrite lookup_insert_ne by done.
      apply lookup_insert_eq. }
    destruct (IH s2 (total + frames_of b)) as (s' & Hrest & S' & E' & C' & T' & L' & F').
    { by rewrite Hstats. }
    { by rewrite Hconfig. }
    exists s'. split.
    { simpl. unfold bind. by rewrite Hrun. }
    rewrite Hstep in S'. rewrite Hepoch in E'. rewrite Hconfig in C'.
    split; [simpl; lia|]. split; [done|]. split; [done|].
    split. { rewrite T'. simpl. f_equal. lia. }
    split.
    { intros _. destruct batches as [|b' batches'].
      - simpl in Hrest. inversion Hrest; subst s'. rewrite Hstats. simpl.
        replace (step s + 1 - 1) with (step s) by lia. done.
      - destruct L' as [L1 L2]; [done|]. rewrite L1, L2, Hstep, Hepoch.
        split; [f_equal; simpl; lia|done]. }
    intros k. destruct (F' k) as [Fdue Fnot].
    rewrite Hconfig, Hstep, Hepoch in Fdue. rewrite Hconfig, Hstep in Fnot.
    assert (files s2 = if rank0 && (step s mod ckpt_freq (config s) =? 0)
                       then <[step s / ckpt_freq (config s) := snapshot s1]> (files s)
                       else files s) as Hfiles2
      by (unfold s2; destruct (rank0 && _); reflexivity).
    unfold due in *. simpl length.
    destruct (decide (rank0 = true /\ step s + 1 <= k * ckpt_freq (config s)
                      < step s + 1 + length batches)) as [Hlater|Hlater].
    + split; [intros _; by apply Fdue|]. intros Hno. destruct Hno. split; [tauto|lia].
    + rewrite (Fnot Hlater), Hfiles2.
      split.
      * intros [Hr Hdue]. assert (k * ckpt_freq (config s) = step s) as Hk by (subst; lia).
        specialize (Hf Hr). subst rank0. simpl.
        rewrite <- Hk, Nat.Div0.mod_mul, Nat.div_mul by done. simpl.
        rewrite lookup_insert_eq. eexists. split; [reflexivity|].
        simpl. rewrite Hk. done.
      * intros Hno.
        destruct (rank0 && (step s mod ckpt_freq (config s) =? 0)) eqn:Hsave; [|done].
        apply andb_true_iff in Hsave as [Hr Hmod]. apply Nat.eqb_eq in Hmod.
        specialize (Hf Hr).
        rewrite lookup_insert_ne; [done|]. intros <-. apply Hno. split; [done|].
        apply Nat.Div0.div_exact in Hmod. lia.
Qed.

Lemma train_epoch_run rank0 (batches : list Batch) (s : trainer) total :
  cumstats s !! "metrics/total_frames" = Some total ->
  (rank0 = true -> ckpt_freq (config s) <> 0) ->
  exists s',
    train_epoch learn frames_of rank0 batches s = (Ok tt, s')
    /\ step s' = step s + length batches
    /\ epoch s' = epoch s + 1
    /\ config s' = config s
    /\ cumstats s' !! "metrics/total_frames"
       = Some (total + frames_total frames_of batches).
Proof.
  intros Htot Hf.
  destruct (batches_run rank0 batches s total Htot Hf)
    as (s1 & Hrun & S1 & E1 & C1 & T1 & _).
  exists (set_epoch (epoch s1 + 1) s1). split.
  { unfold train_epoch. erewrite bind_ok; [|exact Hrun]. reflexivity. }
  simpl. by rewrite S1, E1.
Qed.


(** The checkpoints of one pass over the data loader, on rank 0: file
    [ckpt.k.pth] is written for every [k] such that step [k * ckpt_freq] is
    one of the steps of the pass, and holds the stats of that very step (no
    later step of the pass writes over it); every other file of the folder
    is left as it was.  On another rank no file is touched. *)
Theorem train_epoch_checkpoints rank0 (batches : list Batch) (s : trainer)
    (total : nat) :
  cumstats s !! "metrics/total_frames" = Some total ->
  (rank0 = true -> ckpt_freq (config s) <> 0) ->
  exists s',
    train_epoch learn frames_of rank0 batches s = (Ok tt, s')
    /\ forall k,
         (rank0 = true /\ due (ckpt_freq (config s)) (step s) (length batches) k ->
          exists obj, files s' !! k = Some obj
                      /\ so_stats obj !! "step" = Some (k * ckpt_freq (config s))
                      /\ so_stats obj !! "epoch" = Some (epoch s)
                      /\ so_config obj = config s)
         /\ (~ (rank0 = true /\ due (ckpt_freq (config s)) (step s) (length batches) k) ->
             files s' !! k = files s !! k).
Proof.
  intros Htot Hf.
  destruct (batches_run rank0 batches s total Htot Hf)
    as (s1 & Hrun & _ & _ & _ & _ & _ & F1).
  exists (set_epoch (epoch s1 + 1) s1). split.
  { unfold train_epoch. erewrite bind_ok; [|exact Hrun]. reflexivity. }
  exact F1.
Qed.

(** A [ckpt_freq] of zero does not switch checkpoints off.  On rank 0 the
    first iteration trains its batch, updates the stats and then raises
    ZeroDivisionError at [step % ckpt_freq], before [step] is incremented;
    on another rank the same iteration returns. *)
Theorem zero_ckpt_freq_raises (b : Batch) (s : trainer) (total : nat) :
  cumstats s !! "metrics/total_frames" = Some total ->
  ckpt_freq (config s) = 0 ->
  exists l' s1 s2,
    learn b (get_learner s) = (Ok tt, l')
    /\ train_iteration learn frames_of true b s = (Raise ZeroDivisionError, s1)
    /\ get_learner s1 = l'
    /\ cumstats s1 !! "metrics/total_frames" = Some (total + frames_of b)
    /\ step s1 = step s
    /\ files s1 = files s
    /\ train_iteration learn frames_of false b s = (Ok tt, s2)
    /\ step s2 = step s + 1.
Proof.
  intros Htot Hz.
  destruct (learn_returns b (get_learner s)) as [l' Hl].
  exists l', (learned l' (frames_of b) total s).
  eexists. split; [exact Hl|]. split.
  { unfold train_iteration.
    erewrite bind_ok; [|by apply zoom_run].
    erewrite bind_ok; [|by apply update_cumstats_run].
    apply bind_raise. unfold save_if_due. rewrite gets_bind.
    apply bind_raise. unfold lift, modulo. simpl. by rewrite decide_True. }
  split; [by destruct l' as [[[? ?] ?] ?]|].
  split; [apply lookup_insert_eq|]. split; [done|]. split; [done|].
  split.
  - apply (train_iteration_run false b s l' total Hl Htot). done.
  - reflexivity.
Qed.

Lemma train_loop_run rank0 steps n (loader : list (list Batch)) (s : trainer) total :
  0 < n ->
  Forall (fun batches => length batches = n) loader ->
  cumstats s !! "metrics/total_frames" = Some total ->
  (rank0 = true -> ckpt_freq (config s) <> 0) ->
  (steps - step s + (n - 1)) / n <= length loader ->
  exists s',
    train_loop learn frames_of rank0 steps loader s = (Ok true, s')
    /\ step s' = step s + (steps - step s + (n - 1)) / n * n
    /\ epoch s' = epoch s + (steps - step s + (n - 1)) / n
    /\ (steps <= step s -> s' = s).
Proof.
  intros Hn Hall. revert s total.
  induction Hall as [|batches loader Hlen _ IH]; intros s total Htot Hf Hk.
  - simpl in Hk. apply Nat.le_0_r in Hk.
    assert (steps <= step s) as Hle.
    { apply Nat.div_small_iff in Hk; lia. }
    exists s. simpl. rewrite gets_bind.
    destruct (Nat.ltb_spec (step s) steps); [lia|].
    rewrite Hk. split; [done|]. split; [lia|]. split; [lia|done].
  - simpl train_loop. rewrite gets_bind.
    destruct (Nat.ltb_spec (step s) steps) as [Hlt|Hge].
    + destruct (train_epoch_run rank0 batches s total Htot Hf)
        as (s1 & Hrun & S1 & E1 & C1 & T1).
      assert ((steps - step s + (n - 1)) / n
              = S ((steps - step s1 + (n - 1)) / n)) as Hdiv.
      { rewrite S1, Hlen.
        destruct (Nat.le_gt_cases n (steps - step s)) as [Hbig|Hsmall].
        - replace (steps - step s + (n - 1))
            with ((steps - (step s + n) + (n - 1)) + 1 * n) by lia.
          rewrite Nat.div_add by lia. lia.
        - replace (steps - (step s + n)) with 0 by lia.
          rewrite (Nat.div_small (0 + (n - 1))) by lia.
          replace (steps - step s + (n - 1))
            with ((steps - step s - 1) + 1 * n) by lia.
          rewrite Nat.div_add by lia. rewrite Nat.div_small by lia. lia. }
      destruct (IH s1 _ T1) as (s' & Hrest & S' & E' & _).
      { by rewrite C1. }
      { simpl in Hk. lia. }
      exists s'. split.
      { erewrite bind_ok; [|exact Hrun]. exact Hrest. }
      rewrite S', E', Hdiv, S1, E1, Hlen. split; [lia|]. split; [lia|]. lia.
    + exists s. split; [done|].
      replace (steps - step s + (n - 1)) with (n - 1) by lia.
      rewrite Nat.div_small by lia. split; [lia|]. split; [lia|done].
Qed.

(** [train] stops only between two passes over the data loader.  With
    passes of [n] batches each, and as many of them as needed, the loop
    ends; a trainer that has already done [steps] steps (a finished run that
    is resumed) is left as it is, and otherwise whole passes are run until
    [step] reaches [steps]: up to [n - 1] steps more than [steps] are
    trained. *)
Theorem train_loop_stops_after_whole_passes rank0 (steps n : nat)
    (loader : list (list Batch)) (s : trainer) (total : nat) :
  0 < n ->
  Forall (fun batches => length batches = n) loader ->
  cumstats s !! "metrics/total_frames" = Some total ->
  (rank0 = true -> ckpt_freq (config s) <> 0) ->
  steps <= step s + n * length loader ->
  exists s' k,
    train_loop learn frames_of rank0 steps loader s = (Ok true, s')
    /\ step s' = step s + k * n
    /\ epoch s' = epoch s + k
    /\ steps <= step s'
    /\ (step s < steps -> step s' < steps + n)
    /\ (steps <= step s -> s' = s).
Proof.
  intros Hn Hall Htot Hf Henough.
  pose proof (Nat.div_mod_eq (steps - step s + (n - 1)) n) as Hdm.
  pose proof (Nat.mod_upper_bound (steps - step s + (n - 1)) n) as Hlt.
  set (k := (steps - step s + (n - 1)) / n) in *.
  destruct (train_loop_run rank0 steps n loader s total Hn Hall Htot Hf)
    as (s' & Hrun & S' & E' & Hsame).
  { fold k. nia. }
  fold k in S', E'. exists s', k. split; [done|].
  split; [done|]. split; [done|]. split; [nia|]. split; [nia|done].
Qed.

End Facts.

End TrainFacts.

(** ** [eval_checkpoint]: weights and counters *)

Module EvalFacts.

Import BC Eval EvalSpec CheckpointSpec RunFacts CheckpointFacts.

Lemma string_drop_app (p k : string) :
  string_drop (String.length p) (String.append p k) = k.
Proof. induction p as [|c p IH]; simpl; [by destruct k|done]. Qed.

Lemma append_inj (p k1 k2 : string) :
  String.append p k1 = String.append p k2 -> k1 = k2.
Proof. induction p as [|c p IH]; simpl; intros H; [done|]. inversion H. auto. Qed.

Section Facts.

Context {W : Type} (shape : W -> list nat).

Lemma strip_keys_snoc (items : list (string * W)) kv :
  strip_keys (items ++ [kv])
  = <[string_drop (String.length "module.") kv.1 := kv.2]> (strip_keys items).
Proof. unfold strip_keys. by rewrite fold_left_app. Qed.

(** The stripped dict of items whose keys all carry the prefix. *)
Lemma strip_keys_wrapped (items : list (string * W)) (k : string) :
  NoDup (map fst items) ->
  wrapped_keys items ->
  strip_keys items !! k = item items (String.append "module." k).
Proof.
  unfold item. induction items as [|kv items IH] using rev_ind; intros Hnd Hall; [done|].
  rewrite strip_keys_snoc. rewrite map_app in Hnd. apply NoDup_app in Hnd as (Hnd & Hfresh & _).
  apply Forall_app in Hall as [Hall Hkv]. apply Forall_singleton in Hkv as [k0 Hk0].
  destruct kv as [key v]. cbn [fst snd] in *. subst key.
  rewrite string_drop_app.
  assert ((list_to_map (items ++ [(String.append "module." k0, v)]) : gmap string W)
          = <[String.append "module." k0 := v]> (list_to_map items)) as ->.
  { apply map_eq. intros j. rewrite list_to_map_app. simpl.
    destruct (decide (j = String.append "module." k0)) as [->|Hj].
    - rewrite lookup_insert_eq. rewrite lookup_union_r; [apply lookup_insert_eq|].
      apply not_elem_of_list_to_map_1. intros Hin. apply (Hfresh _ Hin).
      apply list_elem_of_here.
    - rewrite lookup_insert_ne by done.
      destruct (list_to_map items !! j) as [w|] eqn:Hw.
      + by apply lookup_union_Some_l.
      + apply lookup_union_None. split; [done|]. by rewrite lookup_insert_ne. }
  destruct (decide (k = k0)) as [->|Hk].
  - by rewrite !lookup_insert_eq.
  - rewrite lookup_insert_ne by done.
    rewrite lookup_insert_ne by (intros H; by apply append_inj in H).
    by apply IH.
Qed.

Lemma strip_keys_origin (items : list (string * W)) (k : string) (w : W) :
  strip_keys items !! k = Some w ->
  exists kv, kv ∈ items /\ k = string_drop (String.length "module.") kv.1.
Proof.
  induction items as [|kv items IH] using rev_ind; [done|].
  rewrite strip_keys_snoc. intros H.
  destruct (decide (k = string_drop (String.length "module.") kv.1)) as [->|Hk].
  - exists kv. split; [|done]. apply elem_of_app. right. apply list_elem_of_here.
  - rewrite lookup_insert_ne in H by done. destruct (IH H) as (kv' & Hin & ->).
    exists kv'. split; [|done]. apply elem_of_app. by left.
Qed.

(** What [eval_checkpoint] loads from a checkpoint of the wrapped training
    policy.  When every key of the file carries the prefix [module.] and the
    shapes fit, the load returns; a parameter [k] of the evaluated policy
    takes the weight the file holds under [module.k] and keeps its own when
    the file has none (a frozen parameter is not saved, and [strict=False]
    lets it pass); the same holds of a buffer; and no parameter requires a
    gradient afterwards. *)
Theorem eval_load_strips_prefix (items : list (string * W)) (m : @module W) :
  NoDup (map fst items) ->
  wrapped_keys items ->
  shapes_fit shape (strip_keys items) m ->
  exists m',
    eval_load shape items m = (Ok tt, m')
    /\ (forall k p, named_parameters m !! k = Some p ->
          named_parameters m' !! k
          = Some (mkParameter
                    (default (p_data p) (item items (String.append "module." k)))
                    false))
    /\ (forall k, named_parameters m !! k = None -> named_parameters m' !! k = None)
    /\ (forall k w, named_buffers m !! k = Some w -> named_parameters m !! k = None ->
          named_buffers m' !! k
          = Some (default w (item items (String.append "module." k)))).
Proof.
  intros Hnd Hall Hfit.
  destruct (module_load_lenient shape (strip_keys items) m Hfit) as (m1 & Hload & Hp & Hb).
  exists (freeze m1). split.
  { unfold eval_load. erewrite bind_ok; [|exact Hload]. reflexivity. }
  assert (forall k own, module_state_dict m !! k = Some own ->
            loaded shape (strip_keys items) k own
            = default own (item items (String.append "module." k))) as Hloaded.
  { intros k own Hown. unfold loaded. rewrite <- (strip_keys_wrapped items k Hnd Hall).
    specialize (Hfit k own Hown). cbn beta in Hfit. unfold shape_fits in Hfit.
    destruct (strip_keys items !! k) as [w|]; [|done]. simpl.
    apply bool_decide_eq_true_1 in Hfit. by rewrite decide_True. }
  split; [|split].
  - intros k p Hk. unfold freeze. simpl. rewrite lookup_fmap, Hp, Hk. simpl.
    do 2 f_equal. apply Hloaded. unfold module_state_dict.
    apply lookup_union_Some_l. by rewrite lookup_fmap, Hk.
  - intros k Hk. unfold freeze. simpl. by rewrite lookup_fmap, Hp, Hk.
  - intros k w Hk Hnone. unfold freeze. simpl. rewrite Hb, Hk. simpl. f_equal.
    apply Hloaded. unfold module_state_dict.
    rewrite lookup_union_r; [done|]. by rewrite lookup_fmap, Hnone.
Qed.

(** A checkpoint whose keys do not carry the prefix is not refused.  The
    first seven characters of every key are cut off all the same; when no
    key cut this way names a tensor of the evaluated policy, the load
    returns without having loaded anything: the policy keeps all its
    weights and is only frozen. *)
Theorem eval_load_foreign_keys_load_nothing (items : list (string * W))
    (m : @module W) :
  Forall (fun kv => module_state_dict m
                      !! string_drop (String.length "module.") kv.1 = None) items ->
  eval_load shape items m = (Ok tt, freeze m).
Proof.
  intros Hall.
  assert (forall k, is_Some (module_state_dict m !! k) -> strip_keys items !! k = None)
    as Hmiss.
  { intros k [own Hown]. destruct (strip_keys items !! k) as [w|] eqn:Hw; [|done].
    destruct (strip_keys_origin items k w Hw) as (kv & Hin & ->).
    rewrite Forall_forall in Hall. specialize (Hall kv Hin). congruence. }
  assert (shapes_fit shape (strip_keys items) m) as Hfit.
  { intros k own Hown. cbn beta. unfold shape_fits. by rewrite Hmiss. }
  destruct (module_load_lenient shape (strip_keys items) m Hfit) as (m1 & Hload & Hp & Hb).
  unfold eval_load. erewrite bind_ok; [|exact Hload].
  unfold modify. apply (f_equal (pair (Ok tt))). unfold freeze.
  apply (f_equal2 mkModule).
  - apply map_eq. intros k. rewrite !lookup_fmap, Hp.
    destruct (named_parameters m !! k) as [p|] eqn:Hk; [|done]. simpl.
    unfold loaded. rewrite Hmiss; [done|].
    exists (p_data p). apply lookup_union_Some_l. by rewrite lookup_fmap, Hk.
  - apply map_eq. intros k. rewrite Hb.
    destruct (named_buffers m !! k) as [w|] eqn:Hk; [|done]. simpl.
    unfold loaded. rewrite Hmiss; [done|].
    unfold module_state_dict.
    destruct ((p_data <$> named_parameters m) !! k) as [w'|] eqn:Hpk.
    + exists w'. by apply lookup_union_Some_l.
    + exists w. by rewrite lookup_union_r.
Qed.

End Facts.

End EvalFacts.

Module ResumeFacts.

Import BC Train TrainSpec CheckpointSpec RunFacts CheckpointFacts TrainFacts.

Local Open Scope nat_scope.

Section Facts.

Context {W : Type} (shape : W -> list nat).
Context {Optim OptimSD Sched SchedSD Sampler SamplerSD : Type}.
Context `{!Stateful Optim OptimSD, !Stateful Sched SchedSD,
          !Stateful Sampler SamplerSD}.

Abbreviation trainer := (@trainer W Optim OptimSD Sched SchedSD Sampler SamplerSD).

Context {Batch : Type} (learn : Batch -> M (@learner W Optim Sched Sampler) unit)
        (frames_of : Batch -> nat).


End Facts.

End ResumeFacts.

Module EvalLoopFacts.

Import BC EvalLoop EvalLoopSpec RunFacts EvalFacts.

Local Open Scope nat_scope.

Lemma keys_differ ckpt_name : total_key ckpt_name <> successful_key ckpt_name.
Proof. unfold total_key, successful_key. intros H. by apply append_inj in H. Qed.

Section Facts.

Context {Dist : Type} (close : Dist -> bool).
Context (save_videos : bool) (save_episode_video : list Dist -> nat -> result unit).

Abbreviation state := (@eval_state Dist).

Lemma increment_run k v (s : state) :
  stats s !! k = Some v ->
  increment k s = (Ok tt, set_stats (<[k := v + 1]> (stats s)) s).
Proof.
  intros Hk. unfold increment. rewrite gets_bind.
  erewrite bind_ok; [reflexivity|]. unfold lift, getitem. by rewrite Hk.
Qed.

(** The video block never stops the counting. *)
Lemma video_block_run ckpt_name ep (s : state) :
  (if save_videos
   then try_except (st ← gets stats;
                    n ← lift (getitem st (total_key ckpt_name));
                    lift (save_episode_video ep n))
   else mret tt) s = (Ok tt, s).
Proof.
  destruct save_videos; [|reflexivity].
  unfold try_except. rewrite gets_bind.
  unfold mbind, M_bind, bind, lift.
  destruct (getitem (stats s) (total_key ckpt_name)) as [n|e]; [|reflexivity].
  by destruct (save_episode_video ep n).
Qed.

Lemma count_done_run ckpt_name i done (s : state) t u ep d :
  stats s !! total_key ckpt_name = Some t ->
  stats s !! successful_key ckpt_name = Some u ->
  episodes s !! i = Some ep ->
  last ep = Some d ->
  exists s',
    count_done close save_videos save_episode_video ckpt_name i done s = (Ok tt, s')
    /\ stats s' !! total_key ckpt_name = Some (t + if done then 1 else 0)
    /\ stats s' !! successful_key ckpt_name
       = Some (u + if done && close d then 1 else 0)
    /\ episodes s' = (if done then <[i := []]> (episodes s) else episodes s)
    /\ stats_pkl s' = stats_pkl s.
Proof.
  intros Ht Hu Hep Hd. pose proof (keys_differ ckpt_name) as Hne.
  unfold count_done. destruct done; simpl.
  2:{ exists s. rewrite !Nat.add_0_r. done. }
  erewrite bind_ok; [|by apply increment_run].
  rewrite gets_bind. simpl.
  erewrite bind_ok; [|unfold lift, list_item; rewrite Hep; reflexivity].
  erewrite bind_ok; [|unfold lift, list_last; rewrite Hd; reflexivity].
  destruct (close d).
  - erewrite bind_ok.
    2:{ apply (increment_run _ u). simpl. by rewrite lookup_insert_ne. }
    erewrite bind_ok; [|apply video_block_run].
    eexists. split; [reflexivity|]. simpl.
    split; [rewrite lookup_insert_ne by done; apply lookup_insert_eq|].
    split; [apply lookup_insert_eq|done].
  - erewrite bind_ok; [|reflexivity].
    erewrite bind_ok; [|apply video_block_run].
    eexists. split; [reflexivity|]. simpl.
    split; [apply lookup_insert_eq|].
    split; [rewrite lookup_insert_ne by done; by rewrite Nat.add_0_r|done].
Qed.

(** The loop that appends the step to every episode. *)
Lemma append_loop (infos : list Dist) m : forall k (s : state),
  k + m <= length infos ->
  exists s',
    for_each (seq k m) (fun i =>
      info ← lift (list_item infos i);
      modify (fun s => set_episodes (alter (fun ep => ep ++ [info]) i (episodes s)) s)) s
    = (Ok tt, s')
    /\ stats s' = stats s
    /\ stats_pkl s' = stats_pkl s
    /\ length (episodes s') = length (episodes s)
    /\ forall j ep, episodes s !! j = Some ep ->
         episodes s' !! j
         = Some (if decide (k <= j < k + m)
                 then ep ++ from_option (fun d => [d]) [] (infos !! j) else ep).
Proof.
  induction m as [|m IH]; intros k s Hk.
  - exists s. simpl. repeat split; try done.
    intros j ep Hj. rewrite decide_False by lia. done.
  - destruct (lookup_lt_is_Some_2 infos k) as [d Hd]; [lia|].
    set (s1 := set_episodes (alter (fun ep => ep ++ [d]) k (episodes s)) s).
    destruct (IH (S k) s1) as (s' & Hrun & St & Pk & Len & Look); [lia|].
    exists s'. split.
    { simpl. unfold bind at 1.
      unfold mbind at 1, M_bind at 1, bind at 1, lift, list_item. rewrite Hd.
      exact Hrun. }
    split; [done|]. split; [done|].
    split. { rewrite Len. unfold s1. simpl. apply length_alter. }
    intros j ep Hj. destruct (decide (j = k)) as [->|Hjk].
    + rewrite (Look k (ep ++ [d])).
      * rewrite decide_False by lia. rewrite decide_True by lia. by rewrite Hd.
      * unfold s1. simpl. rewrite list_lookup_alter, Hj. by rewrite decide_True.
    + rewrite (Look j ep).
      * destruct (decide (S k <= j < S k + m)); [rewrite decide_True by lia; done|].
        rewrite decide_False by lia. done.
      * unfold s1. simpl. by rewrite list_lookup_alter_ne.
Qed.

(** The loop over [enumerate(dones)], from index [k] on. *)
Lemma count_loop ckpt_name (outs : list (bool * Dist)) : forall k (s : state) t u,
  stats s !! total_key ckpt_name = Some t ->
  stats s !! successful_key ckpt_name = Some u ->
  (forall j o, outs !! j = Some o ->
     exists ep, episodes s !! (k + j) = Some ep /\ last ep = Some o.2) ->
  exists s',
    for_each (zip (seq k (length (map fst outs))) (map fst outs))
      (fun x => count_done close save_videos save_episode_video ckpt_name x.1 x.2) s
    = (Ok tt, s')
    /\ stats s' !! total_key ckpt_name = Some (t + finished outs)
    /\ stats s' !! successful_key ckpt_name = Some (u + succeeded close outs)
    /\ stats_pkl s' = stats_pkl s
    /\ length (episodes s') = length (episodes s)
    /\ forall j, episodes s' !! j
         = if decide (k <= j /\ fst <$> outs !! (j - k) = Some true)
           then Some [] else episodes s !! j.
Proof.
  induction outs as [|[done d] outs IH]; intros k s t u Ht Hu Heps.
  - exists s. simpl. unfold finished, succeeded. simpl. rewrite !Nat.add_0_r.
    repeat split; try done. intros j. rewrite decide_False; [done|].
    intros [_ H]. by destruct (j - k).
  - destruct (Heps 0 (done, d) eq_refl) as (ep & Hep & Hlast).
    rewrite Nat.add_0_r in Hep. simpl in Hlast.
    destruct (count_done_run ckpt_name k done s t u ep d Ht Hu Hep Hlast)
      as (s1 & Hrun1 & T1 & U1 & E1 & P1).
    destruct (IH (S k) s1 _ _ T1 U1) as (s' & Hrun & T' & U' & P' & L' & E').
    { intros j o Hj. destruct (Heps (S j) o Hj) as (ep' & Hep' & Hlast').
      exists ep'. split; [|done]. rewrite E1.
      replace (S k + j) with (k + S j) by lia.
      destruct done; [|done]. rewrite list_lookup_insert_ne by lia. done. }
    exists s'. split.
    { simpl. unfold bind at 1. simpl in Hrun1. rewrite Hrun1. exact Hrun. }
    unfold finished, succeeded in *. simpl.
    split. { rewrite T'. f_equal. destruct done; simpl; lia. }
    split. { rewrite U'. f_equal. destruct done; simpl; [destruct (close d)|]; simpl; lia. }
    split; [congruence|].
    split. { rewrite L', E1. destruct done; [apply length_insert|done]. }
    intros j. rewrite E'. destruct (decide (j = k)) as [->|Hjk].
    + rewrite decide_False by lia. rewrite Nat.sub_diag. simpl. rewrite E1.
      destruct done.
      * rewrite decide_True by done. apply list_lookup_insert_eq.
        by apply lookup_lt_Some in Hep.
      * rewrite decide_False; [done|]. intros [_ H]. discriminate.
    + destruct (decide (k <= j)) as [Hle|Hgt].
      * replace (j - k) with (S (j - S k)) by lia. simpl.
        destruct (decide (S k <= j /\ fst <$> outs !! (j - S k) = Some true)) as [[? H]|H].
        -- by rewrite decide_True.
        -- rewrite decide_False by (intros [? ?]; apply H; split; [lia|done]).
           rewrite E1. destruct done; [|done]. by rewrite list_lookup_insert_ne.
      * rewrite decide_False by lia. rewrite decide_False by lia.
        rewrite E1. destruct done; [|done]. by rewrite list_lookup_insert_ne.
Qed.

Lemma finished_le (outs : list (bool * Dist)) : finished outs <= length outs.
Proof.
  unfold finished. induction outs as [|[e d] outs IH]; simpl; [done|].
  destruct e; simpl; lia.
Qed.

Lemma succeeded_le (outs : list (bool * Dist)) : succeeded close outs <= finished outs.
Proof.
  unfold succeeded, finished. induction outs as [|[e d] outs IH]; simpl; [done|].
  destruct e; simpl; [destruct (close d); simpl; lia|lia].
Qed.

Lemma eval_env_step_run ckpt_name (outs : list (bool * Dist)) (s : state) t u :
  outs <> [] ->
  length outs = length (episodes s) ->
  stats s !! total_key ckpt_name = Some t ->
  stats s !! successful_key ckpt_name = Some u ->
  exists s',
    eval_env_step close save_videos save_episode_video ckpt_name outs s = (Ok tt, s')
    /\ stats s' !! total_key ckpt_name = Some (t + finished outs)
    /\ stats s' !! successful_key ckpt_name = Some (u + succeeded close outs)
    /\ stats_pkl s' = Some (stats s')
    /\ length (episodes s') = length (episodes s)
    /\ forall i (o : bool * Dist) ep, outs !! i = Some o -> episodes s !! i = Some ep ->
         episodes s' !! i = Some (if o.1 then @nil Dist else ep ++ [o.2]).
Proof.
  intros Hne Hlen Ht Hu. unfold eval_env_step.
  erewrite bind_ok; [|by rewrite decide_False by done].
  rewrite gets_bind.
  destruct (append_loop (map snd outs) (length (episodes s)) 0 s)
    as (s1 & Hrun1 & St1 & Pk1 & Len1 & Look1).
  { rewrite length_map. lia. }
  erewrite bind_ok; [|exact Hrun1].
  assert (forall j o ep, outs !! j = Some o -> episodes s !! j = Some ep ->
            episodes s1 !! j = Some (ep ++ [o.2])) as Happended.
  { intros j o ep Ho Hep. rewrite (Look1 j ep Hep).
    apply lookup_lt_Some in Hep as Hj. rewrite decide_True by lia.
    by rewrite list_lookup_fmap, Ho. }
  destruct (count_loop ckpt_name outs 0 s1 t u) as (s2 & Hrun2 & T2 & U2 & P2 & L2 & E2).
  { by rewrite St1. }
  { by rewrite St1. }
  { intros j o Ho. destruct (lookup_lt_is_Some_2 (episodes s) j) as [ep Hep].
    { apply lookup_lt_Some in Ho. lia. }
    exists (ep ++ [o.2]). split; [by apply Happended|apply last_snoc]. }
  unfold enumerate. erewrite bind_ok; [|exact Hrun2].
  eexists. split; [reflexivity|]. simpl.
  split; [done|]. split; [done|]. split; [done|]. split; [lia|].
  intros i o ep Ho Hep. rewrite E2, Nat.sub_0_r, Ho.
  destruct o as [[] d]; cbn [fst snd fmap option_fmap option_map].
  - by rewrite decide_True by (split; [lia|done]).
  - rewrite decide_False by (intros [_ H]; discriminate).
    by apply (Happended i (false, d)).
Qed.

(** One turn of the evaluation loop, the environments having returned one
    output each.  The turn returns, whether or not the videos can be
    written; the total has grown by the number of episodes that ended in
    the turn and the successes by those of them that ended close to the
    goal; [stats.pkl] holds the new counts; an episode that ended is
    cleared and any other has the step appended. *)
Theorem eval_step_counts_ended_episodes ckpt_name (outs : list (bool * Dist))
    (s : state) (t u : nat) :
  outs <> [] ->
  length outs = length (episodes s) ->
  stats s !! total_key ckpt_name = Some t ->
  stats s !! successful_key ckpt_name = Some u ->
  exists s',
    eval_env_step close save_videos save_episode_video ckpt_name outs s = (Ok tt, s')
    /\ stats s' !! total_key ckpt_name = Some (t + finished outs)
    /\ stats s' !! successful_key ckpt_name = Some (u + succeeded close outs)
    /\ succeeded close outs <= finished outs <= length outs
    /\ stats_pkl s' = Some (stats s')
    /\ forall i (o : bool * Dist) ep, outs !! i = Some o -> episodes s !! i = Some ep ->
         episodes s' !! i = Some (if o.1 then @nil Dist else ep ++ [o.2]).
Proof.
  intros Hne Hlen Ht Hu.
  destruct (eval_env_step_run ckpt_name outs s t u Hne Hlen Ht Hu)
    as (s' & Hrun & T & U & P & _ & E).
  exists s'. split; [done|]. split; [done|]. split; [done|].
  split; [split; [apply succeeded_le|apply finished_le]|]. done.
Qed.

(** The evaluation loop over the turns [steps], with [num_envs]
    environments.  The counts only grow, and the successes by no more than
    the total; when the loop ends the total has reached [N_episodes], and it
    exceeds it by less than [num_envs]: the episodes that end in the last
    turn are all counted.  Stats that already hold [N_episodes] episodes
    (an evaluation that had finished) end the loop at once, with nothing
    changed. *)
Theorem eval_loop_counts ckpt_name (N_episodes num_envs : nat)
    (steps : list (list (bool * Dist))) (s : state) (t u : nat) :
  0 < num_envs ->
  length (episodes s) = num_envs ->
  Forall (fun outs => length outs = num_envs) steps ->
  stats s !! total_key ckpt_name = Some t ->
  stats s !! successful_key ckpt_name = Some u ->
  exists ended s' t' u',
    eval_loop close save_videos save_episode_video ckpt_name N_episodes steps s
    = (Ok ended, s')
    /\ stats s' !! total_key ckpt_name = Some t'
    /\ stats s' !! successful_key ckpt_name = Some u'
    /\ t <= t' /\ u <= u' /\ u' - u <= t' - t
    /\ (ended = true <-> N_episodes <= t')
    /\ (t < N_episodes -> t' < N_episodes + num_envs)
    /\ (N_episodes <= t -> s' = s).
Proof.
  intros Hpos Hlen Hall. revert s t u Hlen.
  induction Hall as [|outs steps Houts _ IH]; intros s t u Hlen Ht Hu.
  - exists (negb (t <? N_episodes)), s, t, u. split.
    { simpl. rewrite gets_bind. erewrite bind_ok; [reflexivity|].
      unfold lift, getitem. by rewrite Ht. }
    split; [done|]. split; [done|]. split; [lia|]. split; [lia|]. split; [lia|].
    split; [|split; [lia|done]].
    destruct (Nat.ltb_spec t N_episodes); simpl; split; (done || lia).
  - simpl eval_loop. rewrite gets_bind. erewrite bind_ok.
    2:{ unfold lift, getitem. rewrite Ht. reflexivity. }
    destruct (Nat.ltb_spec t N_episodes) as [Hlt|Hge].
    + destruct (eval_env_step_run ckpt_name outs s t u) as (s1 & Hrun & T1 & U1 & _ & L1 & _).
      { intros ->. simpl in Houts. lia. }
      { lia. }
      { done. }
      { done. }
      destruct (IH s1 _ _ (eq_trans L1 Hlen) T1 U1)
        as (ended & s' & t' & u' & Hrest & T' & U' & Ht' & Hu' & Hd & Hend & Hover & Hsame).
      exists ended, s', t', u'. split.
      { erewrite bind_ok; [|exact Hrun]. exact Hrest. }
      pose proof (succeeded_le outs). pose proof (finished_le outs).
      split; [done|]. split; [done|]. split; [lia|]. split; [lia|]. split; [lia|].
      split; [done|]. split; [|lia].
      intros _. destruct (Nat.lt_ge_cases (t + finished outs) N_episodes) as [Hl|Hg].
      * by apply Hover.
      * specialize (Hsame Hg). subst s'. rewrite T1 in T'. inversion T'. lia.
    + exists true, s, t, u. split; [done|].
      split; [done|]. split; [done|]. split; [lia|]. split; [lia|]. split; [lia|].
      split; [split; [lia|done]|]. split; [lia|done].
Qed.

End Facts.

End EvalLoopFacts.

(** ** [initialize_train]: the data files *)

Module DataFilesFacts.

Import DataFiles DataFilesSpec.

Lemma split_plain sep x : occurs sep x = false -> split sep x = [x].
Proof.
  induction x as [|c x IH]; simpl; [done|]. intros H.
  apply orb_false_iff in H as [Hc Hx]. rewrite Hc, (IH Hx). done.
Qed.

Lemma split_at_sep sep x rest :
  occurs sep x = false ->
  split sep (String.append x (String sep rest)) = x :: split sep rest.
Proof.
  induction x as [|c x IH]; simpl; intros H.
  - by rewrite Ascii.eqb_refl.
  - apply orb_false_iff in H as [Hc Hx]. rewrite Hc, (IH Hx). done.
Qed.

Lemma split_pieces_plain sep s : Forall (fun x => occurs sep x = false) (split sep s).
Proof.
  induction s as [|c s IH]; simpl.
  - by constructor.
  - destruct (Ascii.eqb c sep) eqn:Hc.
    + by constructor.
    + destruct (split sep s) as [|piece pieces]; [by repeat constructor; simpl; rewrite Hc|].
      apply Forall_cons in IH as [Hp Hps]. constructor; [|done]. simpl. by rewrite Hc.
Qed.

Lemma split_join sep (l : list string) :
  l <> [] -> Forall (fun x => occurs sep x = false) l -> split sep (join sep l) = l.
Proof.
  induction l as [|x l IH]; [done|]. intros _ Hall.
  apply Forall_cons in Hall as [Hx Hl]. simpl.
  destruct l as [|y l]; [by apply split_plain|].
  rewrite split_at_sep by done. f_equal. by apply IH.
Qed.

(** The workers open the files rank 0 loaded exactly when there is at
    least one file and no file name holds a semicolon.  Otherwise they get
    another list: a name with a semicolon arrives cut in pieces, and an
    empty list arrives as one empty name. *)
Theorem workers_receive_data_files (data_files : list string) :
  received data_files = data_files
  <-> data_files <> [] /\ Forall (fun x => occurs ";"%char x = false) data_files.
Proof.
  unfold received, published. split.
  - intros H. split.
    + intros ->. simpl in H. discriminate.
    + rewrite <- H. apply split_pieces_plain.
  - intros [Hne Hall]. by apply split_join.
Qed.

End DataFilesFacts.

(** ** The theorems at concrete inputs *)

Module Instances.

Import Rollout BC Examples.
Import RolloutSpec SegmentSpec ConfigSpec PaddingSpec StepSpec CheckpointSpec.
Import TorchFacts RolloutFacts SegmentFacts.
Import ConfigFacts PaddingFacts StepFacts CheckpointFacts.

Ltac shapes := unfold wf_storage, has_shape, Torch.wf; simpl; repeat split; repeat constructor.

(** C4 at [started], two environments with the cursor at 0. *)
Lemma insert_writes_current_and_next_witness :
  exists s',
    insert [11; 21] [99; 98] (Some [true; false]) (Some [1; 2]) (Some [0; 5])
      (Some [false; true]) started = (Ok tt, s')
    /\ insert_effect started s' [11; 21] [99; 98] (Some [true; false])
         (Some [1; 2]) (Some [0; 5]) (Some [false; true])
    /\ current_step_idx s' = 1.
Proof.
  destruct (insert_writes_current_and_next started [11; 21] [99; 98]
              (Some [true; false]) (Some [1; 2]) (Some [0; 5]) (Some [false; true]))
    as [Heff Hrun].
  { shapes. }
  destruct Hrun as [s' Hs']; try reflexivity; try (simpl; lia).
  exists s'. destruct (Heff s' Hs') as [He _]. split; [exact Hs'|]. split; [exact He|].
  destruct He as (_ & _ & _ & _ & _ & _ & Hc & _). exact Hc.
Defined.

(** C6 at [filled], whose cursor is at [max_steps = 3]. *)
Lemma insert_past_capacity_raises_witness :
  current_step_idx filled = Z.of_nat (max_steps filled)
  /\ insert [14] [99] (Some [false]) (Some [1]) (Some [0]) None filled
     = (Raise IndexError, filled).
Proof.
  split; [reflexivity|].
  apply (insert_past_capacity_raises filled); [shapes | reflexivity].
Defined.

(** C7 at [filled]: the observation 13 of index 3 is carried to index 0. *)
Lemma reset_carries_last_observation_witness :
  exists s', reset filled = (Ok tt, s')
    /\ reset_effect filled s'
    /\ cell (rgbs s') 0 0 = Some 13.
Proof.
  destruct (reset_carries_last_observation filled) as (s' & Hrun & Heff & _).
  { shapes. }
  exists s'. split; [exact Hrun|]. split; [exact Heff|].
  destruct Heff as (_ & H & _). rewrite H. reflexivity.
Defined.

(** C10 with two environments and a horizon of three steps. *)
Lemma first_insert_wraps_to_last_slot_witness :
  exists s',
    insert [10; 20] [99; 98] (Some [true; false]) (Some [1; 2]) (Some [4; 5])
      (Some [true; true]) (fresh 2 3 Cpu) = (Ok tt, s')
    /\ cell (dones s') 0 3 = Some true
    /\ cell (dones s') 0 0 = Some false
    /\ cell (successes s') 1 2 = Some true.
Proof.
  destruct (first_insert_wraps_to_last_slot 0 0 2 3 Cpu [10; 20] [99; 98]
              (Some [true; false]) (Some [1; 2]) (Some [4; 5]) (Some [true; true]))
    as (_ & s' & Hrun & _ & _ & _ & (Hd & Hd0) & _ & _ & (Hs & _));
    try reflexivity; try lia.
  exists s'. split; [exact Hrun|]. split; [apply (Hd 0%nat)|].
  split; [apply Hd0; lia | apply (Hs 1%nat)].
Defined.

(** C1 at [filled]: one done index, 1, and two segments; the two samples
    returned hold steps 0-1 and step 2 of every buffer. *)
Lemma generate_samples_segments_witness :
  exists row,
    getitem_row (dones filled) 0 = Ok row
    /\ segments_claim (max_steps filled) row
    /\ env_slices (max_steps filled) row = [(0, 2); (2, 3)]
    /\ exists per_env,
         generate_samples filled
         = Ok (map s_rgbs (concat per_env), map s_goals (concat per_env),
               map s_actions (concat per_env), map s_rewards (concat per_env),
               map s_dones (concat per_env), map s_successes (concat per_env))
         /\ map s_rgbs (concat per_env) = [[10; 11]; [12]]
         /\ map s_actions (concat per_env) = [[2; 3]; [1]]
         /\ map s_dones (concat per_env) = [[false; true]; [false]]
         /\ map s_successes (concat per_env) = [[false; false]; [false]].
Proof.
  destruct (SampleFacts.generate_samples_segments filled 0)
    as (row & Hrow & _ & _ & Hclaim & samples & _ & _ & _ & per_env & _ & _ & Hgen).
  { shapes. }
  { simpl; lia. }
  { simpl; lia. }
  { reflexivity. }
  exists row. split; [exact Hrow|]. split; [exact Hclaim|].
  split; [inversion Hrow; reflexivity|].
  exists per_env. split; [exact Hgen|].
  assert (generate_samples filled
          = Ok ([[10; 11]; [12]], [[99; 99]; [99]], [[2; 3]; [1]], [[0; 5]; [0]],
                [[false; true]; [false]], [[false; false]; [false]])) as Hval
    by (vm_compute; reflexivity).
  rewrite Hval in Hgen. injection Hgen as H1 H2 H3 H4 H5 H6.
  split; [symmetry; exact H1|]. split; [symmetry; exact H3|].
  split; [symmetry; exact H5|symmetry; exact H6].
Defined.

(** C1 as stated fails at [flagged_first]: the flag given to the first
    [insert] sits in slot 2, past the horizon [[0, 1]], where
    [generate_samples] reads it as the end of an episode.  There is no done
    index within the horizon, yet the slices are [0:3] and [3:2], not the
    one segment [0:2].  It also fails for a horizon of no steps, where a row
    without done entries has no segment at all. *)
Lemma generate_samples_flagged_first_counterexample :
  flagged_first
  = after (insert [12] [99] (Some [false]) None None None)
      (after (insert [11] [99] (Some [false]) None None None)
         (after (insert [10] [99] (Some [true]) None None None)
            (fresh 1 2 Cpu)))
  /\ wf_storage flagged_first
  /\ getitem_row (dones flagged_first) 0 = Ok [false; false; true]
  /\ done_indices (max_steps flagged_first) [false; false; true] = []
  /\ env_slices (max_steps flagged_first) [false; false; true] = [(0, 3); (3, 2)]
  /\ ~ segments_claim (max_steps flagged_first) [false; false; true]
  /\ env_slices 0 [false] = []
  /\ ~ segments_claim 0 [false].
Proof.
  split; [reflexivity|]. split; [shapes|]. do 3 (split; [reflexivity|]).
  split; [|split; [reflexivity|]].
  - intros (_ & _ & _ & _ & H & _). specialize (H eq_refl). discriminate H.
  - intros (_ & _ & _ & _ & H & _). specialize (H eq_refl). discriminate H.
Qed.

Lemma cfg_16_4_2_valid : valid_config cfg_16_4_2.
Proof. unfold valid_config, divisible; simpl. repeat split; discriminate. Qed.

(** C2 as stated fails for [batch_size = 16], [minibatch_size = 4],
    [num_grad_accums = 2]: the batch takes two optimizer steps. *)
Lemma one_step_per_batch_counterexample :
  (exists trace,
      train_bc_step cfg_16_4_2 (batch_size cfg_16_4_2) [] = (Ok tt, trace)
      /\ count is_optim_step trace = 2%nat)
  /\ ~ one_step_per_batch cfg_16_4_2.
Proof.
  split.
  - exists (snd (train_bc_step cfg_16_4_2 16 [])). split; vm_compute; reflexivity.
  - intros H. specialize (H (snd (train_bc_step cfg_16_4_2 16 []))).
    vm_compute in H. specialize (H eq_refl). discriminate H.
Qed.

(** C2 as amended, for the same configuration: four minibatches, two chunks
    of two, two synchronised and two unsynchronised passes, two optimizer
    steps. *)
Lemma one_optimizer_step_per_chunk_witness :
  exists trace,
    train_bc_step cfg_16_4_2 16 [] = (Ok tt, trace)
    /\ count is_backward trace = 4%nat
    /\ count is_synchronized trace = 2%nat
    /\ count is_unsynchronized trace = 2%nat
    /\ count is_optim_step trace = 2%nat.
Proof.
  destruct (one_optimizer_step_per_chunk cfg_16_4_2)
    as (trace & Hrun & _ & _ & Hb & Hs & Hu & Ho & _).
  { unfold valid_config, divisible; simpl. repeat split; discriminate. }
  exists trace. split; [exact Hrun|].
  split; [exact Hb|]. split; [exact Hs|]. split; [exact Hu|exact Ho].
Defined.

(** C3 for a window of four steps and two episodes, of two and four steps. *)
Lemma pad_inputs_mask_and_zero_padding_witness :
  exists rgbs_t actions_t,
    pad_inputs 4
      [mkFrames 2 [[1; 2]; [3; 4]]; mkFrames 2 [[5; 6]; [7; 8]; [9; 10]; [11; 12]]]
      [mkFrames 2 [[0; 0]]; mkFrames 2 [[1; 1]]]
      [[1; 2]; [3; 1; 2; 0]]
    = Ok ([[true; true; false; false]; [true; true; true; true]],
          rgbs_t, [mkFrames 2 [[0; 0]]; mkFrames 2 [[1; 1]]], actions_t)
    /\ rgbs_t !! 0%nat = Some (mkFrames 2 [[1; 2]; [3; 4]; [0; 0]; [0; 0]])
    /\ actions_t !! 0%nat = Some [1; 2; 0; 0].
Proof.
  destruct (pad_inputs_mask_and_zero_padding 4 2
              [mkFrames 2 [[1; 2]; [3; 4]]; mkFrames 2 [[5; 6]; [7; 8]; [9; 10]; [11; 12]]]
              [mkFrames 2 [[0; 0]]; mkFrames 2 [[1; 1]]]
              [[1; 2]; [3; 1; 2; 0]]) as (Hrun & _ & _).
  { discriminate. }
  { repeat constructor; simpl; lia. }
  { reflexivity. }
  { discriminate. }
  { repeat constructor; simpl; lia. }
  do 2 eexists. split; [exact Hrun|]. split; reflexivity.
Defined.

(** C5 at [saving], step 40 with a checkpoint every 10 steps: the file is
    [ckpt.4.pth]; the frozen encoder is not in it, the trainable head is;
    the restarted process, whose policy has a parameter the file lacks,
    loads it and is back at step 40 of epoch 2 with the sampler at 17. *)
Lemma checkpoint_round_trip_witness :
  so_model (snapshot saving) !! "encoder.weight" = None
  /\ so_model (snapshot saving) !! "head.weight" = Some [7; 8; 9]
  /\ exists r',
       load_checkpoint vec_shape 4 (resumed (snapshot saving)) = (Ok tt, r')
       /\ step r' = 40%nat /\ epoch r' = 2%nat
       /\ sampler r' = 17%nat
       /\ cumstats r' !! "metrics/total_frames" = Some 640%nat
       /\ named_parameters (agent r') !! "head.weight"
          = Some (mkParameter [7; 8; 9] true).
Proof.
  destruct (checkpoint_round_trip vec_shape saving)
    as (_ & Hmodel & _ & _ & _ & _ & _ & Hload & _).
  { simpl. discriminate. }
  split; [exact (Hmodel "encoder.weight" (mkParameter [5; 5] false) eq_refl)|].
  split; [exact (Hmodel "head.weight" (mkParameter [7; 8; 9] true) eq_refl)|].
  destruct (Hload (resumed (snapshot saving)) 40%nat 2%nat)
    as (r' & Hrun & Hrest & Hcur).
  { reflexivity. }
  { unfold shapes_fit. apply (bool_decide_unpack _). vm_compute. exact I. }
  { exists (mkAdam [1%nat] [3; 4]). split; reflexivity. }
  { exists 40%nat. split; reflexivity. }
  { exists 17%nat. split; reflexivity. }
  { reflexivity. }
  { reflexivity. }
  exists r'. split; [exact Hrun|].
  destruct (Hcur eq_refl eq_refl) as (Hstep & Hepoch & Hframes).
  destruct Hrest as (_ & _ & _ & Hsampler & _ & _ & Hparams & _).
  split; [exact Hstep|]. split; [exact Hepoch|]. split; [exact Hsampler|].
  split; [rewrite Hframes; reflexivity|].
  exact (Hparams "head.weight" (mkParameter [7; 8; 9] true)
           (mkParameter [0; 0; 0] true) eq_refl eq_refl).
Defined.

(** The scenario of the specification, section 8: the segment counts of the
    three environments are 1, 2 and 1. *)
Theorem generate_samples_scenario :
  map (fun b => match env_samples scenario b with
                | Ok samples => Some (length samples)
                | Raise _ => None
                end) [0; 1; 2]%nat
  = [Some 1; Some 2; Some 1]%nat
  /\ map (fun b => match getitem_row (dones scenario) b with
                   | Ok row => env_slices (max_steps scenario) row
                   | Raise _ => []
                   end) [0; 1; 2]%nat
     = [[(0, 5)]; [(0, 2); (2, 5)]; [(0, 5)]].
Proof. split; reflexivity. Qed.

Lemma pad_inputs_rejects_long_episode_witness :
  pad_inputs 2
    [mkFrames 1 [[1]; [2]]; mkFrames 1 [[3]; [4]; [5]]] [mkFrames 1 [[0]]] [[1; 2]; [1; 2; 3]]
  = Raise RuntimeError.
Proof.
  apply (pad_inputs_rejects_long_episode 2).
  apply Exists_cons_tl, Exists_cons_hd. simpl. lia.
Defined.


End Instances.

Module RunInstances.

Import Rollout BC StepReturn RolloutUse Train Eval EvalLoop DataFiles Examples Runs.
Import RolloutSpec SegmentSpec ConfigSpec StepSpec CheckpointSpec.
Import ProtocolSpec PassSpec TrainSpec EvalSpec EvalLoopSpec DataFilesSpec.
Import TorchFacts RolloutFacts SegmentFacts ConfigFacts StepFacts CheckpointFacts.
Import ProtocolFacts ResetFacts SampleFacts PassFacts TrainFacts EvalFacts
       ResumeFacts EvalLoopFacts DataFilesFacts.

Ltac shapes := unfold wf_storage, has_shape, Torch.wf; simpl; repeat split; repeat constructor.

Lemma reachable_step (s : @RolloutStorage Z Z) (c : @call Z Z) :
  reachable 0 0 s ->
  (current_step_idx s = -1 -> c_dones c = None) ->
  reachable 0 0 (after (insert_call c) s).
Proof.
  intros R H. apply (reach_insert 0 0 s c (fst (insert_call c s)) _ R H).
  unfold after. apply surjective_pairing.
Qed.

Lemma filled_reachable : reachable 0 0 filled.
Proof.
  change filled with (fold_left (fun s c => after (insert_call c) s) filling (fresh 1 3 Cpu)).
  simpl fold_left.
  repeat (apply reachable_step; [|vm_compute; (discriminate || reflexivity)]).
  apply reach_init.
Qed.

(** [filled] is what the protocol leaves: its segments are the claimed
    ones. *)
Lemma protocol_keeps_segments_witness :
  protocol_invariant filled
  /\ exists row, getitem_row (dones filled) 0 = Ok row
                 /\ segments_claim (max_steps filled) row.
Proof.
  apply (protocol_keeps_segments 0 0 filled 0).
  - exact filled_reachable.
  - simpl; lia.
  - simpl; lia.
Defined.


Lemma reset_twice_witness :
  exists s1, reset filled = (Ok tt, s1) /\ reset s1 = (Ok tt, s1).
Proof. apply (reset_twice filled). shapes. Defined.


Lemma samples_are_episodes_witness :
  exists samples,
    env_samples filled 0 = Ok samples
    /\ forall i smp, samples !! i = Some smp ->
         exists e, s_dones smp = replicate (length (s_dones smp) - 1) false ++ [e]
                   /\ ((i + 1 < length samples)%nat -> e = true)
                   /\ ((i + 1 = length samples)%nat ->
                       cell (dones filled) 0 (max_steps filled - 1) = Some e).
Proof.
  apply (samples_are_episodes filled 0).
  - shapes.
  - simpl; lia.
  - simpl; lia.
  - reflexivity.
Defined.

(** [flagged_first]: the flag of the first [insert] gives a sample of three
    steps with two cells of [successes], and an empty one. *)
Lemma spare_flag_adds_samples_witness :
  exists samples tail_ empty_,
    env_samples flagged_first 0 = Ok (samples ++ [tail_; empty_])
    /\ samples = []
    /\ s_rgbs empty_ = []
    /\ last (s_dones tail_) = Some true
    /\ length (s_rgbs tail_) = S (length (s_successes tail_)).
Proof.
  destruct (spare_flag_adds_samples flagged_first 0)
    as (samples & tail_ & empty_ & Hrun & Hlen & He & Hlast & _ & _ & _ & _ & Hs).
  { shapes. }
  { simpl; lia. }
  { reflexivity. }
  exists samples, tail_, empty_. split; [exact Hrun|].
  split; [apply length_zero_iff_nil; exact (Hlen [false; false; true] eq_refl)|].
  split; [rewrite He; reflexivity|]. split; [exact Hlast|exact Hs].
Defined.

(** Three minibatches accumulated two by two: one whole chunk with its
    optimizer step, then one unsynchronised pass and the IndexError. *)
Lemma partial_chunk_is_never_applied_witness :
  exists trace,
    train_bc_step cfg_12_4_2 12 [] = (Raise IndexError, trace)
    /\ trace = [Backward false 0; Backward true 1; OptimStep; ZeroGrad;
                Backward false 2]
    /\ count is_optim_step trace = 1%nat.
Proof.
  destruct (partial_chunk_is_never_applied cfg_12_4_2 12 [])
    as (trace & Hrun & Htrace & Ho & _).
  { simpl; discriminate. }
  { reflexivity. }
  { simpl; discriminate. }
  { simpl; discriminate. }
  exists trace. split; [exact Hrun|]. split; [rewrite Htrace; reflexivity|exact Ho].
Defined.

(** No minibatch and no sub-sequence: no pass runs, and the average of the
    loss divides by zero.  With the configuration of the specification the
    step returns. *)
Lemma train_bc_step_outcome_witness :
  train_bc_step_return (fun _ => Ok tt) cfg_2_4_1 0 [] = (Raise ZeroDivisionError, [])
  /\ exists trace,
       train_bc_step_return (fun _ => Ok tt) cfg_16_4_2 16 [] = (Ok tt, trace)
       /\ trace = complete_chunks cfg_16_4_2 2.
Proof.
  split.
  - destruct (train_bc_step_outcome (fun _ => Ok tt) cfg_2_4_1 0 [])
      as (tr' & Hrun & Hsame & _).
    { intros mb _. reflexivity. }
    rewrite (Hsame ltac:(right; right; right; reflexivity)) in Hrun. exact Hrun.
  - destruct (train_bc_step_outcome (fun _ => Ok tt) cfg_16_4_2 16 [])
      as (tr' & Hrun & _ & Htrace).
    { intros mb _. reflexivity. }
    exists tr'. split; [exact Hrun|].
    apply Htrace; simpl; (discriminate || reflexivity).
Defined.

Lemma every_minibatch_in_one_pass_witness :
  exists trace,
    train_bc_step cfg_16_4_2 16 [] = (Ok tt, trace)
    /\ passes trace = [0; 1; 2; 3]%nat.
Proof.
  destruct (every_minibatch_in_one_pass cfg_16_4_2) as (trace & Hrun & Hp & _).
  { unfold valid_config, divisible; simpl. repeat split; discriminate. }
  exists trace. split; [exact Hrun|exact Hp].
Defined.

Lemma learn_frames_returns (b : nat) (l : @learner (list Z) adam nat nat) :
  exists l', learn_frames b l = (Ok tt, l').
Proof. eexists. reflexivity. Qed.


(** Twelve batches from step 40 with a checkpoint every 10 steps: files 4
    and 5 are written, at steps 40 and 50. *)
Lemma train_epoch_checkpoints_witness :
  exists s' obj4 obj5,
    train_epoch learn_frames id true (replicate 12 5%nat) saving = (Ok tt, s')
    /\ files s' !! 4%nat = Some obj4 /\ so_stats obj4 !! "step" = Some 40%nat
    /\ files s' !! 5%nat = Some obj5 /\ so_stats obj5 !! "step" = Some 50%nat
    /\ files s' !! 6%nat = None.
Proof.
  destruct (train_epoch_checkpoints learn_frames id learn_frames_returns true
              (replicate 12 5%nat) saving 640 eq_refl)
    as (s' & Hrun & Hfiles).
  { intros _. simpl. discriminate. }
  destruct (Hfiles 4%nat) as [H4 _]. destruct (Hfiles 5%nat) as [H5 _].
  destruct (Hfiles 6%nat) as [_ H6].
  destruct H4 as (obj4 & F4 & S4 & _); [split; [reflexivity|unfold due; simpl; lia]|].
  destruct H5 as (obj5 & F5 & S5 & _); [split; [reflexivity|unfold due; simpl; lia]|].
  exists s', obj4, obj5. split; [exact Hrun|].
  split; [exact F4|]. split; [exact S4|]. split; [exact F5|]. split; [exact S5|].
  rewrite H6; [reflexivity|]. intros [_ Hdue]. unfold due in Hdue. simpl in Hdue. lia.
Defined.

Lemma zero_ckpt_freq_raises_witness :
  exists s1,
    train_iteration learn_frames id true 5%nat never_saving
    = (Raise ZeroDivisionError, s1)
    /\ optim s1 = mkAdam [1%nat] [4; 5]
    /\ step s1 = 40%nat.
Proof.
  destruct (zero_ckpt_freq_raises learn_frames id learn_frames_returns 5%nat
              never_saving 640 eq_refl eq_refl)
    as (l' & s1 & s2 & Hl & Hrun & Hlearner & _ & Hs & _).
  exists s1. split; [exact Hrun|]. split; [|exact Hs].
  assert (l' = snd (learn_frames 5%nat (get_learner never_saving))) as Hl'
    by (rewrite Hl; reflexivity).
  rewrite Hl' in Hlearner.
  exact (f_equal (fun l : @learner (list Z) adam nat nat => l.1.1.2) Hlearner).
Defined.

(** From step 40, with 43 steps asked for and passes of two batches: two
    passes are run, and 44 steps trained. *)
Lemma train_loop_stops_after_whole_passes_witness :
  exists s',
    train_loop learn_frames id true 43 [[5; 5]; [5; 5]; [5; 5]]%nat saving
    = (Ok true, s')
    /\ step s' = 44%nat /\ epoch s' = 4%nat.
Proof.
  destruct (train_loop_stops_after_whole_passes learn_frames id learn_frames_returns
              true 43 2 [[5; 5]; [5; 5]; [5; 5]]%nat saving 640)
    as (s' & k & Hrun & Hs & He & Hge & Hlt & _).
  { lia. }
  { repeat constructor. }
  { reflexivity. }
  { intros _. simpl. discriminate. }
  { simpl. lia. }
  simpl in Hs, He, Hge, Hlt. specialize (Hlt ltac:(lia)).
  assert (k = 2%nat) as -> by lia.
  exists s'. split; [exact Hrun|]. split; [exact Hs|exact He].
Defined.

(** The evaluated policy [policy0] takes the head of the wrapped
    checkpoint, keeps its probe, which the file does not have, and is
    frozen. *)
Lemma eval_load_strips_prefix_witness :
  exists m',
    eval_load vec_shape wrapped_items policy0 = (Ok tt, m')
    /\ named_parameters m' !! "head.weight" = Some (mkParameter [7; 8; 9] false)
    /\ named_parameters m' !! "probe.weight" = Some (mkParameter [2] false).
Proof.
  destruct (eval_load_strips_prefix vec_shape wrapped_items policy0)
    as (m' & Hrun & Hp & _).
  { apply (bool_decide_unpack _). vm_compute. exact I. }
  { repeat constructor; eexists; reflexivity. }
  { unfold shapes_fit. apply (bool_decide_unpack _). vm_compute. exact I. }
  exists m'. split; [exact Hrun|].
  split.
  - exact (Hp "head.weight" (mkParameter [0; 0; 0] true) eq_refl).
  - exact (Hp "probe.weight" (mkParameter [2] true) eq_refl).
Defined.

(** The same weights under keys without the prefix: nothing is loaded. *)
Lemma eval_load_foreign_keys_load_nothing_witness :
  eval_load vec_shape bare_items policy0 = (Ok tt, freeze policy0)
  /\ named_parameters (freeze policy0) !! "head.weight"
     = Some (mkParameter [0; 0; 0] false).
Proof.
  split; [|reflexivity].
  apply (eval_load_foreign_keys_load_nothing vec_shape bare_items policy0).
  repeat constructor.
Defined.


(** The first turn of an evaluation of two environments, the video writer
    failing: one episode ends, close to the goal. *)
Lemma eval_step_counts_ended_episodes_witness :
  exists s',
    eval_env_step near true no_video "ckpt.3.pth" [(true, 1); (false, 5)]
      (eval_init "ckpt.3.pth" 2 None) = (Ok tt, s')
    /\ stats s' !! "ckpt.3.pth/total_episodes" = Some 1%nat
    /\ stats s' !! "ckpt.3.pth/successful_episodes" = Some 1%nat
    /\ episodes s' = [[]; [5]].
Proof.
  destruct (eval_step_counts_ended_episodes near true no_video "ckpt.3.pth"
              [(true, 1); (false, 5)] (eval_init "ckpt.3.pth" 2 None) 0 0)
    as (s' & Hrun & Ht & Hu & _ & _ & _).
  { discriminate. }
  { reflexivity. }
  { reflexivity. }
  { reflexivity. }
  exists s'. split; [exact Hrun|]. split; [exact Ht|]. split; [exact Hu|].
  vm_compute in Hrun. inversion Hrun. reflexivity.
Defined.

(** Two episodes asked for, two environments: the loop ends after the
    second turn with three episodes counted. *)
Lemma eval_loop_counts_witness :
  exists s',
    eval_loop near true no_video "ckpt.3.pth" 2 two_turns
      (eval_init "ckpt.3.pth" 2 None) = (Ok true, s')
    /\ stats s' !! "ckpt.3.pth/total_episodes" = Some 3%nat
    /\ stats s' !! "ckpt.3.pth/successful_episodes" = Some 2%nat.
Proof.
  destruct (eval_loop_counts near true no_video "ckpt.3.pth" 2 2 two_turns
              (eval_init "ckpt.3.pth" 2 None) 0 0)
    as (ended & s' & t' & u' & Hrun & Ht & Hu & _).
  { lia. }
  { reflexivity. }
  { repeat constructor. }
  { reflexivity. }
  { reflexivity. }
  vm_compute in Hrun. inversion Hrun; subst ended s'.
  eexists. split; [vm_compute; reflexivity|]. split; reflexivity.
Defined.

(** Two files without a semicolon in their names arrive as they were sent. *)
Lemma workers_receive_data_files_witness :
  received ["data/a.pkl"; "data/b.pkl"] = ["data/a.pkl"; "data/b.pkl"].
Proof.
  apply (proj2 (workers_receive_data_files ["data/a.pkl"; "data/b.pkl"])).
  split; [discriminate|]. repeat constructor.
Defined.

End RunInstances.
